(** * Sparse-regression optimizers of [sindy/optimizers/optimizers.py]

    A shallow embedding of [BaseOptimizer], [STLSQ], [SR3], [LASSO] and
    [ElasticNet].  Arrays of floats are lists of rationals ([Q]), boolean
    masks are lists of [bool], a raised Python exception is the [Raise]
    case of [result], and emitted warnings are collected in a list.  The
    numerical collaborators imported from numpy, scipy, sklearn and
    [sindy.utils.base] are the fields of the class [Externals].

    Numbers are exact: rounding, infinities and NaN are outside the
    model.  Comparisons are the boolean ones of [Q], so that every
    definition computes. *)

From Stdlib Require Import String.
From Stdlib Require Import List Bool Arith ZArith QArith Qabs Lia Sorted.
Import ListNotations.

Local Open Scope string_scope.
Local Open Scope list_scope.
Local Open Scope Q_scope.

(** ** Exceptions and results *)

Inductive exn :=
| ValueError (msg : string)
| IndexError
| NameError
| AttributeError
| NotImplementedError.

Inductive result (A : Type) :=
| Ok (a : A)
| Raise (e : exn).
Arguments Ok {A} a.
Arguments Raise {A} e.

Definition bind {A B : Type} (r : result A) (k : A -> result B) : result B :=
  match r with
  | Ok a => k a
  | Raise e => Raise e
  end.

Notation "x <- c1 ;; c2" := (bind c1 (fun x => c2))
  (at level 61, c1 at next level, right associativity).
Notation "' pat <- c1 ;; c2" := (bind c1 (fun x => match x with pat => c2 end))
  (at level 61, pat pattern, c1 at next level, right associativity).

Definition of_option {A : Type} (e : exn) (o : option A) : result A :=
  match o with
  | Some a => Ok a
  | None => Raise e
  end.

(** ** numpy arrays *)

Module Numpy.

Definition ndarray := list Q.
Definition mask := list bool.
(** A 2-D array, stored row by row. *)
Definition matrix := list (list Q).

(** [a < b] and [a <= b] on floats *)
Definition ltb (a b : Q) : bool := negb (Qle_bool b a).
Definition leb (a b : Q) : bool := Qle_bool a b.

(** [x.shape[1]] *)
Definition shape1 (x : matrix) : nat :=
  match x with
  | [] => O
  | row :: _ => length row
  end.

(** [np.zeros(n)] *)
Definition zeros (n : nat) : ndarray := repeat 0 n.

(** [np.ones(n, dtype=bool)] *)
Definition ones (n : nat) : mask := repeat true n.

(** [bool(v)] for a float [v] *)
Definition truthy (v : Q) : bool := negb (Qeq_bool v 0).

(** [np.count_nonzero(c)] for a float array *)
Definition count_nonzero (c : ndarray) : nat := length (filter truthy c).

(** [sum(ind)] and [np.count_nonzero(ind)] for a boolean array *)
Definition count_true (ind : mask) : nat := length (filter (fun b : bool => b) ind).

(** [row[ind]]: the entries of [row] at the true positions of [ind] *)
Fixpoint compress (ind : mask) (row : list Q) : list Q :=
  match ind, row with
  | b :: ind', v :: row' => if b then v :: compress ind' row' else compress ind' row'
  | _, _ => []
  end.

(** The entries of [coef], in order, at the true positions of [ind], and
    zero elsewhere. *)
Fixpoint put_mask (ind : mask) (coef : ndarray) : ndarray :=
  match ind with
  | [] => []
  | true :: ind' =>
      match coef with
      | v :: coef' => v :: put_mask ind' coef'
      | [] => 0 :: put_mask ind' []
      end
  | false :: ind' => 0 :: put_mask ind' coef
  end.

(** [c = np.zeros(dim); c[ind] = coef]: the mask must have [dim] entries,
    and [coef] as many entries as the mask has true ones, or a single
    entry that is broadcast. *)
Definition setitem_mask (dim : nat) (ind : mask) (coef : ndarray) : result ndarray :=
  if negb (length ind =? dim)%nat then Raise IndexError
  else if (length coef =? count_true ind)%nat then Ok (put_mask ind coef)
  else match coef with
       | [v] => Ok (put_mask ind (repeat v (count_true ind)))
       | _ => Raise (ValueError "shape mismatch in boolean index assignment")
       end.

(** [np.abs(c) >= threshold] *)
Definition abs_ge (c : ndarray) (threshold : Q) : mask :=
  map (fun v => Qle_bool threshold (Qabs v)) c.

(** [c[~big_ind] = 0] *)
Fixpoint zero_outside (big_ind : mask) (c : ndarray) : ndarray :=
  match big_ind, c with
  | b :: big', v :: c' => (if b then v else 0) :: zero_outside big' c'
  | _, _ => c
  end.

(** [np.zeros_like(ind, dtype=float)] and [np.zeros_like(c)] *)
Definition zeros_like {A : Type} (a : list A) : ndarray := zeros (length a).

(** [a[-1]] and [a[-2]] on a Python list *)
Definition last1 {A : Type} (a : list A) : option A := nth_error (rev a) 0.
Definition last2 {A : Type} (a : list A) : option A := nth_error (rev a) 1.

(** [all(bool(i) == bool(j) for i, j in zip(a, b))] *)
Fixpoint same_pattern (a b : ndarray) : bool :=
  match a, b with
  | i :: a', j :: b' => Bool.eqb (truthy i) (truthy j) && same_pattern a' b'
  | _, _ => true
  end.

(** The zero/nonzero pattern of an array, as a mask. *)
Definition pattern (c : ndarray) : mask := map truthy c.

(** Elementwise binary operation on 1-D arrays with numpy broadcasting:
    equal lengths, or one operand of length 1. *)
Fixpoint zip_with (f : Q -> Q -> Q) (a b : ndarray) : ndarray :=
  match a, b with
  | u :: a', v :: b' => f u v :: zip_with f a' b'
  | _, _ => []
  end.

Definition broadcast (f : Q -> Q -> Q) (a b : ndarray) : result ndarray :=
  if (length a =? length b)%nat then Ok (zip_with f a b)
  else match a, b with
       | [u], _ => Ok (map (fun v => f u v) b)
       | _, [v] => Ok (map (fun u => f u v) a)
       | _, _ => Raise (ValueError "operands could not be broadcast together")
       end.

(** [np.sum(a)] *)
Definition sum (a : ndarray) : Q := fold_left Qplus a 0.

(** [np.dot(a, b)] on two 1-D arrays of equal length *)
Definition dot (a b : ndarray) : Q := sum (zip_with Qmult a b).

(** [x.T] *)
Fixpoint transpose_aux (n : nat) (x : matrix) : matrix :=
  match n with
  | O => []
  | S n' => map (fun row => hd 0 row) x :: transpose_aux n' (map (@tl Q) x)
  end.
Definition transpose (x : matrix) : matrix := transpose_aux (shape1 x) x.

(** [np.dot(x.T, y)] *)
Definition dot_T_vec (x : matrix) (y : ndarray) : ndarray :=
  map (fun col => dot col y) (transpose x).

(** [np.dot(x.T, x)] *)
Definition dot_T (x : matrix) : matrix :=
  map (fun ci => map (fun cj => dot ci cj) (transpose x)) (transpose x).

(** [m + np.diag(np.full(n, d))] for the square [n] by [n] matrix [m] *)
Fixpoint add_diag_from (i : nat) (d : Q) (m : matrix) : matrix :=
  match m with
  | [] => []
  | row :: m' =>
      (firstn i row ++
         match skipn i row with
         | [] => []
         | v :: rest => (v + d) :: rest
         end) :: add_diag_from (S i) d m'
  end.
Definition add_diag (m : matrix) (d : Q) : matrix := add_diag_from O d m.

(** Every row has [x.shape[1]] entries, as in any 2-D array. *)
Definition rectangular (x : matrix) : bool :=
  forallb (fun row => (length row =? shape1 x)%nat) x.

(** [x[:, ind]]: the mask must have one entry per column *)
Definition select_columns (x : matrix) (ind : mask) : result matrix :=
  if (length ind =? shape1 x)%nat then Ok (map (compress ind) x)
  else Raise IndexError.

(** Equality of two masks. *)
Fixpoint mask_eqb (a b : mask) : bool :=
  match a, b with
  | [], [] => true
  | u :: a', v :: b' => Bool.eqb u v && mask_eqb a' b'
  | _, _ => false
  end.

(** [subset a b]: the masks have the same length and [a] is true only
    where [b] is. *)
Definition subset (a b : mask) : Prop :=
  Forall2 (fun u v : bool => u = true -> v = true) a b.

End Numpy.
Import Numpy.

(** ** Warnings *)

(** The texts passed to [warnings.warn], with the value formatted in. *)
Inductive warning :=
| SparsityTooBig (threshold : Q)
| STLSQNotConverged (max_iter : Z)
| STLSQNoIterationsLeft
| SR3NotConverged (max_iter : Z).

(** ** External collaborators

    Everything the module imports and calls but does not define. *)

Class Externals := {
  (** the [**kw] dictionaries forwarded verbatim to a solver *)
  Kw : Type;
  empty_kw : Kw;
  (** the factorisation returned by [scipy.linalg.cho_factor] *)
  Cho : Type;
  (** [sklearn.utils.validation.check_X_y] *)
  check_X_y : matrix -> ndarray -> result (matrix * ndarray);
  (** [LinearModel._preprocess_data(x, y, fit_intercept, normalize, copy,
      sample_weight)], returning [(x, y, X_offset, y_offset, X_scale)] *)
  _preprocess_data :
    matrix -> ndarray -> bool -> bool -> bool -> option ndarray ->
    matrix * ndarray * ndarray * Q * ndarray;
  (** [sklearn.linear_model.base._rescale_data] *)
  _rescale_data : matrix -> ndarray -> ndarray -> matrix * ndarray;
  (** [LinearModel._set_intercept]: from [fit_intercept], [coef_] and the
      three offsets to the new [coef_] and [intercept_] *)
  _set_intercept : bool -> ndarray -> ndarray -> Q -> ndarray -> ndarray * Q;
  (** [np.linalg.lstsq(x, y, rcond=None)[0]] *)
  lstsq : matrix -> ndarray -> ndarray;
  (** [sklearn.linear_model.ridge_regression(x, y, alpha, **kw)] *)
  ridge_regression : matrix -> ndarray -> Q -> Kw -> ndarray;
  (** [scipy.linalg.cho_factor] and [cho_solve] *)
  cho_factor : matrix -> Cho;
  cho_solve : Cho -> ndarray -> ndarray;
  (** [sindy.utils.base.get_prox] *)
  get_prox : string -> result (ndarray -> Q -> ndarray);
  (** [Lasso(alpha, max_iter, fit_intercept=False, **kw).fit(x, y)],
      returning [(coef_, n_iter_)] *)
  Lasso_fit : Q -> Z -> Kw -> matrix -> ndarray -> ndarray * nat;
  (** [SKElasticNet(alpha, l1_ratio, max_iter, fit_intercept=False,
      **kw).fit(x, y)], returning [(coef_, n_iter_)] *)
  ElasticNet_fit : Q -> Q -> Z -> Kw -> matrix -> ndarray -> ndarray * nat
}.

(** [kw or {}] *)
Definition or_empty `{Externals} (kw : option Kw) : Kw :=
  match kw with
  | Some k => k
  | None => empty_kw
  end.

(** ** BaseOptimizer *)

Module BaseOptimizer.

Record t := {
  fit_intercept : bool;
  normalize : bool;
  copy_X : bool;
  iters : nat;
  coef_ : ndarray;
  ind_ : mask;
  history_ : list ndarray;
  (** set by [_set_intercept]; no such attribute before the first fit *)
  intercept_ : option Q
}.

(** [BaseOptimizer.__init__(normalize=False, fit_intercept=False, copy_X=True)] *)
Definition __init__ (normalize fit_intercept copy_X : bool) : t :=
  {| fit_intercept := fit_intercept;
     normalize := normalize;
     copy_X := copy_X;
     iters := 0;
     coef_ := [];
     ind_ := [];
     history_ := [];
     intercept_ := None |}.

(** The keyword defaults of [__init__]. *)
Definition default : t := __init__ false false true.

Definition with_iters (self : t) (n : nat) : t :=
  {| fit_intercept := fit_intercept self;
     normalize := normalize self;
     copy_X := copy_X self;
     iters := n;
     coef_ := coef_ self;
     ind_ := ind_ self;
     history_ := history_ self;
     intercept_ := intercept_ self |}.

Definition with_coef_ (self : t) (c : ndarray) : t :=
  {| fit_intercept := fit_intercept self;
     normalize := normalize self;
     copy_X := copy_X self;
     iters := iters self;
     coef_ := c;
     ind_ := ind_ self;
     history_ := history_ self;
     intercept_ := intercept_ self |}.

Definition with_ind_ (self : t) (m : mask) : t :=
  {| fit_intercept := fit_intercept self;
     normalize := normalize self;
     copy_X := copy_X self;
     iters := iters self;
     coef_ := coef_ self;
     ind_ := m;
     history_ := history_ self;
     intercept_ := intercept_ self |}.

(** [self.history_.append(c)] *)
Definition history_append (self : t) (c : ndarray) : t :=
  {| fit_intercept := fit_intercept self;
     normalize := normalize self;
     copy_X := copy_X self;
     iters := iters self;
     coef_ := coef_ self;
     ind_ := ind_ self;
     history_ := history_ self ++ [c];
     intercept_ := intercept_ self |}.

(** Lines 62 to 65 of [fit]: the assignments made before [_reduce] runs. *)
Definition start `{Externals} (self : t) (x : matrix) (y : ndarray) : t :=
  let coef := lstsq x y in
  {| fit_intercept := fit_intercept self;
     normalize := normalize self;
     copy_X := copy_X self;
     iters := 0;
     coef_ := coef;
     ind_ := ones (shape1 x);
     history_ := history_ self ++ [coef];
     intercept_ := intercept_ self |}.

(** Line 69 of [fit]. *)
Definition finish `{Externals} (self : t) (X_offset : ndarray) (y_offset : Q)
    (X_scale : ndarray) : t :=
  let '(coef, intercept) :=
    _set_intercept (fit_intercept self) (coef_ self) X_offset y_offset X_scale in
  {| fit_intercept := fit_intercept self;
     normalize := normalize self;
     copy_X := copy_X self;
     iters := iters self;
     coef_ := coef;
     ind_ := ind_ self;
     history_ := history_ self;
     intercept_ := Some intercept |}.

(** Lines 42 to 60 of [fit]: validation, preprocessing and rescaling. *)
Definition prepare `{Externals} (self : t) (x_ : matrix) (y : ndarray)
    (sample_weight : option ndarray)
  : result (matrix * ndarray * ndarray * Q * ndarray) :=
  '(x_, y) <- check_X_y x_ y ;;
  let '(x, y, X_offset, y_offset, X_scale) :=
    _preprocess_data x_ y (fit_intercept self) (normalize self) (copy_X self)
      sample_weight in
  let '(x, y) :=
    match sample_weight with
    | Some w => _rescale_data x y w
    | None => (x, y)
    end in
  Ok (x, y, X_offset, y_offset, X_scale).

Section Fit.
Context `{Externals}.
(** A subclass: its instances, how they hold the inherited attributes,
    and its implementation of the abstract method [_reduce]. *)
Context {A : Type}.
Variable base : A -> t.
Variable with_base : A -> t -> A.
Variable _reduce : A -> matrix -> ndarray -> result (A * list warning).

Definition fit (self : A) (x_ : matrix) (y : ndarray)
    (sample_weight : option ndarray) : result (A * list warning) :=
  '(x, y, X_offset, y_offset, X_scale) <- prepare (base self) x_ y sample_weight ;;
  let self := with_base self (start (base self) x y) in
  '(self, warned) <- _reduce self x y ;;
  let self := with_base self (finish (base self) X_offset y_offset X_scale) in
  Ok (self, warned).
End Fit.

(** The [complexity] property; [threshold] is [None] on a subclass that
    has no such attribute. *)
Definition complexity (self : t) (threshold : option Q) : result nat :=
  let n := count_nonzero (coef_ self) in
  intercept <- of_option AttributeError (intercept_ self) ;;
  threshold <- of_option AttributeError threshold ;;
  Ok (n + count_true [Qle_bool threshold (Qabs intercept)])%nat.

End BaseOptimizer.

(** ** STLSQ *)

Module STLSQ.

Record t `{Externals} := {
  base : BaseOptimizer.t;
  threshold : Q;
  alpha : Q;
  max_iter : Z;
  ridge_kw : option Kw
}.

(** How a run of the loop of [_reduce] ends: by the first [break], by the
    second [break], or by exhausting [range(self.max_iter)]. *)
Inductive exit := Degenerate | Converged | ExhaustedUnconverged.

(** The outcome of one pass through the loop body. *)
Inductive control := Continue | Break (how : exit).

Section WithExternals.
Context `{Externals}.

Definition with_base (self : t) (b : BaseOptimizer.t) : t :=
  {| base := b;
     threshold := threshold self;
     alpha := alpha self;
     max_iter := max_iter self;
     ridge_kw := ridge_kw self |}.

(** [STLSQ.__init__(threshold, alpha, max_iter, ridge_kw, **kwargs)],
    the keyword arguments being those of [BaseOptimizer.__init__]. *)
Definition __init__ (threshold alpha : Q) (max_iter : Z) (ridge_kw : option Kw)
    (normalize fit_intercept copy_X : bool) : result t :=
  let b := BaseOptimizer.__init__ normalize fit_intercept copy_X in
  if ltb threshold 0 then Raise (ValueError "threshold cannot be negative")
  else if ltb alpha 0 then Raise (ValueError "alpha cannot be negative")
  else if (max_iter <=? 0)%Z then Raise (ValueError "max_iter must be positive")
  else Ok {| base := b;
             threshold := threshold;
             alpha := alpha;
             max_iter := max_iter;
             ridge_kw := ridge_kw |}.

(** The defaults of the keyword arguments. *)
Definition default_threshold : Q := 1 # 10.
Definition default_alpha : Q := 0.
Definition default_max_iter : Z := 20.
Definition default_ridge_kw : option Kw := None.

Definition _sparse_coefficients (self : t) (dim : nat) (ind : mask)
    (coef : ndarray) (threshold : Q) : result (ndarray * mask * t) :=
  c <- setitem_mask dim ind coef ;;
  let big_ind := abs_ge c threshold in
  let c := zero_outside big_ind c in
  let self := with_base self (BaseOptimizer.history_append (base self) c) in
  Ok (c, big_ind, self).

Definition _regress (self : t) (x : matrix) (y : ndarray) : ndarray * t :=
  let kw := or_empty (ridge_kw self) in
  let coef := ridge_regression x y (alpha self) kw in
  let self :=
    with_base self
      (BaseOptimizer.with_iters (base self) (BaseOptimizer.iters (base self) + 1)) in
  (coef, self).

Definition _no_change (self : t) : result bool :=
  let history := BaseOptimizer.history_ (base self) in
  this_coef <- of_option IndexError (last1 history) ;;
  last_coef <-
    (if (1 <? length history)%nat then of_option IndexError (last2 history)
     else Ok (zeros_like this_coef)) ;;
  Ok (same_pattern this_coef last_coef).

(** The entry [_no_change] compares the newest one with: the one before
    it, or zeros when there is none. *)
Definition preceding (history : list ndarray) (c : ndarray) : ndarray :=
  match last1 history with
  | Some h => h
  | None => zeros_like c
  end.

(** The variables the loop of [_reduce] reads and assigns: the
    instance, the local [coef] (unbound until first assigned), the
    local [ind], and the warnings emitted so far. *)
Record loop_state := {
  self : t;
  coef : option ndarray;
  ind : mask;
  warned : list warning
}.

(** Either the threshold is positive, or nothing has been dropped yet. *)
Definition unpruned_or_positive (st : loop_state) : Prop :=
  0 < threshold (self st) \/ ind st = ones (length (ind st)).

Section Reduce.
Variables (x : matrix) (y : ndarray).
Variables (n_features n_features_selected : nat).

(** One pass through the body of the [for] loop. *)
Definition body (st : loop_state) : result (control * loop_state) :=
  if (count_true (ind st) =? 0)%nat then
    Ok (Break Degenerate,
        {| self := self st;
           coef := Some (zeros_like (ind st));
           ind := ind st;
           warned := warned st ++ [SparsityTooBig (threshold (self st))] |})
  else
    xs <- select_columns x (ind st) ;;
    let '(coef, self1) := _regress (self st) xs y in
    '(c, big_ind, self2) <-
      _sparse_coefficients self1 n_features (ind st) coef (threshold self1) ;;
    stop <-
      (if (count_true big_ind =? n_features_selected)%nat then Ok true
       else _no_change self2) ;;
    Ok (if stop : bool then Break Converged else Continue,
        {| self := self2;
           coef := Some c;
           ind := big_ind;
           warned := warned st |}).

(** [for _ in range(n): body], with the way the loop was left. *)
Fixpoint for_range (n : nat) (st : loop_state) : result (exit * loop_state) :=
  match n with
  | O => Ok (ExhaustedUnconverged, st)
  | S n' =>
      '(ctl, st') <- body st ;;
      match ctl with
      | Break how => Ok (how, st')
      | Continue => for_range n' st'
      end
  end.

(** The state entering pass [k + 1] of the loop, when the first [k]
    passes all ran to the end of the body without a [break]. *)
Fixpoint after (k : nat) (st : loop_state) : option loop_state :=
  match k with
  | O => Some st
  | S k' =>
      match body st with
      | Ok (Continue, st') => after k' st'
      | _ => None
      end
  end.

(** The successive values of [ind] in a run of at most [n] passes:
    the one on entry, then the one left by each pass. *)
Fixpoint masks (n : nat) (st : loop_state) : list mask :=
  ind st ::
    match n with
    | O => []
    | S n' =>
        match body st with
        | Ok (Continue, st') => masks n' st'
        | Ok (Break _, st') => [ind st']
        | Raise _ => []
        end
    end.

(** What [body] did, when it returned at the first [break]. *)
Definition degenerate_pass (st st' : loop_state) : Prop :=
  count_true (ind st) = 0%nat /\
  st' = {| self := self st;
           coef := Some (zeros_like (ind st));
           ind := ind st;
           warned := warned st ++ [SparsityTooBig (threshold (self st))] |}.

(** What [body] did, when it regressed and thresholded: [raw] is the
    full-length vector before thresholding. *)
Definition regular_pass (st : loop_state) (stop : bool) (st' : loop_state) : Prop :=
  count_true (ind st) <> 0%nat /\
  length (ind st) = n_features /\
  exists (xs : matrix) (scattered : ndarray),
    let th := threshold (self st) in
    let raw := put_mask (ind st) scattered in
    let big := abs_ge raw th in
    let c := zero_outside big raw in
    let history := BaseOptimizer.history_ (base (self st)) in
    select_columns x (ind st) = Ok xs /\
    (length (ridge_regression xs y (alpha (self st)) (or_empty (ridge_kw (self st))))
     = count_true (ind st) ->
     scattered = ridge_regression xs y (alpha (self st)) (or_empty (ridge_kw (self st)))) /\
    ind st' = big /\
    coef st' = Some c /\
    warned st' = warned st /\
    threshold (self st') = th /\
    alpha (self st') = alpha (self st) /\
    ridge_kw (self st') = ridge_kw (self st) /\
    max_iter (self st') = max_iter (self st) /\
    BaseOptimizer.history_ (base (self st')) = history ++ [c] /\
    BaseOptimizer.iters (base (self st')) = S (BaseOptimizer.iters (base (self st))) /\
    stop = ((count_true big =? n_features_selected)%nat
            || same_pattern c (preceding history c)).

(** The [else] clause of the loop. *)
Definition or_else (st : loop_state) : loop_state :=
  let warned := warned st ++ [STLSQNotConverged (max_iter (self st))] in
  match coef st with
  | Some _ =>
      {| self := self st; coef := coef st; ind := ind st; warned := warned |}
  | None =>
      {| self := self st;
         coef := Some (BaseOptimizer.coef_ (base (self st)));
         ind := ind st;
         warned := warned ++ [STLSQNoIterationsLeft] |}
  end.
End Reduce.

(** The state in which [_reduce] enters its loop. *)
Definition enter (self : t) : loop_state :=
  {| self := self;
     coef := None;
     ind := BaseOptimizer.ind_ (base self);
     warned := [] |}.

(** Lines 169 and 170: [self.coef_ = coef; self.ind_ = ind]. *)
Definition write_back (st : loop_state) : result (t * list warning) :=
  coef <- of_option NameError (coef st) ;;
  let b := BaseOptimizer.with_coef_ (base (self st)) coef in
  let b := BaseOptimizer.with_ind_ b (ind st) in
  Ok (with_base (self st) b, warned st).

(** [STLSQ._reduce], returning also how the loop was left. *)
Definition run (self : t) (x : matrix) (y : ndarray)
  : result (exit * t * list warning) :=
  let st := enter self in
  let n_features := shape1 x in
  let n_features_selected := count_true (ind st) in
  '(how, st) <-
    for_range x y n_features n_features_selected
      (Z.to_nat (max_iter self)) st ;;
  let st :=
    match how with
    | ExhaustedUnconverged => or_else st
    | _ => st
    end in
  '(self, warned) <- write_back st ;;
  Ok (how, self, warned).

Definition _reduce (self : t) (x : matrix) (y : ndarray)
  : result (t * list warning) :=
  '(_, self, warned) <- run self x y ;;
  Ok (self, warned).

Definition fit (self : t) (x_ : matrix) (y : ndarray)
    (sample_weight : option ndarray) : result (t * list warning) :=
  BaseOptimizer.fit base with_base _reduce self x_ y sample_weight.

Definition complexity (self : t) : result nat :=
  BaseOptimizer.complexity (base self) (Some (threshold self)).

(** [STLSQ(threshold=threshold)], the other arguments at their defaults:
    the instance [__init__] returns for them. *)
Definition with_threshold (threshold : Q) : t :=
  {| base := BaseOptimizer.default;
     threshold := threshold;
     alpha := default_alpha;
     max_iter := default_max_iter;
     ridge_kw := default_ridge_kw |}.

(** The instance as [fit] hands it to [_reduce] on the data [x], [y]. *)
Definition started (self : t) (x : matrix) (y : ndarray) : t :=
  with_base self (BaseOptimizer.start (base self) x y).

(** One pass of the loop of [_reduce], as run within [fit]. *)
Definition pass (self : t) (x : matrix) (y : ndarray) (st : loop_state)
  : result (control * loop_state) :=
  body x y (shape1 x)
    (count_true (BaseOptimizer.ind_ (base (started self x y)))) st.

(** The loop state entering pass [k + 1] of a fit, if the loop gets
    that far. *)
Definition entering (self : t) (x : matrix) (y : ndarray) (k : nat)
  : option loop_state :=
  after x y (shape1 x)
    (count_true (BaseOptimizer.ind_ (base (started self x y)))) k
    (enter (started self x y)).

(** Outside the mask the local [coef], once bound, is zero. *)
Definition zero_outside_support (st : loop_state) : Prop :=
  forall c i, coef st = Some c -> nth i (ind st) true = false -> nth i c 0 = 0.

(** What holds of the loop state entering pass [k + 1] of a fit. *)
Definition entering_invariant (s : t) (x : matrix) (y : ndarray)
    (k : nat) (st : loop_state) : Prop :=
  length (ind st) = shape1 x /\
  BaseOptimizer.iters (base (self st)) = k /\
  threshold (self st) = threshold s /\
  alpha (self st) = alpha s /\
  ridge_kw (self st) = ridge_kw s /\
  max_iter (self st) = max_iter s /\
  warned st = [] /\
  match k with
  | O => st = enter (started s x y)
  | S _ =>
      0 < threshold s /\
      exists older h,
        BaseOptimizer.history_ (base (self st)) = older ++ [h] /\
        pattern h = ind st
  end.

(** The stopping test in the words of the specification: the support
    size left by the pass equals the support size entering it, or the
    zero/nonzero pattern of the newest History entry equals that of
    the preceding entry, the first pass taking an all-zero baseline
    for the preceding entry. *)
Definition stopping_test_as_specified (first_pass : bool) (entering : mask)
    (st' : loop_state) : bool :=
  let history := BaseOptimizer.history_ (base (self st')) in
  match last1 history, last2 history with
  | Some newest, Some before =>
      let preceding := if first_pass then zeros_like newest else before in
      (count_true (ind st') =? count_true entering)%nat
      || mask_eqb (pattern newest) (pattern preceding)
  | _, _ => false
  end.

End WithExternals.
End STLSQ.

(** ** SR3 *)

Module SR3.

Record t := {
  base : BaseOptimizer.t;
  threshold : Q;
  nu : Q;
  tol : Q;
  thresholder : string;
  prox : ndarray -> Q -> ndarray;
  max_iter : Z;
  (** assigned at the end of [_reduce]; no such attribute before *)
  coef_full_ : option ndarray
}.

Inductive exit := Converged | ExhaustedUnconverged.

Inductive control := Continue | Break.

Definition with_base (self : t) (b : BaseOptimizer.t) : t :=
  {| base := b;
     threshold := threshold self;
     nu := nu self;
     tol := tol self;
     thresholder := thresholder self;
     prox := prox self;
     max_iter := max_iter self;
     coef_full_ := coef_full_ self |}.

Definition with_coef_full_ (self : t) (c : ndarray) : t :=
  {| base := base self;
     threshold := threshold self;
     nu := nu self;
     tol := tol self;
     thresholder := thresholder self;
     prox := prox self;
     max_iter := max_iter self;
     coef_full_ := Some c |}.

(** The defaults of the keyword arguments. *)
Definition default_threshold : Q := 1 # 10.
Definition default_nu : Q := 1.
Definition default_tol : Q := 1 # 100000.
Definition default_thresholder : string := "l0".
Definition default_max_iter : Z := 30.

(** The local variables of the loop of [_reduce]. *)
Record loop_state := {
  self : t;
  coef_full : option ndarray;
  coef_sparse : ndarray
}.

(** Once bound, the local [coef_full] is what the local [coef_sparse]
    was thresholded from. *)
Definition sparse_is_prox (prox : ndarray -> Q -> ndarray) (threshold : Q)
    (st : loop_state) : Prop :=
  forall c,
    coef_full st = Some c -> coef_sparse st = prox c threshold.

Section WithExternals.
Context `{Externals}.

(** [SR3.__init__(threshold, nu, tol, thresholder, max_iter, **kwargs)] *)
Definition __init__ (threshold nu tol : Q) (thresholder : string) (max_iter : Z)
    (normalize fit_intercept copy_X : bool) : result t :=
  let b := BaseOptimizer.__init__ normalize fit_intercept copy_X in
  if ltb threshold 0 then Raise (ValueError "threshold cannot be negative")
  else if leb nu 0 then Raise (ValueError "nu must be positive")
  else if leb tol 0 then Raise (ValueError "tol must be positive")
  else if (max_iter <=? 0)%Z then Raise (ValueError "max_iter must be positive")
  else
    prox <- get_prox thresholder ;;
    Ok {| base := b;
          threshold := threshold;
          nu := nu;
          tol := tol;
          thresholder := thresholder;
          prox := prox;
          max_iter := max_iter;
          coef_full_ := None |}.

Definition _update_full_coef (self : t) (cho : Cho) (x_transpose_y : ndarray)
    (coef_sparse : ndarray) : result (ndarray * t) :=
  b <- broadcast Qplus x_transpose_y (map (fun v => v / nu self) coef_sparse) ;;
  let coef_full := cho_solve cho b in
  let self :=
    with_base self
      (BaseOptimizer.with_iters (base self) (BaseOptimizer.iters (base self) + 1)) in
  Ok (coef_full, self).

Definition _update_sparse_coef (self : t) (coef_full : ndarray) : ndarray * t :=
  let coef_sparse := prox self coef_full (threshold self) in
  let self := with_base self (BaseOptimizer.history_append (base self) coef_sparse) in
  (coef_sparse, self).

Definition _convergence_criterion (self : t) : result Q :=
  let history := BaseOptimizer.history_ (base self) in
  this_coef <- of_option IndexError (last1 history) ;;
  last_coef <-
    (if (1 <? length history)%nat then of_option IndexError (last2 history)
     else Ok (zeros_like this_coef)) ;;
  d <- broadcast Qminus this_coef last_coef ;;
  Ok (sum (map (fun v => v * v) d)).

Section Reduce.
Variables (cho : Cho) (x_transpose_y : ndarray).

(** One pass through the body of the [for] loop. *)
Definition body (st : loop_state) : result (control * loop_state) :=
  '(coef_full, self1) <-
    _update_full_coef (self st) cho x_transpose_y (coef_sparse st) ;;
  let '(coef_sparse, self2) := _update_sparse_coef self1 coef_full in
  crit <- _convergence_criterion self2 ;;
  Ok (if ltb crit (tol self2) then Break else Continue,
      {| self := self2;
         coef_full := Some coef_full;
         coef_sparse := coef_sparse |}).

Fixpoint for_range (n : nat) (st : loop_state) : result (exit * loop_state) :=
  match n with
  | O => Ok (ExhaustedUnconverged, st)
  | S n' =>
      '(ctl, st') <- body st ;;
      match ctl with
      | Break => Ok (Converged, st')
      | Continue => for_range n' st'
      end
  end.
End Reduce.

(** The state in which [_reduce] enters its loop. *)
Definition enter (self : t) : loop_state :=
  {| self := self;
     coef_full := None;
     coef_sparse := BaseOptimizer.coef_ (base self) |}.

(** Lines 259 and 260: [self.coef_ = coef_sparse; self.coef_full_ = coef_full]. *)
Definition write_back (st : loop_state) : result t :=
  let self1 :=
    with_base (self st) (BaseOptimizer.with_coef_ (base (self st)) (coef_sparse st)) in
  coef_full <- of_option NameError (coef_full st) ;;
  Ok (with_coef_full_ self1 coef_full).

(** [SR3._reduce], returning also how the loop was left. *)
Definition run (self : t) (x : matrix) (y : ndarray)
  : result (exit * t * list warning) :=
  let st := enter self in
  let cho := cho_factor (add_diag (dot_T x) (1 / nu self)) in
  let x_transpose_y := dot_T_vec x y in
  '(how, st) <- for_range cho x_transpose_y (Z.to_nat (max_iter self)) st ;;
  let warned :=
    match how with
    | ExhaustedUnconverged => [SR3NotConverged (max_iter self)]
    | Converged => []
    end in
  self <- write_back st ;;
  Ok (how, self, warned).

Definition _reduce (self : t) (x : matrix) (y : ndarray)
  : result (t * list warning) :=
  '(_, self, warned) <- run self x y ;;
  Ok (self, warned).

Definition fit (self : t) (x_ : matrix) (y : ndarray)
    (sample_weight : option ndarray) : result (t * list warning) :=
  BaseOptimizer.fit base with_base _reduce self x_ y sample_weight.

Definition complexity (self : t) : result nat :=
  BaseOptimizer.complexity (base self) (Some (threshold self)).

End WithExternals.
End SR3.

(** ** LASSO *)

Module LASSO.

Record t `{Externals} := {
  base : BaseOptimizer.t;
  lasso_kw : option Kw;
  alpha : Q;
  max_iter : Z
}.

Section WithExternals.
Context `{Externals}.

Definition with_base (self : t) (b : BaseOptimizer.t) : t :=
  {| base := b;
     lasso_kw := lasso_kw self;
     alpha := alpha self;
     max_iter := max_iter self |}.

(** [LASSO.__init__(alpha, lasso_kw, max_iter, **kwargs)] *)
Definition __init__ (alpha : Q) (lasso_kw : option Kw) (max_iter : Z)
    (normalize fit_intercept copy_X : bool) : result t :=
  let b := BaseOptimizer.__init__ normalize fit_intercept copy_X in
  if ltb alpha 0 then Raise (ValueError "alpha cannot be negative")
  else if (max_iter <=? 0)%Z then Raise (ValueError "max_iter must be positive")
  else Ok {| base := b;
             lasso_kw := lasso_kw;
             alpha := alpha;
             max_iter := max_iter |}.

Definition default_alpha : Q := 1.
Definition default_lasso_kw : option Kw := None.
Definition default_max_iter : Z := 1000.

Definition _reduce (self : t) (x : matrix) (y : ndarray)
  : result (t * list warning) :=
  let kw := or_empty (lasso_kw self) in
  let '(coef, n_iter) := Lasso_fit (alpha self) (max_iter self) kw x y in
  let b := BaseOptimizer.with_coef_ (base self) coef in
  let b := BaseOptimizer.with_iters b n_iter in
  Ok (with_base self b, []).

Definition fit (self : t) (x_ : matrix) (y : ndarray)
    (sample_weight : option ndarray) : result (t * list warning) :=
  BaseOptimizer.fit base with_base _reduce self x_ y sample_weight.

(** [LASSO] has no attribute [threshold]. *)
Definition complexity (self : t) : result nat :=
  BaseOptimizer.complexity (base self) None.

End WithExternals.
End LASSO.

(** ** ElasticNet *)

Module ElasticNet.

Record t `{Externals} := {
  base : BaseOptimizer.t;
  alpha : Q;
  l1_ratio : Q;
  max_iter : Z;
  elastic_net_kw : option Kw
}.

Section WithExternals.
Context `{Externals}.

Definition with_base (self : t) (b : BaseOptimizer.t) : t :=
  {| base := b;
     alpha := alpha self;
     l1_ratio := l1_ratio self;
     max_iter := max_iter self;
     elastic_net_kw := elastic_net_kw self |}.

(** [ElasticNet.__init__(alpha, l1_ratio, max_iter, elastic_net_kw, **kwargs)] *)
Definition __init__ (alpha l1_ratio : Q) (max_iter : Z)
    (elastic_net_kw : option Kw) (normalize fit_intercept copy_X : bool)
  : result t :=
  let b := BaseOptimizer.__init__ normalize fit_intercept copy_X in
  if ltb alpha 0 then Raise (ValueError "alpha must be nonnegative")
  else if ltb l1_ratio 0 then Raise (ValueError "l1_ratio must be nonnegative")
  else if (max_iter <=? 0)%Z then Raise (ValueError "max_iter must be positive")
  else Ok {| base := b;
             alpha := alpha;
             l1_ratio := l1_ratio;
             max_iter := max_iter;
             elastic_net_kw := elastic_net_kw |}.

Definition default_alpha : Q := 1.
Definition default_l1_ratio : Q := 1 # 2.
Definition default_max_iter : Z := 1000.
Definition default_elastic_net_kw : option Kw := Some empty_kw.

Definition _reduce (self : t) (x : matrix) (y : ndarray)
  : result (t * list warning) :=
  let kw := or_empty (elastic_net_kw self) in
  let '(coef, n_iter) :=
    ElasticNet_fit (alpha self) (l1_ratio self) (max_iter self) kw x y in
  let b := BaseOptimizer.with_coef_ (base self) coef in
  let b := BaseOptimizer.with_iters b n_iter in
  Ok (with_base self b, []).

Definition fit (self : t) (x_ : matrix) (y : ndarray)
    (sample_weight : option ndarray) : result (t * list warning) :=
  BaseOptimizer.fit base with_base _reduce self x_ y sample_weight.

(** [ElasticNet] has no attribute [threshold]. *)
Definition complexity (self : t) : result nat :=
  BaseOptimizer.complexity (base self) None.

End WithExternals.
End ElasticNet.

(** ** An exact backend

    An instance of [Externals] over the rationals, on which the optimizers
    can be run: linear systems are solved by Gauss-Jordan elimination on the
    normal equations, and the coordinate-descent solvers sweep until a
    sweep changes nothing.  Column scaling and sample weights need square
    roots and are left out: the instance covers the configurations without
    them. *)

Module Exact.

Fixpoint find_pivot (j : nat) (rows : matrix) : option (list Q * matrix) :=
  match rows with
  | [] => None
  | r :: rows' =>
      if truthy (nth j r 0) then Some (r, rows')
      else match find_pivot j rows' with
           | Some (p, rest) => Some (p, r :: rest)
           | None => None
           end
  end.

(** [r - k * p], entry by entry *)
Definition axpy (k : Q) (p r : list Q) : list Q :=
  zip_with (fun a b => Qred (a - k * b)) r p.

(** Columns [j], [j + 1], ... of the augmented system, [done] holding the
    rows already pivoted, one per column before [j]. *)
Fixpoint eliminate (n j : nat) (done rest : matrix) : matrix :=
  match n with
  | O => done
  | S n' =>
      match find_pivot j rest with
      | Some (p, rest') =>
          let p := map (fun v => Qred (v / nth j p 0)) p in
          let clear r := axpy (nth j r 0) p r in
          eliminate n' (S j) (map clear done ++ [p]) (map clear rest')
      | None =>
          (* a free unknown, set to zero *)
          eliminate n' (S j) (done ++ [[]]) rest
      end
  end.

(** The solution [w] of [a w = b], for a square [a]. *)
Definition solve (a : matrix) (b : ndarray) : ndarray :=
  let rows := map (fun rv => fst rv ++ [snd rv]) (combine a b) in
  map (fun r => last r 0) (eliminate (length a) 0 [] rows).

Definition ridge (x : matrix) (y : ndarray) (alpha : Q) : ndarray :=
  solve (add_diag (dot_T x) alpha) (dot_T_vec x y).

Definition check (x : matrix) (y : ndarray) : result (matrix * ndarray) :=
  if (length x =? 0)%nat then Raise (ValueError "Found array with 0 sample(s)")
  else if (shape1 x =? 0)%nat then Raise (ValueError "Found array with 0 feature(s)")
  else if negb (rectangular x) then Raise (ValueError "Expected 2D array")
  else if negb (length x =? length y)%nat
       then Raise (ValueError "Found input variables with inconsistent numbers of samples")
  else Ok (x, y).

Definition mean (a : ndarray) : Q := Qred (sum a / inject_Z (Z.of_nat (length a))).

Definition preprocess (x : matrix) (y : ndarray) (fit_intercept normalize copy : bool)
    (sample_weight : option ndarray) : matrix * ndarray * ndarray * Q * ndarray :=
  if fit_intercept then
    let X_offset := map mean (transpose x) in
    let y_offset := mean y in
    (map (fun row => zip_with Qminus row X_offset) x,
     map (fun v => v - y_offset) y,
     X_offset, y_offset, repeat 1 (shape1 x))
  else (x, y, zeros (shape1 x), 0, repeat 1 (shape1 x)).

Definition set_intercept (fit_intercept : bool) (coef X_offset : ndarray)
    (y_offset : Q) (X_scale : ndarray) : ndarray * Q :=
  if fit_intercept then
    let coef := zip_with Qdiv coef X_scale in
    (coef, y_offset - dot X_offset coef)
  else (coef, 0).

(** Hard thresholding. *)
Definition prox_l0 (c : ndarray) (threshold : Q) : ndarray :=
  map (fun v => if ltb threshold (Qabs v) then v else 0) c.

(** Soft thresholding. *)
Definition soft (threshold v : Q) : Q :=
  if ltb threshold (Qabs v)
  then Qred (if ltb v 0 then v + threshold else v - threshold)
  else 0.
Definition prox_l1 (c : ndarray) (threshold : Q) : ndarray :=
  map (soft threshold) c.

Definition prox_of (thresholder : string) : result (ndarray -> Q -> ndarray) :=
  if String.eqb thresholder "l0" then Ok prox_l0
  else if String.eqb thresholder "l1" then Ok prox_l1
  else Raise NotImplementedError.

(** One sweep of cyclic coordinate descent over the columns [cols],
    for the penalties [l1] on the absolute values and [l2] on the
    squares; [before] holds the coefficients already updated. *)
Fixpoint sweep (l1 l2 : Q) (y : ndarray) (before : ndarray)
    (cols : matrix) (after : ndarray) (residual : ndarray) : ndarray :=
  match cols, after with
  | col :: cols', w :: after' =>
      let rho := dot col residual + w * dot col col in
      let w' := Qred (soft l1 rho / (dot col col + l2)) in
      let residual := zip_with (fun r c => Qred (r - (w' - w) * c)) residual col in
      sweep l1 l2 y (before ++ [w']) cols' after' residual
  | _, _ => before
  end.

Definition predict (x : matrix) (w : ndarray) : ndarray := map (fun row => dot row w) x.

Fixpoint descend (l1 l2 : Q) (x : matrix) (y : ndarray) (fuel : nat)
    (w : ndarray) (n_iter : nat) : ndarray * nat :=
  match fuel with
  | O => (w, n_iter)
  | S fuel' =>
      let w' := sweep l1 l2 y [] (transpose x) w (zip_with Qminus y (predict x w)) in
      if forallb (fun uv => Qeq_bool (fst uv) (snd uv)) (combine w w')
      then (w', S n_iter)
      else descend l1 l2 x y fuel' w' (S n_iter)
  end.

(** The minimiser of
    [||y - x w||^2 / (2 n) + alpha l1_ratio ||w||_1
     + alpha (1 - l1_ratio) ||w||^2 / 2]. *)
Definition elastic_net (alpha l1_ratio : Q) (max_iter : Z) (x : matrix) (y : ndarray)
  : ndarray * nat :=
  let n := inject_Z (Z.of_nat (length x)) in
  descend (n * alpha * l1_ratio) (n * alpha * (1 - l1_ratio)) x y
    (Z.to_nat max_iter) (zeros (shape1 x)) 0.

Definition backend : Externals :=
  {| Kw := unit;
     empty_kw := tt;
     Cho := matrix;
     check_X_y := check;
     _preprocess_data := preprocess;
     _rescale_data := fun x y _ => (x, y);
     _set_intercept := set_intercept;
     lstsq := fun x y => ridge x y 0;
     ridge_regression := fun x y alpha _ => ridge x y alpha;
     cho_factor := fun m => m;
     cho_solve := solve;
     get_prox := prox_of;
     Lasso_fit := fun alpha max_iter _ x y => elastic_net alpha 1 max_iter x y;
     ElasticNet_fit := fun alpha l1_ratio max_iter _ x y =>
                         elastic_net alpha l1_ratio max_iter x y |}.

End Exact.


(** ** Example data and instances, on the exact backend *)

Module Example.

Definition I3 : matrix := [[1; 0; 0]; [0; 1; 0]; [0; 0; 1]].
Definition y123 : ndarray := [1; 2; 3].
(** A target whose third entry is below the default threshold. *)
Definition y_small : ndarray := [1; 2; 1 # 20].

(** [STLSQ(threshold=threshold)] *)
Definition stlsq (threshold : Q) : @STLSQ.t Exact.backend :=
  @STLSQ.with_threshold Exact.backend threshold.

(** The attributes [fit] leaves on the model for the data above, but
    for the counter, coefficients, mask and History given. *)
Definition fitted (intercept : option Q) (iters : nat) (history : list ndarray)
    (coef : ndarray) (ind : mask) : BaseOptimizer.t :=
  {| BaseOptimizer.fit_intercept := false;
     BaseOptimizer.normalize := false;
     BaseOptimizer.copy_X := true;
     BaseOptimizer.iters := iters;
     BaseOptimizer.coef_ := coef;
     BaseOptimizer.ind_ := ind;
     BaseOptimizer.history_ := history;
     BaseOptimizer.intercept_ := intercept |}.

(** The variables of the loop of [STLSQ._reduce] after [iters] passes
    that left [coef] and [ind]. *)
Definition stlsq_state (threshold : Q) (iters : nat) (history : list ndarray)
    (coef : ndarray) (ind : mask) : @STLSQ.loop_state Exact.backend :=
  {| STLSQ.self :=
       STLSQ.with_base (stlsq threshold)
         (fitted None iters history (hd [] history) [true; true; true]);
     STLSQ.coef := Some coef;
     STLSQ.ind := ind;
     STLSQ.warned := [] |}.

(** [SR3(thresholder=thresholder)], for a thresholder the backend knows. *)
Definition sr3 (prox : ndarray -> Q -> ndarray) (thresholder : string) : SR3.t :=
  {| SR3.base := BaseOptimizer.default;
     SR3.threshold := SR3.default_threshold;
     SR3.nu := SR3.default_nu;
     SR3.tol := SR3.default_tol;
     SR3.thresholder := thresholder;
     SR3.prox := prox;
     SR3.max_iter := SR3.default_max_iter;
     SR3.coef_full_ := None |}.

(** [LASSO()] and [ElasticNet()] *)
Definition lasso : @LASSO.t Exact.backend :=
  {| LASSO.base := BaseOptimizer.default;
     LASSO.lasso_kw := @LASSO.default_lasso_kw Exact.backend;
     LASSO.alpha := LASSO.default_alpha;
     LASSO.max_iter := LASSO.default_max_iter |}.

Definition elastic_net : @ElasticNet.t Exact.backend :=
  {| ElasticNet.base := BaseOptimizer.default;
     ElasticNet.alpha := ElasticNet.default_alpha;
     ElasticNet.l1_ratio := ElasticNet.default_l1_ratio;
     ElasticNet.max_iter := ElasticNet.default_max_iter;
     ElasticNet.elastic_net_kw := @ElasticNet.default_elastic_net_kw Exact.backend |}.

End Example.

(** * Properties *)

(** ** Masks and arrays *)

Lemma subset_refl (a : mask) : subset a a.
Proof. induction a; constructor; auto. Qed.

Lemma subset_trans (a b c : mask) : subset a b -> subset b c -> subset a c.
Proof.
  intros Hab; revert c.
  induction Hab as [|u v a b Huv Hab IH]; intros c Hbc; inversion Hbc; subst.
  - constructor.
  - constructor; [intros Hu; auto | apply IH; assumption].
Qed.

Lemma subset_length (a b : mask) : subset a b -> length a = length b.
Proof. apply Forall2_length. Qed.

Lemma subset_count (a b : mask) : subset a b -> (count_true a <= count_true b)%nat.
Proof.
  unfold count_true.
  induction 1 as [|u v a b Huv Hab IH]; simpl; [lia|].
  destruct u, v; simpl; first [lia | discriminate (Huv eq_refl)].
Qed.

Lemma count_true_le_length (a : mask) : (count_true a <= length a)%nat.
Proof. unfold count_true. apply filter_length_le. Qed.

Lemma subset_same_count (a b : mask) :
  subset a b -> count_true a = count_true b -> a = b.
Proof.
  unfold count_true.
  induction 1 as [|u v a b Huv Hab IH]; simpl; intros Hc; [reflexivity|].
  pose proof (subset_count _ _ Hab) as Hle. unfold count_true in Hle.
  destruct u, v; simpl in Hc; try discriminate (Huv eq_refl).
  - f_equal. apply IH. lia.
  - lia.
  - f_equal. apply IH. lia.
Qed.

Lemma subset_nth (a b : mask) (k : nat) :
  subset a b -> nth k b false = false -> nth k a false = false.
Proof.
  intros Hab; revert k.
  induction Hab as [|u v a b Huv Hab IH]; intros [|k]; simpl; auto.
  intros ->. destruct u; auto. discriminate (Huv eq_refl).
Qed.

Lemma count_true_ones (n : nat) : count_true (ones n) = n.
Proof. unfold count_true, ones. induction n; simpl; auto. Qed.

Lemma length_ones (n : nat) : length (ones n) = n.
Proof. apply repeat_length. Qed.

Lemma count_full_ones (a : mask) : count_true a = length a -> a = ones (length a).
Proof.
  unfold count_true, ones.
  induction a as [|u a IH]; simpl; intros Hc; [reflexivity|].
  pose proof (filter_length_le (fun b : bool => b) a) as Hle.
  destruct u; simpl in Hc.
  - f_equal. apply IH. lia.
  - lia.
Qed.

Lemma count_zero_false (a : mask) : count_true a = 0%nat -> a = repeat false (length a).
Proof.
  unfold count_true.
  induction a as [|u a IH]; simpl; intros Hc; [reflexivity|].
  destruct u; simpl in Hc; [discriminate|].
  f_equal. auto.
Qed.

Lemma put_mask_length (ind : mask) (coef : ndarray) :
  length (put_mask ind coef) = length ind.
Proof.
  revert coef. induction ind as [|b ind IH]; intros coef; simpl; [reflexivity|].
  destruct b; [destruct coef|]; simpl; f_equal; apply IH.
Qed.

Lemma abs_ge_length (c : ndarray) (th : Q) : length (abs_ge c th) = length c.
Proof. apply length_map. Qed.

Lemma zero_outside_length (big : mask) (c : ndarray) :
  length (zero_outside big c) = length c.
Proof.
  revert c. induction big as [|b big IH]; intros [|v c]; simpl; auto.
Qed.

(** With a positive threshold, thresholding the scattered coefficients
    keeps no entry outside the mask they were scattered on. *)
Lemma abs_ge_put_mask_subset (ind : mask) (coef : ndarray) (th : Q) :
  0 < th -> subset (abs_ge (put_mask ind coef) th) ind.
Proof.
  intros Hth. revert coef.
  induction ind as [|b ind IH]; intros coef; simpl; [constructor|].
  destruct b.
  - destruct coef; simpl; constructor; auto; apply IH.
  - simpl. constructor; [|apply IH].
    intros Hle. apply Qle_bool_iff in Hle. simpl in Hle.
    exfalso. apply (Qlt_not_le _ _ Hth). exact Hle.
Qed.

(** With a threshold that is not positive, every entry passes. *)
Lemma abs_ge_nonpositive (c : ndarray) (th : Q) :
  th <= 0 -> abs_ge c th = ones (length c).
Proof.
  intros Hth. unfold abs_ge, ones.
  induction c as [|v c IH]; simpl; [reflexivity|].
  f_equal; [|exact IH].
  apply Qle_bool_iff. apply Qle_trans with 0; [exact Hth|apply Qabs_nonneg].
Qed.

(** After thresholding at a positive level, the nonzero entries are
    exactly the entries of the new mask. *)
Lemma pattern_zero_outside (c : ndarray) (th : Q) :
  0 < th -> pattern (zero_outside (abs_ge c th) c) = abs_ge c th.
Proof.
  intros Hth. unfold pattern, abs_ge.
  induction c as [|v c IH]; simpl; [reflexivity|].
  f_equal; [|exact IH].
  destruct (Qle_bool th (Qabs v)) eqn:Hle.
  - unfold truthy. destruct (Qeq_bool v 0) eqn:Hz; [|reflexivity].
    apply Qeq_bool_iff in Hz. apply Qle_bool_iff in Hle.
    rewrite Hz in Hle. simpl in Hle.
    exfalso. apply (Qlt_not_le _ _ Hth). exact Hle.
  - reflexivity.
Qed.

(** Entries outside the new mask are zero after thresholding. *)
Lemma zero_outside_nth (big : mask) (c : ndarray) (k : nat) :
  length big = length c ->
  nth k big true = false -> nth k (zero_outside big c) 0 = 0.
Proof.
  revert c k. induction big as [|b big IH]; intros [|v c] [|k]; simpl;
    try discriminate; auto.
  intros _ ->. reflexivity.
Qed.

Lemma zero_outside_ones (c : ndarray) : zero_outside (ones (length c)) c = c.
Proof. induction c as [|v c IH]; simpl; [reflexivity|]. f_equal. exact IH. Qed.

Lemma put_mask_ones (coef : ndarray) : put_mask (ones (length coef)) coef = coef.
Proof. induction coef as [|v c IH]; simpl; [reflexivity|]. f_equal. exact IH. Qed.

Lemma compress_ones (row : list Q) : compress (ones (length row)) row = row.
Proof. induction row as [|v c IH]; simpl; [reflexivity|]. f_equal. exact IH. Qed.

Lemma select_columns_ones (x : matrix) :
  rectangular x = true -> select_columns x (ones (shape1 x)) = Ok x.
Proof.
  intros Hr. unfold select_columns. rewrite length_ones, Nat.eqb_refl.
  f_equal. unfold rectangular in Hr. rewrite forallb_forall in Hr.
  transitivity (map (fun row : list Q => row) x); [|apply map_id].
  apply map_ext_in. intros row Hin.
  specialize (Hr row Hin). apply Nat.eqb_eq in Hr. rewrite <- Hr.
  apply compress_ones.
Qed.

Lemma same_pattern_iff (a b : ndarray) :
  length a = length b -> (same_pattern a b = true <-> pattern a = pattern b).
Proof.
  revert b. induction a as [|u a IH]; intros [|v b]; simpl; try discriminate.
  - intros _. split; auto.
  - intros Hl. injection Hl as Hl. rewrite andb_true_iff, (IH b Hl).
    split.
    + intros [Huv ->]. apply eqb_prop in Huv. rewrite Huv. reflexivity.
    + intros Hp. injection Hp as Huv Hp. split; [|exact Hp].
      rewrite Huv. apply eqb_reflx.
Qed.

Lemma last1_app {A : Type} (l : list A) (a : A) : last1 (l ++ [a]) = Some a.
Proof. unfold last1. rewrite rev_app_distr. reflexivity. Qed.

Lemma last2_app {A : Type} (l : list A) (a b : A) : last2 (l ++ [a; b]) = Some a.
Proof. unfold last2. rewrite rev_app_distr. reflexivity. Qed.

(** ** One pass of the STLSQ loop *)

Section STLSQ_body.
Context `{Externals}.
Variables (x : matrix) (y : ndarray).
Variables (n_features n_features_selected : nat).

Import STLSQ.

Lemma no_change_after_append (s : t) (c : ndarray) :
  _no_change (with_base s (BaseOptimizer.history_append (base s) c))
  = Ok (same_pattern c (preceding (BaseOptimizer.history_ (base s)) c)).
Proof.
  unfold _no_change, preceding. simpl.
  rewrite last1_app. simpl.
  rewrite length_app. simpl.
  unfold last1, last2. rewrite rev_app_distr. simpl.
  destruct (BaseOptimizer.history_ (base s)) as [|h0 hs] eqn:Hh using rev_ind.
  - reflexivity.
  - rewrite length_app. simpl.
    replace (1 <? length hs + 1 + 1)%nat with true
      by (symmetry; apply Nat.ltb_lt; lia).
    rewrite rev_app_distr. reflexivity.
Qed.

Lemma body_cases (st : loop_state) (ctl : control) (st' : loop_state) :
  body x y n_features n_features_selected st = Ok (ctl, st') ->
  (ctl = Break Degenerate /\ degenerate_pass st st') \/
  (exists stop : bool,
      ctl = (if stop then Break Converged else Continue) /\
      regular_pass x y n_features n_features_selected st stop st').
Proof.
  unfold body.
  destruct (count_true (ind st) =? 0)%nat eqn:Hc.
  - intros Hb. injection Hb as <- <-. left.
    split; [reflexivity|]. split; [|reflexivity].
    apply Nat.eqb_eq. exact Hc.
  - apply Nat.eqb_neq in Hc. intros Hb. right.
    destruct (select_columns x (ind st)) as [xs|e] eqn:Hsel; [|discriminate].
    simpl in Hb.
    unfold _sparse_coefficients in Hb. simpl in Hb.
    set (r := ridge_regression xs y (alpha (self st)) (or_empty (ridge_kw (self st))))
      in *.
    assert (Hset : exists scattered,
               (setitem_mask n_features (ind st) r = Ok (put_mask (ind st) scattered)
                \/ exists e, setitem_mask n_features (ind st) r = Raise e) /\
               (setitem_mask n_features (ind st) r <> Raise IndexError ->
                length (ind st) = n_features) /\
               (length r = count_true (ind st) -> scattered = r)).
    { unfold setitem_mask.
      destruct (length (ind st) =? n_features)%nat eqn:Hl; simpl.
      - apply Nat.eqb_eq in Hl.
        destruct (length r =? count_true (ind st))%nat eqn:Hr.
        + exists r. repeat split; auto.
        + apply Nat.eqb_neq in Hr.
          destruct r as [|v [|w r']].
          * exists []. repeat split; eauto.
          * exists (repeat v (count_true (ind st))).
            repeat split; auto. intros Hx; contradiction.
          * exists []. repeat split; eauto. intros Hx; contradiction.
      - exists []. split; [right; eauto|]. split; [congruence|].
        intros _. exfalso. revert Hb. 
        unfold setitem_mask. rewrite Hl. simpl. discriminate. }
    destruct Hset as (scattered & [Hset | [e Hset]] & Hlen & Hsc);
      rewrite Hset in Hb; simpl in Hb; [|discriminate].
    rewrite no_change_after_append in Hb. simpl in Hb.
    set (raw := put_mask (ind st) scattered) in *.
    set (c := zero_outside (abs_ge raw (threshold (self st))) raw) in *.
    set (stop := ((count_true (abs_ge raw (threshold (self st))) =? n_features_selected)%nat
                  || same_pattern c (preceding
                                       (BaseOptimizer.history_ (base (self st))) c))).
    assert (Hb' : Ok (if stop then Break Converged else Continue,
                      {| self := with_base
                                   (with_base (self st)
                                      (BaseOptimizer.with_iters (base (self st))
                                         (BaseOptimizer.iters (base (self st)) + 1)))
                                   (BaseOptimizer.history_append
                                      (BaseOptimizer.with_iters (base (self st))
                                         (BaseOptimizer.iters (base (self st)) + 1)) c);
                         coef := Some c;
                         ind := abs_ge raw (threshold (self st));
                         warned := warned st |}) = Ok (ctl, st')).
    { rewrite <- Hb. unfold stop.
      destruct (count_true (abs_ge raw (threshold (self st))) =? n_features_selected)%nat;
        reflexivity. }
    injection Hb' as <- <-.
    exists stop. split; [reflexivity|].
    split; [exact Hc|]. split; [apply Hlen; rewrite Hset; discriminate|].
    exists xs, scattered. simpl.
    repeat split; auto.
    rewrite Nat.add_1_r. reflexivity.
Qed.

End STLSQ_body.

(** ** The support across the passes of one fit *)

Section STLSQ_support.
Context `{Externals}.
Variables (x : matrix) (y : ndarray).
Variables (n_features n_features_selected : nat).

Import STLSQ.

Lemma body_support (st : loop_state) (ctl : control) (st' : loop_state) :
  body x y n_features n_features_selected st = Ok (ctl, st') ->
  unpruned_or_positive st ->
  subset (ind st') (ind st) /\ unpruned_or_positive st'.
Proof.
  intros Hb Hinv.
  destruct (body_cases _ _ _ _ _ _ _ Hb) as [[_ [_ ->]] | [stop [_ Hreg]]].
  - simpl. split; [apply subset_refl|exact Hinv].
  - destruct Hreg as (_ & _ & xs & scattered & _ & _ & Hind & _ & _ & Hth & _).
    cbv zeta in Hind, Hth.
    destruct (Qlt_le_dec 0 (threshold (self st))) as [Hpos | Hnonpos].
    + split; [|left; rewrite Hth; exact Hpos].
      rewrite Hind. apply abs_ge_put_mask_subset. exact Hpos.
    + destruct Hinv as [Hpos | Hones].
      * exfalso. apply (Qlt_not_le _ _ Hpos). exact Hnonpos.
      * assert (Hsame : ind st' = ind st).
        { rewrite Hind, (abs_ge_nonpositive _ _ Hnonpos), put_mask_length.
          symmetry. exact Hones. }
        rewrite Hsame. split; [apply subset_refl|].
        right. rewrite Hsame. exact Hones.
Qed.

Lemma masks_decreasing (n : nat) (st : loop_state) :
  unpruned_or_positive st ->
  Forall (fun m => subset m (ind st)) (masks x y n_features n_features_selected n st) /\
  StronglySorted (fun a b : mask => subset b a)
    (masks x y n_features n_features_selected n st).
Proof.
  revert st. induction n as [|n IH]; intros st Hinv; simpl.
  - split; repeat constructor. apply subset_refl.
  - destruct (body x y n_features n_features_selected st) as [[ctl st']|e] eqn:Hb.
    + destruct (body_support _ _ _ Hb Hinv) as [Hsub Hinv'].
      destruct ctl as [|how].
      * destruct (IH st' Hinv') as [Hall Hsorted].
        assert (Hall' : Forall (fun m => subset m (ind st))
                          (masks x y n_features n_features_selected n st')).
        { eapply Forall_impl; [|exact Hall].
          intros m Hm. apply subset_trans with (ind st'); assumption. }
        split.
        -- constructor; [apply subset_refl | exact Hall'].
        -- constructor; [exact Hsorted | exact Hall'].
      * split.
        -- constructor; [apply subset_refl|]. constructor; [exact Hsub|constructor].
        -- constructor; [repeat constructor|]. constructor; [exact Hsub|constructor].
    + split; repeat constructor. apply subset_refl.
Qed.

Lemma masks_last (n : nat) (st : loop_state) (how : exit) (st' : loop_state) :
  for_range x y n_features n_features_selected n st = Ok (how, st') ->
  last (masks x y n_features n_features_selected n st) [] = ind st'.
Proof.
  revert st. induction n as [|n IH]; intros st; simpl.
  - intros Hf. injection Hf as _ <-. reflexivity.
  - destruct (body x y n_features n_features_selected st) as [[ctl st1]|e] eqn:Hb;
      simpl; [|discriminate].
    destruct ctl as [|how1].
    + intros Hf. specialize (IH st1 Hf).
      destruct (masks x y n_features n_features_selected n st1) eqn:Hm.
      * destruct n; discriminate.
      * exact IH.
    + intros Hf. injection Hf as _ <-. reflexivity.
Qed.

End STLSQ_support.

Lemma StronglySorted_nth_error {A : Type} (R : A -> A -> Prop) (l : list A) :
  (forall a, R a a) -> StronglySorted R l ->
  forall i j a b, (i <= j)%nat ->
    nth_error l i = Some a -> nth_error l j = Some b -> R a b.
Proof.
  intros Hrefl Hs. induction Hs as [|h l Hs IH Hall]; intros i j a b Hij Hi Hj.
  - destruct i; discriminate.
  - destruct i as [|i], j as [|j]; simpl in Hi, Hj.
    + injection Hi as <-. injection Hj as <-. apply Hrefl.
    + injection Hi as <-. rewrite Forall_forall in Hall.
      apply Hall. eapply nth_error_In; eauto.
    + lia.
    + apply (IH i j); [lia | exact Hi | exact Hj].
Qed.

Lemma write_back_ind `{Externals} (st : STLSQ.loop_state) (s : STLSQ.t)
    (w : list warning) :
  STLSQ.write_back st = Ok (s, w) ->
  BaseOptimizer.ind_ (STLSQ.base s) = STLSQ.ind st /\
  Some (BaseOptimizer.coef_ (STLSQ.base s)) = STLSQ.coef st /\
  w = STLSQ.warned st /\
  BaseOptimizer.iters (STLSQ.base s) = BaseOptimizer.iters (STLSQ.base (STLSQ.self st)) /\
  BaseOptimizer.history_ (STLSQ.base s)
  = BaseOptimizer.history_ (STLSQ.base (STLSQ.self st)).
Proof.
  unfold STLSQ.write_back. destruct (STLSQ.coef st) as [c|]; simpl; [|discriminate].
  intros Hw. injection Hw as <- <-. simpl. auto.
Qed.

Lemma or_else_ind `{Externals} (st : STLSQ.loop_state) :
  STLSQ.ind (STLSQ.or_else st) = STLSQ.ind st.
Proof. unfold STLSQ.or_else. destruct (STLSQ.coef st); reflexivity. Qed.

Lemma run_cases `{Externals} (s : STLSQ.t) (x : matrix) (y : ndarray)
    (how : STLSQ.exit) (s' : STLSQ.t) (w : list warning) :
  STLSQ.run s x y = Ok (how, s', w) ->
  exists st,
    STLSQ.for_range x y (shape1 x) (count_true (BaseOptimizer.ind_ (STLSQ.base s)))
      (Z.to_nat (STLSQ.max_iter s)) (STLSQ.enter s) = Ok (how, st) /\
    STLSQ.write_back
      (match how with
       | STLSQ.ExhaustedUnconverged => STLSQ.or_else st
       | _ => st
       end) = Ok (s', w).
Proof.
  unfold STLSQ.run. simpl.
  destruct (STLSQ.for_range _ _ _ _ _ _) as [[how1 st]|e]; simpl; [|discriminate].
  destruct (STLSQ.write_back _) as [[s1 w1]|e] eqn:Hw; simpl; [|discriminate].
  intros Hr. injection Hr as <- <- <-. exists st. auto.
Qed.

(** C1: in every STLSQ fit the support never grows from one pass of the
    loop to a later one: over the successive values of the mask, starting
    with the one set by [fit], a later mask has no more true entries than
    an earlier one and is false wherever the earlier one is; and the mask
    left on the model is the last of them. *)
Theorem STLSQ_support_never_grows `{Externals} (s : STLSQ.t) (x : matrix) (y : ndarray) :
  let s0 := STLSQ.started s x y in
  let trace :=
    STLSQ.masks x y (shape1 x) (count_true (BaseOptimizer.ind_ (STLSQ.base s0)))
      (Z.to_nat (STLSQ.max_iter s0)) (STLSQ.enter s0) in
  (forall (i j : nat) (mi mj : mask),
      (i <= j)%nat ->
      nth_error trace i = Some mi ->
      nth_error trace j = Some mj ->
      (count_true mj <= count_true mi)%nat /\
      (forall k, nth k mi false = false -> nth k mj false = false)) /\
  (forall how s' w,
      STLSQ.run s0 x y = Ok (how, s', w) ->
      BaseOptimizer.ind_ (STLSQ.base s') = last trace []).
Proof.
  intros s0 trace. split.
  - intros i j mi mj Hij Hi Hj.
    assert (Hinv : STLSQ.unpruned_or_positive (STLSQ.enter s0)).
    { right. simpl. rewrite length_ones. reflexivity. }
    destruct (masks_decreasing x y (shape1 x)
                (count_true (BaseOptimizer.ind_ (STLSQ.base s0)))
                (Z.to_nat (STLSQ.max_iter s0)) _ Hinv) as [_ Hsorted].
    assert (Hsub : subset mj mi).
    { eapply (StronglySorted_nth_error (fun a b : mask => subset b a));
        eauto using subset_refl. }
    split; [apply subset_count; exact Hsub|].
    intros k. apply subset_nth. exact Hsub.
  - intros how s' w Hrun.
    destruct (run_cases _ _ _ _ _ _ Hrun) as (st & Hfor & Hwb).
    apply write_back_ind in Hwb. destruct Hwb as (Hind & _).
    rewrite Hind. unfold trace. rewrite (masks_last _ _ _ _ _ _ _ _ Hfor).
    destruct how; auto using or_else_ind.
Qed.

(** ** The loop of STLSQ within a fit *)

Section STLSQ_loop.
Context `{Externals}.
Variables (x : matrix) (y : ndarray).
Variables (n_features n_features_selected : nat).

Import STLSQ.

Lemma after_last (k : nat) (st0 st' : loop_state) :
  after x y n_features n_features_selected (S k) st0 = Some st' ->
  exists st,
    after x y n_features n_features_selected k st0 = Some st /\
    body x y n_features n_features_selected st = Ok (Continue, st').
Proof.
  revert st0. induction k as [|k IH]; intros st0.
  - simpl. intros Ha. exists st0. split; [reflexivity|].
    destruct (body x y n_features n_features_selected st0) as [[[|how] st1]|e];
      try discriminate.
    injection Ha as ->. reflexivity.
  - intros Ha. simpl in Ha.
    destruct (body x y n_features n_features_selected st0) as [[[|how] st1]|e] eqn:Hb;
      try discriminate.
    destruct (IH st1 Ha) as (st & Hst & Hbody).
    exists st. split; [|exact Hbody].
    simpl. rewrite Hb. destruct k; exact Hst.
Qed.

Lemma for_range_after (k m : nat) (st0 st : loop_state) :
  after x y n_features n_features_selected k st0 = Some st ->
  for_range x y n_features n_features_selected (k + m) st0
  = for_range x y n_features n_features_selected m st.
Proof.
  revert st0. induction k as [|k IH]; intros st0; simpl.
  - intros Ha. injection Ha as ->. reflexivity.
  - destruct (body x y n_features n_features_selected st0) as [[[|how] st1]|e];
      try discriminate.
    intros Ha. simpl. apply IH. exact Ha.
Qed.

Lemma body_zero_outside_support (st : loop_state) (ctl : control) (st' : loop_state) :
  body x y n_features n_features_selected st = Ok (ctl, st') ->
  zero_outside_support st' /\ coef st' <> None.
Proof.
  intros Hb.
  destruct (body_cases _ _ _ _ _ _ _ Hb) as [[_ [_ ->]] | [stop [_ Hreg]]].
  - split; [|discriminate]. intros c i. simpl. intros Hc _. injection Hc as <-.
    unfold zeros_like, zeros. apply nth_repeat.
  - destruct Hreg as (_ & _ & xs & scattered & _ & _ & Hind & Hcoef & _).
    cbv zeta in Hind, Hcoef.
    split; [|rewrite Hcoef; discriminate].
    intros c i Hc Hi. rewrite Hcoef in Hc. injection Hc as <-.
    rewrite Hind in Hi. apply zero_outside_nth; [apply abs_ge_length|exact Hi].
Qed.

Lemma for_range_zero_outside_support (n : nat) (st : loop_state) (how : exit)
    (st' : loop_state) :
  for_range x y n_features n_features_selected n st = Ok (how, st') ->
  (zero_outside_support st' /\ coef st' <> None) \/
  (st' = st /\ how = ExhaustedUnconverged).
Proof.
  revert st. induction n as [|n IH]; intros st; simpl.
  - intros Hf. injection Hf as <- <-. right. auto.
  - destruct (body x y n_features n_features_selected st) as [[ctl st1]|e] eqn:Hb;
      simpl; [|discriminate].
    pose proof (body_zero_outside_support _ _ _ Hb) as Hz.
    destruct ctl as [|how1].
    + intros Hf. destruct (IH st1 Hf) as [Hz' | [-> _]]; left; auto.
    + intros Hf. injection Hf as <- <-. left. exact Hz.
Qed.

End STLSQ_loop.

Section STLSQ_fit.
Context `{Externals}.
Variables (s : STLSQ.t) (x : matrix) (y : ndarray).

Import STLSQ.

Lemma entering_holds (k : nat) (st : loop_state) :
  entering s x y k = Some st -> entering_invariant s x y k st.
Proof.
  unfold entering. revert st. induction k as [|k IH]; intros st Ha.
  - simpl in Ha. injection Ha as <-.
    unfold entering_invariant. simpl. rewrite length_ones. repeat split; auto.
  - apply after_last in Ha. destruct Ha as (st1 & Ha & Hb).
    specialize (IH st1 Ha).
    destruct IH as (Hlen & Hit & Hth & Hal & Hkw & Hmi & Hw & Hk).
    destruct (body_cases _ _ _ _ _ _ _ Hb) as [[Hctl _] | [stop [Hctl Hreg]]];
      [discriminate|].
    destruct stop; [discriminate|].
    destruct Hreg as (_ & _ & xs & scattered & _ & _ & Hind & _ & Hw' & Hth'
                      & Hal' & Hkw' & Hmi' & Hhist & Hit' & Hstop).
    cbv zeta in Hind, Hth', Hhist, Hstop.
    assert (Hpos : 0 < threshold s).
    { destruct k; [|tauto]. subst st1.
      destruct (Qlt_le_dec 0 (threshold s)) as [Hpos | Hnonpos]; [exact Hpos|].
      exfalso. symmetry in Hstop. apply orb_false_iff in Hstop.
      destruct Hstop as [Hcount _]. apply Nat.eqb_neq in Hcount. apply Hcount.
      simpl. rewrite (abs_ge_nonpositive _ _ Hnonpos), put_mask_length.
      rewrite length_ones. reflexivity. }
    unfold entering_invariant.
    rewrite Hind, abs_ge_length, put_mask_length, Hit', Hit, Hth', Hw', Hal', Hkw', Hmi'.
    repeat split; auto.
    eexists; eexists. split; [exact Hhist|].
    rewrite Hth. apply pattern_zero_outside. exact Hpos.
Qed.

End STLSQ_fit.

Lemma nth_ones_true (n i : nat) : nth i (ones n) true = true.
Proof.
  unfold ones. destruct (Nat.lt_ge_cases i n) as [Hlt | Hge].
  - apply nth_repeat_lt. exact Hlt.
  - apply nth_overflow. rewrite repeat_length. exact Hge.
Qed.

Lemma reduce_run `{Externals} (s : STLSQ.t) (x : matrix) (y : ndarray)
    (s' : STLSQ.t) (w : list warning) :
  STLSQ._reduce s x y = Ok (s', w) <->
  exists how, STLSQ.run s x y = Ok (how, s', w).
Proof.
  unfold STLSQ._reduce.
  destruct (STLSQ.run s x y) as [[[how s1] w1]|e]; simpl.
  - split.
    + intros Hr. injection Hr as <- <-. exists how. reflexivity.
    + intros [how' Hr]. injection Hr as _ <- <-. reflexivity.
  - split; [discriminate|]. intros [how' Hr]. discriminate.
Qed.

(** C9: when the reduction of an STLSQ fit completes, the coefficient
    vector it writes to the model is exactly zero at every index where the
    support mask it writes is false. *)
Theorem STLSQ_coef_zero_outside_support `{Externals} (s : STLSQ.t) (x : matrix)
    (y : ndarray) (s' : STLSQ.t) (w : list warning) (i : nat) :
  STLSQ._reduce (STLSQ.started s x y) x y = Ok (s', w) ->
  nth i (BaseOptimizer.ind_ (STLSQ.base s')) true = false ->
  nth i (BaseOptimizer.coef_ (STLSQ.base s')) 0 = 0.
Proof.
  intros Hred Hi. apply reduce_run in Hred. destruct Hred as [how Hrun].
  destruct (run_cases _ _ _ _ _ _ Hrun) as (st & Hfor & Hwb).
  apply write_back_ind in Hwb. destruct Hwb as (Hind & Hcoef & _).
  destruct (for_range_zero_outside_support _ _ _ _ _ _ _ _ Hfor)
    as [[Hz Hsome] | [-> ->]].
  - assert (Hsame : STLSQ.coef (match how with
                                | STLSQ.ExhaustedUnconverged => STLSQ.or_else st
                                | _ => st
                                end) = STLSQ.coef st /\
                    STLSQ.ind (match how with
                               | STLSQ.ExhaustedUnconverged => STLSQ.or_else st
                               | _ => st
                               end) = STLSQ.ind st).
    { destruct how; auto. unfold STLSQ.or_else.
      destruct (STLSQ.coef st); [auto|contradiction]. }
    destruct Hsame as [Hc Hm]. rewrite Hc in Hcoef. rewrite Hm in Hind.
    apply Hz; [symmetry; exact Hcoef|]. rewrite <- Hind. exact Hi.
  - rewrite or_else_ind in Hind. simpl in Hind.
    rewrite Hind, nth_ones_true in Hi. discriminate.
Qed.

Lemma degenerate_stop `{Externals} (s : STLSQ.t) (x : matrix) (y : ndarray)
    (k : nat) (st : STLSQ.loop_state) :
  STLSQ.entering s x y k = Some st ->
  count_true (STLSQ.ind st) = 0%nat ->
  (Z.of_nat k < STLSQ.max_iter s)%Z ->
  exists s',
    STLSQ.run (STLSQ.started s x y) x y
    = Ok (STLSQ.Degenerate, s', [SparsityTooBig (STLSQ.threshold s)]) /\
    BaseOptimizer.coef_ (STLSQ.base s') = zeros (shape1 x) /\
    BaseOptimizer.ind_ (STLSQ.base s') = repeat false (shape1 x) /\
    BaseOptimizer.iters (STLSQ.base s') = k.
Proof.
  intros Hent Hcount Hk.
  pose proof (entering_holds _ _ _ _ _ Hent) as Hinv.
  destruct Hinv as (Hlen & Hit & Hth & _ & _ & _ & Hw & _).
  unfold STLSQ.run. cbv zeta.
  change (STLSQ.max_iter (STLSQ.started s x y)) with (STLSQ.max_iter s).
  replace (Z.to_nat (STLSQ.max_iter s))
    with (k + S (Z.to_nat (STLSQ.max_iter s) - S k))%nat by lia.
  unfold STLSQ.entering in Hent.
  rewrite (for_range_after _ _ _ _ _ _ _ _ Hent).
  simpl. unfold STLSQ.body.
  rewrite Hcount. simpl.
  eexists. split; [rewrite Hw, Hth; reflexivity|].
  simpl. unfold zeros_like. rewrite Hlen.
  repeat split; auto.
  rewrite <- Hlen. apply count_zero_false. exact Hcount.
Qed.

(** C2, as amended: within an STLSQ fit with a least-squares guess of one
    entry per feature, a pass that regresses and thresholds ends the loop
    as Converged exactly when the support size equals the support size
    entering that pass, or the zero/nonzero pattern of the newest History
    entry equals that of the entry before it; in the first pass the entry
    before it is the initial least-squares guess appended by [fit]. *)
Theorem STLSQ_converged_iff `{Externals} (s : STLSQ.t) (x : matrix) (y : ndarray)
    (k : nat) (st : STLSQ.loop_state) (ctl : STLSQ.control) (st' : STLSQ.loop_state) :
  length (lstsq x y) = shape1 x ->
  STLSQ.entering s x y k = Some st ->
  count_true (STLSQ.ind st) <> 0%nat ->
  STLSQ.pass s x y st = Ok (ctl, st') ->
  exists older prev newest,
    BaseOptimizer.history_ (STLSQ.base (STLSQ.self st')) = older ++ [prev; newest] /\
    (k = 0%nat -> prev = lstsq x y) /\
    (ctl = STLSQ.Break STLSQ.Converged <->
     count_true (STLSQ.ind st') = count_true (STLSQ.ind st) \/
     pattern newest = pattern prev).
Proof.
  intros Hguess Hent Hcount Hpass.
  pose proof (entering_holds _ _ _ _ _ Hent) as Hinv.
  destruct Hinv as (Hlen & _ & Hth & _ & _ & _ & _ & Hk).
  unfold STLSQ.pass in Hpass.
  destruct (body_cases _ _ _ _ _ _ _ Hpass) as [[_ [Hzero _]] | [stop [Hctl Hreg]]];
    [contradiction|].
  destruct Hreg as (_ & _ & xs & scattered & _ & _ & Hind & _ & _ & _
                    & _ & _ & _ & Hhist & _ & Hstop).
  cbv zeta in Hind, Hhist, Hstop.
  set (raw := put_mask (STLSQ.ind st) scattered) in *.
  set (big := abs_ge raw (STLSQ.threshold (STLSQ.self st))) in *.
  set (c := zero_outside big raw) in *.
  assert (Hclen : length c = shape1 x).
  { unfold c, raw. rewrite zero_outside_length, put_mask_length. exact Hlen. }
  assert (Hconv : ctl = STLSQ.Break STLSQ.Converged <-> stop = true).
  { rewrite Hctl. destruct stop; split; auto; discriminate. }
  simpl in Hstop. rewrite count_true_ones in Hstop.
  destruct k as [|k].
  - subst st. simpl in Hhist, Hstop, Hind |- *.
    unfold STLSQ.preceding in Hstop. rewrite last1_app in Hstop.
    exists (BaseOptimizer.history_ (STLSQ.base s)), (lstsq x y), c.
    split; [rewrite Hhist, <- app_assoc; reflexivity|].
    split; [reflexivity|].
    rewrite Hconv, Hstop, orb_true_iff, Nat.eqb_eq, count_true_ones, Hind.
    rewrite same_pattern_iff by congruence. reflexivity.
  - destruct Hk as (Hpos & older & h & Hold & Hpat).
    rewrite Hold in Hhist, Hstop.
    unfold STLSQ.preceding in Hstop. rewrite last1_app in Hstop.
    exists older, h, c.
    split; [rewrite Hhist, <- app_assoc; reflexivity|].
    split; [discriminate|].
    assert (Hhlen : length c = length h).
    { rewrite Hclen, <- Hlen, <- Hpat. unfold pattern. rewrite length_map. reflexivity. }
    assert (Hsub : subset big (STLSQ.ind st)).
    { unfold big, raw. apply abs_ge_put_mask_subset. rewrite Hth. exact Hpos. }
    assert (Hpc : pattern c = big).
    { unfold c, big. apply pattern_zero_outside. rewrite Hth. exact Hpos. }
    rewrite Hconv, Hstop, orb_true_iff, Nat.eqb_eq, Hind.
    rewrite (same_pattern_iff _ _ Hhlen).
    split.
    + intros [Hfull | Hsame]; [left|right; exact Hsame].
      pose proof (subset_count _ _ Hsub) as Hle.
      pose proof (count_true_le_length (STLSQ.ind st)) as Hle'.
      lia.
    + intros [Heq | Hsame]; [right|right; exact Hsame].
      rewrite Hpc, Hpat. apply subset_same_count; assumption.
Qed.

(** On the identity design with target [1, 2, 1/20] and the default
    threshold, the third feature is dropped in the first pass and stays
    dropped in the second. *)
Lemma STLSQ_support_never_grows_witness :
  (count_true [true; true; false] <= count_true [true; true; true])%nat /\
  (forall k, nth k [true; true; true] false = false ->
             nth k [true; true; false] false = false).
Proof.
  apply (proj1 (@STLSQ_support_never_grows Exact.backend
                  (Example.stlsq STLSQ.default_threshold) Example.I3 Example.y_small)
           0%nat 2%nat).
  - lia.
  - reflexivity.
  - reflexivity.
Defined.

Lemma STLSQ_coef_zero_outside_support_witness :
  nth 2 [1; 2; 0] 0 = 0.
Proof.
  apply (@STLSQ_coef_zero_outside_support Exact.backend
           (Example.stlsq STLSQ.default_threshold) Example.I3 Example.y_small
           (STLSQ.with_base (Example.stlsq STLSQ.default_threshold)
              {| BaseOptimizer.fit_intercept := false;
                 BaseOptimizer.normalize := false;
                 BaseOptimizer.copy_X := true;
                 BaseOptimizer.iters := 2;
                 BaseOptimizer.coef_ := [1; 2; 0];
                 BaseOptimizer.ind_ := [true; true; false];
                 BaseOptimizer.history_ := [[1; 2; 1 # 20]; [1; 2; 0]; [1; 2; 0]];
                 BaseOptimizer.intercept_ := None |})
           [] 2%nat).
  - reflexivity.
  - reflexivity.
Defined.

(** With threshold 10 on the identity design and target [1, 2, 3], the
    first pass leaves the all-zero vector: its pattern equals that of an
    all-zero baseline, yet the pass does not end the loop, because it is
    compared with the initial guess [1, 2, 3]. *)
Lemma STLSQ_zero_baseline_counterexample :
  exists st',
    STLSQ.pass (Example.stlsq 10) Example.I3 Example.y123
      (STLSQ.enter (STLSQ.started (Example.stlsq 10) Example.I3 Example.y123))
    = Ok (STLSQ.Continue, st') /\
    STLSQ.stopping_test_as_specified true
      (STLSQ.ind (STLSQ.enter (STLSQ.started (Example.stlsq 10) Example.I3 Example.y123)))
      st' = true.
Proof.
  eexists. split.
  - reflexivity.
  - reflexivity.
Qed.

(** The second pass of the fit on target [1, 2, 1/20]: the support size
    stays 2 and the loop ends as Converged. *)
Lemma STLSQ_converged_iff_witness :
  exists older prev newest,
    [[1; 2; 1 # 20]; [1; 2; 0]; [1; 2; 0]] = older ++ [prev; newest] /\
    (STLSQ.Break STLSQ.Converged = STLSQ.Break STLSQ.Converged <->
     count_true [true; true; false] = count_true [true; true; false] \/
     pattern newest = pattern prev).
Proof.
  destruct (@STLSQ_converged_iff Exact.backend
              (Example.stlsq STLSQ.default_threshold) Example.I3 Example.y_small 1%nat
              (Example.stlsq_state STLSQ.default_threshold 1
                 [[1; 2; 1 # 20]; [1; 2; 0]] [1; 2; 0] [true; true; false])
              (STLSQ.Break STLSQ.Converged)
              (Example.stlsq_state STLSQ.default_threshold 2
                 [[1; 2; 1 # 20]; [1; 2; 0]; [1; 2; 0]] [1; 2; 0] [true; true; false])
              eq_refl eq_refl ltac:(discriminate) eq_refl)
    as (older & prev & newest & Hhist & _ & Hiff).
  exists older, prev, newest. split; [exact Hhist|exact Hiff].
Defined.

(** ** STLSQ with a zero threshold *)

Section STLSQ_zero_threshold.
Context `{Externals}.
Variables (s : STLSQ.t) (x : matrix) (y : ndarray).

Local Abbreviation solution :=
  (ridge_regression x y (STLSQ.alpha s) (or_empty (STLSQ.ridge_kw s))).

Hypothesis threshold_zero : STLSQ.threshold s == 0.
Hypothesis max_iter_positive : (0 < STLSQ.max_iter s)%Z.
Hypothesis x_rectangular : rectangular x = true.
Hypothesis solution_length : length solution = shape1 x.

Lemma zero_threshold_reduce :
  exists s' w,
    STLSQ._reduce (STLSQ.started s x y) x y = Ok (s', w) /\
    BaseOptimizer.ind_ (STLSQ.base s') = ones (shape1 x) /\
    BaseOptimizer.coef_ (STLSQ.base s') = solution /\
    BaseOptimizer.fit_intercept (STLSQ.base s')
    = BaseOptimizer.fit_intercept (STLSQ.base s).
Proof.
  unfold STLSQ._reduce, STLSQ.run. cbv zeta.
  change (STLSQ.max_iter (STLSQ.started s x y)) with (STLSQ.max_iter s).
  destruct (Z.to_nat (STLSQ.max_iter s)) as [|m] eqn:Hm; [lia|].
  cbn [STLSQ.for_range]. unfold STLSQ.body.
  change (STLSQ.ind (STLSQ.enter (STLSQ.started s x y))) with (ones (shape1 x)).
  rewrite count_true_ones.
  destruct (shape1 x =? 0)%nat eqn:Hn.
  - apply Nat.eqb_eq in Hn. cbn.
    eexists; eexists. split; [reflexivity|]. cbn.
    rewrite Hn in *. repeat split; auto.
    destruct solution; [reflexivity|discriminate].
  - rewrite (select_columns_ones _ x_rectangular). cbn [bind].
    unfold STLSQ._regress, STLSQ._sparse_coefficients. cbn [bind].
    change (ridge_regression x y (STLSQ.alpha (STLSQ.self (STLSQ.enter (STLSQ.started s x y))))
              (or_empty (STLSQ.ridge_kw (STLSQ.self (STLSQ.enter (STLSQ.started s x y))))))
      with solution.
    unfold setitem_mask. rewrite length_ones, Nat.eqb_refl. cbn [negb].
    rewrite count_true_ones, solution_length, Nat.eqb_refl. cbn [bind].
    replace (put_mask (ones (shape1 x)) solution) with solution
      by (rewrite <- solution_length; symmetry; apply put_mask_ones).
    change (STLSQ.threshold (STLSQ.with_base _ _)) with (STLSQ.threshold s).
    rewrite abs_ge_nonpositive by (rewrite threshold_zero; apply Qle_refl).
    rewrite zero_outside_ones, count_true_ones, solution_length, Nat.eqb_refl.
    cbn.
    eexists; eexists. split; [reflexivity|]. cbn. auto.
Qed.

End STLSQ_zero_threshold.

(** C7: an STLSQ fit with threshold 0 (and a well-formed design matrix, a
    positive iteration budget and a solver that returns one coefficient
    per column) eliminates no feature, and its coefficient vector is the
    solution of the regression with penalty [alpha] on the full feature
    set: the unpenalised regression when [alpha] is 0, the ridge one
    otherwise.  The reduction step leaves exactly that on the model, and
    [fit] returns it as passed through the intercept restoration. *)
Theorem STLSQ_zero_threshold_full_regression `{Externals} (s : STLSQ.t)
    (x : matrix) (y : ndarray) :
  STLSQ.threshold s == 0 ->
  (0 < STLSQ.max_iter s)%Z ->
  rectangular x = true ->
  length (ridge_regression x y (STLSQ.alpha s) (or_empty (STLSQ.ridge_kw s)))
  = shape1 x ->
  (exists s' w,
      STLSQ._reduce (STLSQ.started s x y) x y = Ok (s', w) /\
      BaseOptimizer.ind_ (STLSQ.base s') = ones (shape1 x) /\
      BaseOptimizer.coef_ (STLSQ.base s')
      = ridge_regression x y (STLSQ.alpha s) (or_empty (STLSQ.ridge_kw s))) /\
  (forall x_ y_ sample_weight X_offset y_offset X_scale,
      BaseOptimizer.prepare (STLSQ.base s) x_ y_ sample_weight
      = Ok (x, y, X_offset, y_offset, X_scale) ->
      exists s' w,
        STLSQ.fit s x_ y_ sample_weight = Ok (s', w) /\
        BaseOptimizer.ind_ (STLSQ.base s') = ones (shape1 x) /\
        BaseOptimizer.coef_ (STLSQ.base s')
        = fst (_set_intercept (BaseOptimizer.fit_intercept (STLSQ.base s))
                 (ridge_regression x y (STLSQ.alpha s) (or_empty (STLSQ.ridge_kw s)))
                 X_offset y_offset X_scale)).
Proof.
  intros Hth Hmax Hrect Hlen.
  destruct (zero_threshold_reduce s x y Hth Hmax Hrect Hlen)
    as (s' & w & Hred & Hind & Hcoef & Hfi).
  split.
  - exists s', w. auto.
  - intros x_ y_ sample_weight X_offset y_offset X_scale Hprep.
    unfold STLSQ.fit, BaseOptimizer.fit. rewrite Hprep. cbn [bind].
    change (STLSQ.with_base s (BaseOptimizer.start (STLSQ.base s) x y))
      with (STLSQ.started s x y).
    rewrite Hred. cbn [bind].
    eexists; eexists. split; [reflexivity|].
    unfold BaseOptimizer.finish. rewrite Hcoef, Hfi.
    destruct (_set_intercept _ _ _ _ _) as [c i]. cbn. rewrite Hind. auto.
Qed.

(** The identity design with target [1, 2, 3] and [STLSQ(threshold=0)]. *)
Lemma STLSQ_zero_threshold_full_regression_witness :
  exists s' w,
    STLSQ.fit (Example.stlsq 0) Example.I3 Example.y123 None = Ok (s', w) /\
    BaseOptimizer.ind_ (STLSQ.base s') = [true; true; true] /\
    BaseOptimizer.coef_ (STLSQ.base s') = [1; 2; 3].
Proof.
  destruct (proj2 (@STLSQ_zero_threshold_full_regression Exact.backend
                     (Example.stlsq 0) Example.I3 Example.y123
                     ltac:(reflexivity) ltac:(reflexivity) ltac:(reflexivity)
                     ltac:(reflexivity))
              Example.I3 Example.y123 None [0; 0; 0] 0 [1; 1; 1] ltac:(reflexivity))
    as (s' & w & Hfit & Hind & Hcoef).
  exists s', w. split; [exact Hfit|]. split; [exact Hind|exact Hcoef].
Defined.

(** ** The degenerate case *)

Section STLSQ_frame.
Context `{Externals}.
Variables (x : matrix) (y : ndarray).
Variables (n_features n_features_selected : nat).

Lemma body_fit_intercept (st : STLSQ.loop_state) (ctl : STLSQ.control)
    (st' : STLSQ.loop_state) :
  STLSQ.body x y n_features n_features_selected st = Ok (ctl, st') ->
  BaseOptimizer.fit_intercept (STLSQ.base (STLSQ.self st'))
  = BaseOptimizer.fit_intercept (STLSQ.base (STLSQ.self st)).
Proof.
  unfold STLSQ.body.
  destruct (count_true (STLSQ.ind st) =? 0)%nat.
  - intros Hb. injection Hb as _ <-. reflexivity.
  - destruct (select_columns x (STLSQ.ind st)) as [xs|e]; [|discriminate].
    cbn [bind]. unfold STLSQ._regress, STLSQ._sparse_coefficients.
    destruct (setitem_mask _ _ _) as [c|e]; [|discriminate].
    cbn [bind]. rewrite no_change_after_append.
    destruct (count_true _ =? n_features_selected)%nat; cbn [bind];
      intros Hb; injection Hb as _ <-; reflexivity.
Qed.

Lemma for_range_fit_intercept (n : nat) (st : STLSQ.loop_state) (how : STLSQ.exit)
    (st' : STLSQ.loop_state) :
  STLSQ.for_range x y n_features n_features_selected n st = Ok (how, st') ->
  BaseOptimizer.fit_intercept (STLSQ.base (STLSQ.self st'))
  = BaseOptimizer.fit_intercept (STLSQ.base (STLSQ.self st)).
Proof.
  revert st. induction n as [|n IH]; intros st; simpl.
  - intros Hf. injection Hf as _ <-. reflexivity.
  - destruct (STLSQ.body x y n_features n_features_selected st)
      as [[ctl st1]|e] eqn:Hb; simpl; [|discriminate].
    apply body_fit_intercept in Hb.
    destruct ctl as [|how1].
    + intros Hf. rewrite (IH _ Hf). exact Hb.
    + intros Hf. injection Hf as _ <-. exact Hb.
Qed.
End STLSQ_frame.

Lemma run_fit_intercept `{Externals} (s : STLSQ.t) (x : matrix) (y : ndarray)
    (how : STLSQ.exit) (s' : STLSQ.t) (w : list warning) :
  STLSQ.run s x y = Ok (how, s', w) ->
  BaseOptimizer.fit_intercept (STLSQ.base s')
  = BaseOptimizer.fit_intercept (STLSQ.base s).
Proof.
  intros Hrun. destruct (run_cases _ _ _ _ _ _ Hrun) as (st & Hfor & Hwb).
  apply for_range_fit_intercept in Hfor. simpl in Hfor. rewrite <- Hfor.
  revert Hwb. unfold STLSQ.write_back.
  destruct how; unfold STLSQ.or_else; destruct (STLSQ.coef st); simpl;
    intros Hwb; try discriminate; injection Hwb as <- _; reflexivity.
Qed.

Lemma degenerate_identity `{Externals} (X_offset : ndarray) (y_offset : Q)
    (X_scale : ndarray) (intercept : Q) :
  let s := STLSQ.with_threshold 10 in
  BaseOptimizer.prepare (STLSQ.base s) Example.I3 Example.y123 None
  = Ok (Example.I3, Example.y123, X_offset, y_offset, X_scale) ->
  lstsq Example.I3 Example.y123 = [1; 2; 3] ->
  ridge_regression Example.I3 Example.y123 0 empty_kw = [1; 2; 3] ->
  _set_intercept false [0; 0; 0] X_offset y_offset X_scale = ([0; 0; 0], intercept) ->
  exists s',
    STLSQ.fit s Example.I3 Example.y123 None = Ok (s', [SparsityTooBig 10]) /\
    BaseOptimizer.coef_ (STLSQ.base s') = [0; 0; 0] /\
    BaseOptimizer.ind_ (STLSQ.base s') = [false; false; false].
Proof.
  intros s Hprep Hlstsq Hridge Hset.
  assert (Hent : exists st,
             STLSQ.entering s Example.I3 Example.y123 1 = Some st /\
             count_true (STLSQ.ind st) = 0%nat).
  { unfold STLSQ.entering, STLSQ.started, BaseOptimizer.start.
    rewrite Hlstsq. cbn [STLSQ.after]. unfold STLSQ.body.
    cbn -[ridge_regression].
    set (r := ridge_regression _ _ _ _).
    assert (Hr : r = [1; 2; 3]) by exact Hridge.
    clearbody r. subst r.
    cbn. eexists. split; reflexivity. }
  destruct Hent as (st & Hent & Hcount).
  destruct (degenerate_stop s Example.I3 Example.y123 1 st Hent Hcount
              ltac:(reflexivity)) as (s' & Hrun & Hcoef & Hind & Hit).
  pose proof (run_fit_intercept _ _ _ _ _ _ Hrun) as Hfi.
  unfold STLSQ.fit, BaseOptimizer.fit. rewrite Hprep. cbn [bind].
  change (STLSQ.with_base s (BaseOptimizer.start (STLSQ.base s) Example.I3 Example.y123))
    with (STLSQ.started s Example.I3 Example.y123).
  unfold STLSQ._reduce. rewrite Hrun. cbn [bind].
  unfold BaseOptimizer.finish. rewrite Hcoef, Hfi.
  change (zeros (shape1 Example.I3)) with [0; 0; 0].
  change (BaseOptimizer.fit_intercept (STLSQ.base (STLSQ.started s Example.I3 Example.y123)))
    with false.
  rewrite Hset.
  eexists. split; [reflexivity|]. cbn. rewrite Hind. auto.
Qed.

(** C6: in an STLSQ fit, when a pass of the loop begins with an empty
    support, the fit emits the degenerate-support warning, sets the
    coefficient vector to [n_features] zeros and leaves the loop at once,
    the count of regressions unchanged.  In particular
    [STLSQ(threshold=10)] fitted on the 3 by 3 identity and [1, 2, 3],
    where the solvers return [1, 2, 3], returns coefficients [0, 0, 0]
    with an all-false support and that warning. *)
Theorem STLSQ_degenerate_support `{Externals} :
  (forall (s : STLSQ.t) (x : matrix) (y : ndarray) (k : nat) (st : STLSQ.loop_state),
      STLSQ.entering s x y k = Some st ->
      count_true (STLSQ.ind st) = 0%nat ->
      (Z.of_nat k < STLSQ.max_iter s)%Z ->
      exists s',
        STLSQ.run (STLSQ.started s x y) x y
        = Ok (STLSQ.Degenerate, s', [SparsityTooBig (STLSQ.threshold s)]) /\
        BaseOptimizer.coef_ (STLSQ.base s') = zeros (shape1 x) /\
        BaseOptimizer.ind_ (STLSQ.base s') = repeat false (shape1 x) /\
        BaseOptimizer.iters (STLSQ.base s') = k) /\
  STLSQ.__init__ 10 STLSQ.default_alpha STLSQ.default_max_iter
    STLSQ.default_ridge_kw false false true
  = Ok (STLSQ.with_threshold 10) /\
  (forall (X_offset : ndarray) (y_offset : Q) (X_scale : ndarray) (intercept : Q),
      BaseOptimizer.prepare (STLSQ.base (STLSQ.with_threshold 10))
        Example.I3 Example.y123 None
      = Ok (Example.I3, Example.y123, X_offset, y_offset, X_scale) ->
      lstsq Example.I3 Example.y123 = [1; 2; 3] ->
      ridge_regression Example.I3 Example.y123 0 empty_kw = [1; 2; 3] ->
      _set_intercept false [0; 0; 0] X_offset y_offset X_scale
      = ([0; 0; 0], intercept) ->
      exists s',
        STLSQ.fit (STLSQ.with_threshold 10) Example.I3 Example.y123 None
        = Ok (s', [SparsityTooBig 10]) /\
        BaseOptimizer.coef_ (STLSQ.base s') = [0; 0; 0] /\
        BaseOptimizer.ind_ (STLSQ.base s') = [false; false; false]).
Proof.
  split; [|split].
  - intros s x y k st. apply degenerate_stop.
  - reflexivity.
  - intros X_offset y_offset X_scale intercept. apply degenerate_identity.
Qed.

(** On the exact backend: the second pass of the fit with threshold 10
    begins with an empty support, and the whole fit returns zeros. *)
Lemma STLSQ_degenerate_support_witness :
  (exists s',
      STLSQ.run (STLSQ.started (Example.stlsq 10) Example.I3 Example.y123)
        Example.I3 Example.y123
      = Ok (STLSQ.Degenerate, s', [SparsityTooBig 10]) /\
      BaseOptimizer.coef_ (STLSQ.base s') = [0; 0; 0] /\
      BaseOptimizer.ind_ (STLSQ.base s') = [false; false; false] /\
      BaseOptimizer.iters (STLSQ.base s') = 1%nat) /\
  (exists s',
      STLSQ.fit (Example.stlsq 10) Example.I3 Example.y123 None
      = Ok (s', [SparsityTooBig 10]) /\
      BaseOptimizer.coef_ (STLSQ.base s') = [0; 0; 0] /\
      BaseOptimizer.ind_ (STLSQ.base s') = [false; false; false]).
Proof.
  destruct (@STLSQ_degenerate_support Exact.backend) as (Hgeneral & _ & Hidentity).
  split.
  - apply (Hgeneral (Example.stlsq 10) Example.I3 Example.y123 1%nat
             {| STLSQ.self :=
                  STLSQ.with_base (Example.stlsq 10)
                    {| BaseOptimizer.fit_intercept := false;
                       BaseOptimizer.normalize := false;
                       BaseOptimizer.copy_X := true;
                       BaseOptimizer.iters := 1;
                       BaseOptimizer.coef_ := [1; 2; 3];
                       BaseOptimizer.ind_ := [true; true; true];
                       BaseOptimizer.history_ := [[1; 2; 3]; [0; 0; 0]];
                       BaseOptimizer.intercept_ := None |};
                STLSQ.coef := Some [0; 0; 0];
                STLSQ.ind := [false; false; false];
                STLSQ.warned := [] |}).
    + reflexivity.
    + reflexivity.
    + reflexivity.
  - apply (Hidentity [0; 0; 0] 0 [1; 1; 1] 0); reflexivity.
Defined.

(** With a budget of a single pass the same fit never reaches a second
    pass: it returns the same zeros and all-false mask, but with the
    non-convergence warning instead of the degenerate-support one. *)
Lemma STLSQ_single_pass_budget :
  STLSQ.fit
    {| STLSQ.base := BaseOptimizer.default;
       STLSQ.threshold := 10;
       STLSQ.alpha := STLSQ.default_alpha;
       STLSQ.max_iter := 1;
       STLSQ.ridge_kw := @STLSQ.default_ridge_kw Exact.backend |}
    Example.I3 Example.y123 None
  = Ok ({| STLSQ.base :=
             Example.fitted (Some 0) 1 [[1; 2; 3]; [0; 0; 0]]
               [0; 0; 0] [false; false; false];
           STLSQ.threshold := 10;
           STLSQ.alpha := STLSQ.default_alpha;
           STLSQ.max_iter := 1;
           STLSQ.ridge_kw := None |},
        [STLSQNotConverged 1]).
Proof. reflexivity. Qed.

(** ** The complexity metric *)

(** C3, as amended: on a fitted model with coefficient vector
    [0, 2.0, 0, -0.05] and threshold 0.1 the complexity metric is 2, the
    number of nonzero coefficient entries (2.0 and -0.05, the latter being
    below the threshold in magnitude), plus 1 if the absolute intercept is
    at least the threshold and plus 0 otherwise. *)
Theorem complexity_counts_nonzero_entries (b : BaseOptimizer.t) (intercept : Q) :
  BaseOptimizer.coef_ b = [0; 2; 0; - (5 # 100)] ->
  BaseOptimizer.intercept_ b = Some intercept ->
  BaseOptimizer.complexity b (Some (1 # 10))
  = Ok (2 + (if Qle_bool (1 # 10) (Qabs intercept) then 1 else 0))%nat.
Proof.
  intros Hcoef Hint. unfold BaseOptimizer.complexity.
  rewrite Hcoef, Hint. cbn [of_option bind].
  destruct (Qle_bool (1 # 10) (Qabs intercept)); reflexivity.
Qed.

Lemma complexity_counts_nonzero_entries_witness :
  BaseOptimizer.complexity
    {| BaseOptimizer.fit_intercept := false;
       BaseOptimizer.normalize := false;
       BaseOptimizer.copy_X := true;
       BaseOptimizer.iters := 1;
       BaseOptimizer.coef_ := [0; 2; 0; - (5 # 100)];
       BaseOptimizer.ind_ := [true; true; true; true];
       BaseOptimizer.history_ := [];
       BaseOptimizer.intercept_ := Some 0 |}
    (Some (1 # 10))
  = Ok 2%nat.
Proof.
  apply (complexity_counts_nonzero_entries _ 0); reflexivity.
Defined.

(** With intercept 0 the metric is 2, not the 1 + 0 of the claim. *)
Lemma complexity_counterexample :
  BaseOptimizer.complexity
    {| BaseOptimizer.fit_intercept := false;
       BaseOptimizer.normalize := false;
       BaseOptimizer.copy_X := true;
       BaseOptimizer.iters := 1;
       BaseOptimizer.coef_ := [0; 2; 0; - (5 # 100)];
       BaseOptimizer.ind_ := [true; true; true; true];
       BaseOptimizer.history_ := [];
       BaseOptimizer.intercept_ := Some 0 |}
    (Some (1 # 10))
  <> Ok (1 + (if Qle_bool (1 # 10) (Qabs 0) then 1 else 0))%nat.
Proof. vm_compute. discriminate. Qed.

(** ** The start of a fit *)

Lemma start_fields `{Externals} (b : BaseOptimizer.t) (x : matrix) (y : ndarray) :
  BaseOptimizer.iters (BaseOptimizer.start b x y) = 0%nat /\
  BaseOptimizer.ind_ (BaseOptimizer.start b x y) = ones (shape1 x) /\
  BaseOptimizer.coef_ (BaseOptimizer.start b x y) = lstsq x y /\
  BaseOptimizer.history_ (BaseOptimizer.start b x y)
  = BaseOptimizer.history_ b ++ [lstsq x y].
Proof. repeat split. Qed.

(** C4 at a reused instance: [STLSQ(threshold=10)] is fitted on the
    identity design and [1, 2, 3]; when it is fitted again, the counter,
    the mask and the coefficients are reset, but the History still holds
    the two snapshots of the first fit, before the new initial guess. *)
Theorem refit_keeps_previous_history :
  exists s1 w1,
    STLSQ.fit (Example.stlsq 10) Example.I3 Example.y123 None = Ok (s1, w1) /\
    BaseOptimizer.history_ (STLSQ.base s1) = [[1; 2; 3]; [0; 0; 0]] /\
    let b :=
      @BaseOptimizer.start Exact.backend (STLSQ.base s1) Example.I3 Example.y123 in
    BaseOptimizer.iters b = 0%nat /\
    BaseOptimizer.ind_ b = [true; true; true] /\
    BaseOptimizer.coef_ b = [1; 2; 3] /\
    BaseOptimizer.history_ b = [[1; 2; 3]; [0; 0; 0]; [1; 2; 3]] /\
    exists s2 w2,
      STLSQ.fit s1 Example.I3 Example.y123 None = Ok (s2, w2) /\
      BaseOptimizer.history_ (STLSQ.base s2)
      = [[1; 2; 3]; [0; 0; 0]; [1; 2; 3]; [0; 0; 0]].
Proof.
  exists (STLSQ.with_base (Example.stlsq 10)
            (Example.fitted (Some 0) 1 [[1; 2; 3]; [0; 0; 0]]
               [0; 0; 0] [false; false; false])),
    [SparsityTooBig 10].
  split; [reflexivity|].
  split; [reflexivity|]. cbv zeta.
  repeat (split; [reflexivity|]).
  exists (STLSQ.with_base (Example.stlsq 10)
            (Example.fitted (Some 0) 1 [[1; 2; 3]; [0; 0; 0]; [1; 2; 3]; [0; 0; 0]]
               [0; 0; 0] [false; false; false])),
    [SparsityTooBig 10].
  split; reflexivity.
Qed.

(** ** SR3 *)

Section SR3_loop.
Context `{Externals}.
Variables (cho : Cho) (x_transpose_y : ndarray).

Lemma SR3_body_prox (st : SR3.loop_state) (ctl : SR3.control)
    (st' : SR3.loop_state) :
  SR3.body cho x_transpose_y st = Ok (ctl, st') ->
  SR3.prox (SR3.self st') = SR3.prox (SR3.self st) /\
  SR3.threshold (SR3.self st') = SR3.threshold (SR3.self st) /\
  SR3.coef_full st' <> None /\
  SR3.sparse_is_prox (SR3.prox (SR3.self st)) (SR3.threshold (SR3.self st)) st'.
Proof.
  unfold SR3.body, SR3._update_full_coef.
  destruct (broadcast Qplus _ _) as [b|e]; [|discriminate].
  cbn [bind]. unfold SR3._update_sparse_coef.
  destruct (SR3._convergence_criterion _) as [crit|e]; [|discriminate].
  cbn [bind]. intros Hb. injection Hb as _ <-. cbn.
  repeat split; auto; try discriminate.
  intros coef_full Hcf. cbn in Hcf. injection Hcf as <-. reflexivity.
Qed.

Lemma SR3_for_range_prox (n : nat) (st : SR3.loop_state) (how : SR3.exit)
    (st' : SR3.loop_state) :
  SR3.for_range cho x_transpose_y n st = Ok (how, st') ->
  SR3.coef_full st = None ->
  SR3.prox (SR3.self st') = SR3.prox (SR3.self st) /\
  SR3.threshold (SR3.self st') = SR3.threshold (SR3.self st) /\
  SR3.sparse_is_prox (SR3.prox (SR3.self st)) (SR3.threshold (SR3.self st)) st'.
Proof.
  assert (Hgen : forall n st how st',
             SR3.for_range cho x_transpose_y n st = Ok (how, st') ->
             forall p th,
               SR3.prox (SR3.self st) = p ->
               SR3.threshold (SR3.self st) = th ->
               SR3.sparse_is_prox p th st ->
               SR3.prox (SR3.self st') = p /\
               SR3.threshold (SR3.self st') = th /\
               SR3.sparse_is_prox p th st').
  { clear n st how st'.
    induction n as [|n IH]; intros st how st'; simpl.
    - intros Hf. injection Hf as _ <-. auto.
    - destruct (SR3.body cho x_transpose_y st) as [[ctl st1]|e] eqn:Hb;
        simpl; [|discriminate].
      destruct (SR3_body_prox _ _ _ Hb) as (Hp & Hth & _ & Hs).
      intros Hf p th <- <- _.
      destruct ctl.
      + apply (IH _ _ _ Hf); auto.
      + injection Hf as _ <-. auto. }
  intros Hf Hnone. apply (Hgen _ _ _ _ Hf); auto.
  intros coef_full Hcf. rewrite Hnone in Hcf. discriminate.
Qed.

End SR3_loop.

(** C5: when the loop of an SR3 reduction is left, by convergence or by
    exhausting the iteration budget, the coefficient vector kept on the
    model is the proximal operator of the instance applied to the kept
    unthresholded vector at the configured threshold; and the proximal
    operator of an instance is the one [get_prox] selects for its
    thresholder. *)
Theorem SR3_sparse_is_prox_of_full `{Externals} :
  (forall threshold nu tol thresholder max_iter normalize fit_intercept copy_X s,
      SR3.__init__ threshold nu tol thresholder max_iter normalize fit_intercept copy_X
      = Ok s ->
      get_prox thresholder = Ok (SR3.prox s) /\ SR3.threshold s = threshold) /\
  (forall s x y how s' w,
      SR3.run s x y = Ok (how, s', w) ->
      exists coef_full,
        SR3.coef_full_ s' = Some coef_full /\
        BaseOptimizer.coef_ (SR3.base s') = SR3.prox s coef_full (SR3.threshold s) /\
        SR3.prox s' = SR3.prox s /\
        SR3.threshold s' = SR3.threshold s).
Proof.
  split.
  - intros threshold nu tol thresholder max_iter normalize fit_intercept copy_X s.
    unfold SR3.__init__.
    destruct (ltb threshold 0); [discriminate|].
    destruct (leb nu 0); [discriminate|].
    destruct (leb tol 0); [discriminate|].
    destruct (max_iter <=? 0)%Z; [discriminate|].
    destruct (get_prox thresholder) as [p|e]; [|discriminate].
    cbn. intros Hs. injection Hs as <-. auto.
  - intros s x y how s' w. unfold SR3.run. cbv zeta.
    destruct (SR3.for_range _ _ _ _) as [[how1 st]|e] eqn:Hfor; [|discriminate].
    cbn [bind].
    destruct (SR3_for_range_prox _ _ _ _ _ _ Hfor eq_refl) as (Hp & Hth & Hs).
    unfold SR3.write_back.
    destruct (SR3.coef_full st) as [cf|] eqn:Hcf; [|discriminate].
    cbn. intros Hr. injection Hr as _ <- _. cbn.
    exists cf. repeat split; auto.
Qed.

(** [SR3()] on the identity design and [1, 2, 1/20]: the loop converges in
    two passes, keeping [1, 2, 1/40] and its hard thresholding [1, 2, 0]. *)
Lemma SR3_sparse_is_prox_of_full_witness :
  exists coef_full s',
    SR3.coef_full_ s' = Some coef_full /\
    BaseOptimizer.coef_ (SR3.base s') = Exact.prox_l0 coef_full (1 # 10).
Proof.
  destruct (proj2 (@SR3_sparse_is_prox_of_full Exact.backend)
              (SR3.with_base (Example.sr3 Exact.prox_l0 "l0")
                 (@BaseOptimizer.start Exact.backend BaseOptimizer.default
                    Example.I3 Example.y_small))
              Example.I3 Example.y_small SR3.Converged
              (SR3.with_coef_full_
                 (SR3.with_base (Example.sr3 Exact.prox_l0 "l0")
                    {| BaseOptimizer.fit_intercept := false;
                       BaseOptimizer.normalize := false;
                       BaseOptimizer.copy_X := true;
                       BaseOptimizer.iters := 2;
                       BaseOptimizer.coef_ := [1; 2; 0];
                       BaseOptimizer.ind_ := [true; true; true];
                       BaseOptimizer.history_ := [[1; 2; 1 # 20]; [1; 2; 0]; [1; 2; 0]];
                       BaseOptimizer.intercept_ := None |})
                 [1; 2; 1 # 40])
              [] ltac:(reflexivity))
    as (coef_full & Hfull & Hcoef & _ & _).
  eexists; eexists. split; [exact Hfull|exact Hcoef].
Defined.

(** ** Validation at construction *)

Lemma ltb_lt (a b : Q) : ltb a b = true <-> a < b.
Proof.
  unfold ltb. rewrite negb_true_iff. split.
  - intros Hle. apply Qnot_le_lt. intros Hba.
    apply Qle_bool_iff in Hba. congruence.
  - intros Hlt. destruct (Qle_bool b a) eqn:Hle; [|reflexivity].
    apply Qle_bool_iff in Hle. exfalso. apply (Qlt_not_le _ _ Hlt). exact Hle.
Qed.

Lemma leb_le (a b : Q) : leb a b = true <-> a <= b.
Proof. apply Qle_bool_iff. Qed.

(** C8: construction fails exactly when a hyperparameter is out of range.
    [STLSQ.__init__] raises if and only if [threshold < 0], [alpha < 0] or
    [max_iter <= 0], and otherwise returns the instance.  [SR3.__init__]
    raises a [ValueError] whenever [threshold < 0], [nu <= 0], [tol <= 0]
    or [max_iter <= 0]; for a thresholder that [get_prox] knows it raises
    if and only if one of these holds, and otherwise returns the
    instance. *)
Theorem construction_validates_hyperparameters `{Externals} :
  (forall threshold alpha max_iter ridge_kw normalize fit_intercept copy_X,
      let made :=
        STLSQ.__init__ threshold alpha max_iter ridge_kw normalize fit_intercept copy_X in
      ((threshold < 0 \/ alpha < 0 \/ (max_iter <= 0)%Z) <->
       exists msg, made = Raise (ValueError msg)) /\
      (0 <= threshold -> 0 <= alpha -> (0 < max_iter)%Z ->
       made = Ok {| STLSQ.base := BaseOptimizer.__init__ normalize fit_intercept copy_X;
                    STLSQ.threshold := threshold;
                    STLSQ.alpha := alpha;
                    STLSQ.max_iter := max_iter;
                    STLSQ.ridge_kw := ridge_kw |})) /\
  (forall threshold nu tol thresholder max_iter normalize fit_intercept copy_X,
      let made :=
        SR3.__init__ threshold nu tol thresholder max_iter normalize fit_intercept copy_X in
      ((threshold < 0 \/ nu <= 0 \/ tol <= 0 \/ (max_iter <= 0)%Z) ->
       exists msg, made = Raise (ValueError msg)) /\
      (forall prox,
          get_prox thresholder = Ok prox ->
          ((threshold < 0 \/ nu <= 0 \/ tol <= 0 \/ (max_iter <= 0)%Z) <->
           exists e, made = Raise e) /\
          (0 <= threshold -> 0 < nu -> 0 < tol -> (0 < max_iter)%Z ->
           made = Ok {| SR3.base := BaseOptimizer.__init__ normalize fit_intercept copy_X;
                        SR3.threshold := threshold;
                        SR3.nu := nu;
                        SR3.tol := tol;
                        SR3.thresholder := thresholder;
                        SR3.prox := prox;
                        SR3.max_iter := max_iter;
                        SR3.coef_full_ := None |}))).
Proof.
  split.
  - intros threshold alpha max_iter ridge_kw normalize fit_intercept copy_X made.
    unfold made, STLSQ.__init__.
    destruct (ltb threshold 0) eqn:Hth.
    { apply ltb_lt in Hth. split.
      - split; [eauto|]. auto.
      - intros Hge. exfalso. apply (Qlt_not_le _ _ Hth). exact Hge. }
    destruct (ltb alpha 0) eqn:Hal.
    { apply ltb_lt in Hal. split.
      - split; [eauto|]. auto.
      - intros _ Hge. exfalso. apply (Qlt_not_le _ _ Hal). exact Hge. }
    destruct (max_iter <=? 0)%Z eqn:Hmi.
    { apply Z.leb_le in Hmi. split.
      - split; [eauto|]. auto.
      - intros _ _ Hgt. lia. }
    apply Z.leb_gt in Hmi.
    assert (Hth' : ~ threshold < 0) by (rewrite <- ltb_lt; congruence).
    assert (Hal' : ~ alpha < 0) by (rewrite <- ltb_lt; congruence).
    split; [|reflexivity].
    split.
    + intros [Hv | [Hv | Hv]]; [contradiction|contradiction|lia].
    + intros [msg Hr]. discriminate.
  - intros threshold nu tol thresholder max_iter normalize fit_intercept copy_X made.
    unfold made, SR3.__init__.
    destruct (ltb threshold 0) eqn:Hth.
    { apply ltb_lt in Hth. split; [eauto|]. intros prox Hprox. split.
      - split; [eauto|]. auto.
      - intros Hge. exfalso. apply (Qlt_not_le _ _ Hth). exact Hge. }
    destruct (leb nu 0) eqn:Hnu.
    { apply leb_le in Hnu. split; [eauto|]. intros prox Hprox. split.
      - split; [eauto|]. auto.
      - intros _ Hgt. exfalso. apply (Qlt_not_le _ _ Hgt). exact Hnu. }
    destruct (leb tol 0) eqn:Htol.
    { apply leb_le in Htol. split; [eauto|]. intros prox Hprox. split.
      - split; [eauto|]. auto.
      - intros _ _ Hgt. exfalso. apply (Qlt_not_le _ _ Hgt). exact Htol. }
    destruct (max_iter <=? 0)%Z eqn:Hmi.
    { apply Z.leb_le in Hmi. split; [eauto|]. intros prox Hprox. split.
      - split; [eauto|]. auto 6.
      - intros _ _ _ Hgt. lia. }
    apply Z.leb_gt in Hmi.
    assert (Hth' : ~ threshold < 0) by (rewrite <- ltb_lt; congruence).
    assert (Hnu' : ~ nu <= 0) by (rewrite <- leb_le; congruence).
    assert (Htol' : ~ tol <= 0) by (rewrite <- leb_le; congruence).
    split.
    + intros [Hv | [Hv | [Hv | Hv]]]; [contradiction|contradiction|contradiction|lia].
    + intros prox Hprox. rewrite Hprox. cbn [bind].
      split; [|reflexivity].
      split.
      * intros [Hv | [Hv | [Hv | Hv]]]; [contradiction|contradiction|contradiction|lia].
      * intros [e Hr]. discriminate.
Qed.

(** On the exact backend: a negative threshold is refused by both
    constructors, and the default arguments are accepted. *)
Lemma construction_validates_hyperparameters_witness :
  (exists msg,
      @STLSQ.__init__ Exact.backend (-1) 0 20 None false false true
      = Raise (ValueError msg)) /\
  @STLSQ.__init__ Exact.backend (1 # 10) 0 20 None false false true
  = Ok (Example.stlsq (1 # 10)) /\
  (exists msg,
      @SR3.__init__ Exact.backend (1 # 10) 0 (1 # 100000) "l0" 30 false false true
      = Raise (ValueError msg)) /\
  @SR3.__init__ Exact.backend (1 # 10) 1 (1 # 100000) "l0" 30 false false true
  = Ok (Example.sr3 Exact.prox_l0 "l0").
Proof.
  destruct (@construction_validates_hyperparameters Exact.backend) as [Hstlsq Hsr3].
  split; [|split; [|split]].
  - apply (proj1 (Hstlsq (-1) 0 20%Z None false false true)).
    left. reflexivity.
  - apply (proj2 (Hstlsq (1 # 10) 0 20%Z None false false true));
      [vm_compute; discriminate | vm_compute; discriminate | reflexivity].
  - apply (proj1 (Hsr3 (1 # 10) 0 (1 # 100000) "l0" 30%Z false false true)).
    right. left. vm_compute. discriminate.
  - apply (proj2 (proj2 (Hsr3 (1 # 10) 1 (1 # 100000) "l0" 30%Z false false true)
                    Exact.prox_l0 eq_refl));
      first [reflexivity | vm_compute; discriminate].
Defined.

(** ** The wrappers around the coordinate-descent solvers *)

Section Fit_frame.
Context `{Externals}.
Context {A : Type}.
Variable base : A -> BaseOptimizer.t.
Variable with_base : A -> BaseOptimizer.t -> A.
Variable _reduce : A -> matrix -> ndarray -> result (A * list warning).

Hypothesis base_with_base : forall a b, base (with_base a b) = b.
Hypothesis reduce_keeps_ind_ :
  forall a x y a' w,
    _reduce a x y = Ok (a', w) ->
    BaseOptimizer.ind_ (base a') = BaseOptimizer.ind_ (base a).

(** If the reduction step never assigns [ind_], a fit ends with the
    mask it set at its start. *)
Lemma fit_keeps_initial_mask (self : A) (x_ : matrix) (y : ndarray)
    (sample_weight : option ndarray) (self' : A) (w : list warning) :
  BaseOptimizer.fit base with_base _reduce self x_ y sample_weight = Ok (self', w) ->
  exists x y' X_offset y_offset X_scale,
    BaseOptimizer.prepare (base self) x_ y sample_weight
    = Ok (x, y', X_offset, y_offset, X_scale) /\
    BaseOptimizer.ind_ (base self') = ones (shape1 x).
Proof.
  unfold BaseOptimizer.fit.
  destruct (BaseOptimizer.prepare (base self) x_ y sample_weight)
    as [[[[[x y'] X_offset] y_offset] X_scale]|e]; [|discriminate].
  cbn [bind].
  destruct (_reduce _ x y') as [[self1 w1]|e] eqn:Hred; [|discriminate].
  cbn [bind]. intros Hfit. injection Hfit as <- <-.
  exists x, y', X_offset, y_offset, X_scale. split; [reflexivity|].
  rewrite base_with_base.
  apply reduce_keeps_ind_ in Hred. rewrite base_with_base in Hred.
  unfold BaseOptimizer.finish.
  destruct (_set_intercept _ _ _ _ _) as [c i]. cbn. exact Hred.
Qed.
End Fit_frame.

Lemma LASSO_reduce_frame `{Externals} (s : LASSO.t) (x : matrix) (y : ndarray)
    (s' : LASSO.t) (w : list warning) :
  LASSO._reduce s x y = Ok (s', w) ->
  BaseOptimizer.ind_ (LASSO.base s') = BaseOptimizer.ind_ (LASSO.base s) /\
  BaseOptimizer.history_ (LASSO.base s') = BaseOptimizer.history_ (LASSO.base s) /\
  (BaseOptimizer.coef_ (LASSO.base s'), BaseOptimizer.iters (LASSO.base s'))
  = Lasso_fit (LASSO.alpha s) (LASSO.max_iter s) (or_empty (LASSO.lasso_kw s)) x y.
Proof.
  unfold LASSO._reduce.
  destruct (Lasso_fit _ _ _ _ _) as [c n].
  intros Hr. injection Hr as <- _. cbn. auto.
Qed.

Lemma ElasticNet_reduce_frame `{Externals} (s : ElasticNet.t) (x : matrix)
    (y : ndarray) (s' : ElasticNet.t) (w : list warning) :
  ElasticNet._reduce s x y = Ok (s', w) ->
  BaseOptimizer.ind_ (ElasticNet.base s') = BaseOptimizer.ind_ (ElasticNet.base s) /\
  BaseOptimizer.history_ (ElasticNet.base s')
  = BaseOptimizer.history_ (ElasticNet.base s) /\
  (BaseOptimizer.coef_ (ElasticNet.base s'), BaseOptimizer.iters (ElasticNet.base s'))
  = ElasticNet_fit (ElasticNet.alpha s) (ElasticNet.l1_ratio s) (ElasticNet.max_iter s)
      (or_empty (ElasticNet.elastic_net_kw s)) x y.
Proof.
  unfold ElasticNet._reduce.
  destruct (ElasticNet_fit _ _ _ _ _ _) as [c n].
  intros Hr. injection Hr as <- _. cbn. auto.
Qed.

(** C10: the reduction steps of LASSO and ElasticNet assign only the
    coefficient vector and the iteration count, both as returned by the
    external solver, and never the support mask; so after a fit of either
    wrapper the mask is the all-true vector set at the start of the fit,
    one entry per column of the preprocessed design matrix, whatever
    coefficients the solver returned. *)
Theorem wrappers_keep_support_all_true `{Externals} :
  (forall (s : LASSO.t) x y s' w,
      LASSO._reduce s x y = Ok (s', w) ->
      BaseOptimizer.ind_ (LASSO.base s') = BaseOptimizer.ind_ (LASSO.base s) /\
      (BaseOptimizer.coef_ (LASSO.base s'), BaseOptimizer.iters (LASSO.base s'))
      = Lasso_fit (LASSO.alpha s) (LASSO.max_iter s) (or_empty (LASSO.lasso_kw s)) x y) /\
  (forall (s : LASSO.t) x_ y sample_weight s' w,
      LASSO.fit s x_ y sample_weight = Ok (s', w) ->
      exists x y' X_offset y_offset X_scale,
        BaseOptimizer.prepare (LASSO.base s) x_ y sample_weight
        = Ok (x, y', X_offset, y_offset, X_scale) /\
        BaseOptimizer.ind_ (LASSO.base s') = ones (shape1 x)) /\
  (forall (s : ElasticNet.t) x y s' w,
      ElasticNet._reduce s x y = Ok (s', w) ->
      BaseOptimizer.ind_ (ElasticNet.base s') = BaseOptimizer.ind_ (ElasticNet.base s) /\
      (BaseOptimizer.coef_ (ElasticNet.base s'), BaseOptimizer.iters (ElasticNet.base s'))
      = ElasticNet_fit (ElasticNet.alpha s) (ElasticNet.l1_ratio s)
          (ElasticNet.max_iter s) (or_empty (ElasticNet.elastic_net_kw s)) x y) /\
  (forall (s : ElasticNet.t) x_ y sample_weight s' w,
      ElasticNet.fit s x_ y sample_weight = Ok (s', w) ->
      exists x y' X_offset y_offset X_scale,
        BaseOptimizer.prepare (ElasticNet.base s) x_ y sample_weight
        = Ok (x, y', X_offset, y_offset, X_scale) /\
        BaseOptimizer.ind_ (ElasticNet.base s') = ones (shape1 x)).
Proof.
  split; [|split; [|split]].
  - intros s x y s' w Hr. apply LASSO_reduce_frame in Hr. tauto.
  - intros s x_ y sample_weight s' w.
    apply (fit_keeps_initial_mask LASSO.base LASSO.with_base LASSO._reduce).
    + reflexivity.
    + intros a x y0 a' w0 Hr. apply LASSO_reduce_frame in Hr. tauto.
  - intros s x y s' w Hr. apply ElasticNet_reduce_frame in Hr. tauto.
  - intros s x_ y sample_weight s' w.
    apply (fit_keeps_initial_mask ElasticNet.base ElasticNet.with_base
             ElasticNet._reduce).
    + reflexivity.
    + intros a x y0 a' w0 Hr. apply ElasticNet_reduce_frame in Hr. tauto.
Qed.

(** [LASSO()] fitted on the identity design and [1, 2, 3]: with the
    default [alpha = 1] the solver returns all zeros, and the mask stays
    all true. *)
Lemma wrappers_keep_support_all_true_witness :
  exists x y' X_offset y_offset X_scale,
    @BaseOptimizer.prepare Exact.backend (LASSO.base Example.lasso)
      Example.I3 Example.y123 None
    = Ok (x, y', X_offset, y_offset, X_scale) /\
    [true; true; true] = ones (shape1 x).
Proof.
  apply (proj1 (proj2 (@wrappers_keep_support_all_true Exact.backend))
           Example.lasso Example.I3 Example.y123 None
           (LASSO.with_base Example.lasso
              (Example.fitted (Some 0) 1 [[1; 2; 3]] [0; 0; 0] [true; true; true]))
           []).
  reflexivity.
Defined.

(** * Further properties *)

(** ** How the loop of STLSQ runs within a fit *)

Section STLSQ_passes.
Context `{Externals}.
Variables (x : matrix) (y : ndarray).
Variables (n_features n_features_selected : nat).

Import STLSQ.

(** A run of the loop either exhausts its budget, every pass reaching the
    end of the body, or is left by a [break] in some pass within the
    budget. *)
Lemma for_range_cases (n : nat) (st0 : loop_state) (how : exit) (st' : loop_state) :
  for_range x y n_features n_features_selected n st0 = Ok (how, st') ->
  (how = ExhaustedUnconverged /\
   after x y n_features n_features_selected n st0 = Some st') \/
  (exists k st,
      (k < n)%nat /\
      after x y n_features n_features_selected k st0 = Some st /\
      body x y n_features n_features_selected st = Ok (Break how, st')).
Proof.
  revert st0. induction n as [|n IH]; intros st0; simpl.
  - intros Hf. injection Hf as <- <-. left. auto.
  - destruct (body x y n_features n_features_selected st0) as [[[|how1] st1]|e] eqn:Hb;
      simpl; [| |discriminate].
    + intros Hf. destruct (IH st1 Hf) as [[-> Ha] | (k & st & Hk & Ha & Hbody)].
      * left. auto.
      * right. exists (S k), st. split; [lia|]. split; [|exact Hbody].
        simpl. rewrite Hb. exact Ha.
    + intros Hf. injection Hf as <- <-. right.
      exists 0%nat, st0. split; [lia|]. split; [reflexivity|exact Hb].
Qed.

End STLSQ_passes.

Lemma started_run_cases `{Externals} (s : STLSQ.t) (x : matrix) (y : ndarray)
    (how : STLSQ.exit) (s' : STLSQ.t) (w : list warning) :
  STLSQ.run (STLSQ.started s x y) x y = Ok (how, s', w) ->
  (how = STLSQ.ExhaustedUnconverged /\
   exists st,
     STLSQ.entering s x y (Z.to_nat (STLSQ.max_iter s)) = Some st /\
     STLSQ.write_back (STLSQ.or_else st) = Ok (s', w)) \/
  (how <> STLSQ.ExhaustedUnconverged /\
   exists k st st',
     (k < Z.to_nat (STLSQ.max_iter s))%nat /\
     STLSQ.entering s x y k = Some st /\
     STLSQ.pass s x y st = Ok (STLSQ.Break how, st') /\
     STLSQ.write_back st' = Ok (s', w)).
Proof.
  intros Hrun. destruct (run_cases _ _ _ _ _ _ Hrun) as (st' & Hfor & Hwb).
  change (STLSQ.max_iter (STLSQ.started s x y)) with (STLSQ.max_iter s) in Hfor.
  destruct (for_range_cases _ _ _ _ _ _ _ _ Hfor)
    as [[-> Ha] | (k & st & Hk & Ha & Hbody)].
  - left. split; [reflexivity|]. exists st'. auto.
  - destruct (body_cases _ _ _ _ _ _ _ Hbody) as [[Hctl _] | [stop [Hctl _]]].
    + injection Hctl as ->. right. split; [discriminate|].
      exists k, st, st'. auto.
    + destruct stop; [|discriminate]. injection Hctl as ->.
      right. split; [discriminate|]. exists k, st, st'. auto.
Qed.

(** Each pass that does not end the loop removes at least one feature:
    entering pass [k + 1], the support has at most [n_features - k]
    entries. *)
Lemma entering_support_size `{Externals} (s : STLSQ.t) (x : matrix) (y : ndarray)
    (k : nat) (st : STLSQ.loop_state) :
  STLSQ.entering s x y k = Some st ->
  (count_true (STLSQ.ind st) + k <= shape1 x)%nat.
Proof.
  revert st. induction k as [|k IH]; intros st Hent.
  - unfold STLSQ.entering in Hent. simpl in Hent. injection Hent as <-.
    simpl. rewrite count_true_ones. lia.
  - pose proof Hent as Hent'. unfold STLSQ.entering in Hent'.
    apply after_last in Hent'. destruct Hent' as (st1 & Ha & Hb).
    specialize (IH st1 Ha).
    pose proof (entering_holds _ _ _ _ _ Ha) as Hinv.
    destruct Hinv as (Hlen & _ & Hth & _ & _ & _ & _ & Hk).
    destruct (body_cases _ _ _ _ _ _ _ Hb) as [[Hctl _] | [stop [Hctl Hreg]]];
      [discriminate|].
    destruct stop; [discriminate|].
    destruct Hreg as (_ & _ & xs & scattered & _ & _ & Hind & _ & _ & _
                      & _ & _ & _ & _ & _ & Hstop).
    cbv zeta in Hind, Hstop.
    symmetry in Hstop. apply orb_false_iff in Hstop. destruct Hstop as [Hfull Hpat].
    apply Nat.eqb_neq in Hfull.
    set (raw := put_mask (STLSQ.ind st1) scattered) in *.
    set (big := abs_ge raw (STLSQ.threshold (STLSQ.self st1))) in *.
    assert (Hbiglen : length big = shape1 x).
    { unfold big, raw. rewrite abs_ge_length, put_mask_length. exact Hlen. }
    rewrite Hind.
    destruct k as [|k].
    + subst st1. simpl in Hfull. rewrite count_true_ones in Hfull.
      pose proof (count_true_le_length big) as Hle. lia.
    + destruct Hk as (Hpos & older & h & Hold & Hh).
      assert (Hsub : subset big (STLSQ.ind st1)).
      { unfold big, raw. apply abs_ge_put_mask_subset. rewrite Hth. exact Hpos. }
      assert (Hne : count_true big <> count_true (STLSQ.ind st1)).
      { intros Heq. apply (subset_same_count _ _ Hsub) in Heq.
        rewrite Hold in Hpat. unfold STLSQ.preceding in Hpat.
        rewrite last1_app in Hpat.
        assert (Htrue : same_pattern (zero_outside big raw) h = true).
        { apply same_pattern_iff.
          - rewrite zero_outside_length. unfold raw. rewrite put_mask_length.
            rewrite <- Hh. unfold pattern. rewrite length_map. reflexivity.
          - unfold big. rewrite pattern_zero_outside by (rewrite Hth; exact Hpos).
            fold big. rewrite Heq. symmetry. exact Hh. }
        congruence. }
      pose proof (subset_count _ _ Hsub) as Hle. lia.
Qed.

(** X1: in an STLSQ fit every pass that does not end the loop shrinks the
    support, so the support entering pass [k + 1] has at most
    [n_features - k] entries; hence the loop can exhaust its budget
    without converging only when [max_iter] is at most [n_features]. *)
Theorem STLSQ_budget_exhausted_only_below_n_features `{Externals}
    (s : STLSQ.t) (x : matrix) (y : ndarray) :
  (forall k st,
      STLSQ.entering s x y k = Some st ->
      (count_true (STLSQ.ind st) + k <= shape1 x)%nat) /\
  (forall s' w,
      STLSQ.run (STLSQ.started s x y) x y
      = Ok (STLSQ.ExhaustedUnconverged, s', w) ->
      (STLSQ.max_iter s <= Z.of_nat (shape1 x))%Z).
Proof.
  split.
  - intros k st. apply entering_support_size.
  - intros s' w Hrun.
    destruct (started_run_cases _ _ _ _ _ _ Hrun)
      as [[_ (st & Hent & _)] | [Hne _]]; [|contradiction].
    apply entering_support_size in Hent. lia.
Qed.

(** The fit on [1, 2, 1/20]: entering the second pass, two features are
    left of three. *)
Lemma STLSQ_budget_exhausted_only_below_n_features_witness :
  (2 + 1 <= 3)%nat.
Proof.
  apply (proj1 (@STLSQ_budget_exhausted_only_below_n_features Exact.backend
                  (Example.stlsq STLSQ.default_threshold) Example.I3 Example.y_small)
           1%nat
           (Example.stlsq_state STLSQ.default_threshold 1
              [[1; 2; 1 # 20]; [1; 2; 0]] [1; 2; 0] [true; true; false])).
  reflexivity.
Defined.

Lemma count_zero_nth (a : mask) (i : nat) :
  count_true a = 0%nat -> nth i a false = false.
Proof.
  intros Hc. rewrite (count_zero_false a Hc).
  destruct (Nat.lt_ge_cases i (length a)) as [Hlt | Hge].
  - apply nth_repeat_lt. exact Hlt.
  - apply nth_overflow. rewrite repeat_length. exact Hge.
Qed.

Lemma zero_outside_all_false (big : mask) (c : ndarray) :
  length big = length c -> count_true big = 0%nat ->
  zero_outside big c = zeros (length c).
Proof.
  unfold count_true, zeros. revert c.
  induction big as [|b big IH]; intros [|v c]; simpl; try discriminate; auto.
  intros Hl Hc. destruct b; simpl in Hc; [discriminate|].
  f_equal. apply IH; [lia|exact Hc].
Qed.

(** An entry kept by the thresholding is at least the threshold in
    magnitude. *)
Lemma zero_outside_kept (c : ndarray) (th : Q) (i : nat) :
  nth i (abs_ge c th) false = true ->
  th <= Qabs (nth i (zero_outside (abs_ge c th) c) 0).
Proof.
  unfold abs_ge. revert i.
  induction c as [|v c IH]; intros [|i]; simpl; try discriminate.
  - intros Hle. rewrite Hle. apply Qle_bool_iff. exact Hle.
  - apply IH.
Qed.

Section STLSQ_base_frame.
Context `{Externals}.
Variables (x : matrix) (y : ndarray).
Variables (n_features n_features_selected : nat).

(** A pass assigns, of the inherited attributes, only [iters] and
    [history_]. *)
Lemma body_base_frame (st : STLSQ.loop_state) (ctl : STLSQ.control)
    (st' : STLSQ.loop_state) :
  STLSQ.body x y n_features n_features_selected st = Ok (ctl, st') ->
  let b := STLSQ.base (STLSQ.self st) in
  let b' := STLSQ.base (STLSQ.self st') in
  BaseOptimizer.normalize b' = BaseOptimizer.normalize b /\
  BaseOptimizer.copy_X b' = BaseOptimizer.copy_X b /\
  BaseOptimizer.coef_ b' = BaseOptimizer.coef_ b /\
  BaseOptimizer.ind_ b' = BaseOptimizer.ind_ b /\
  BaseOptimizer.intercept_ b' = BaseOptimizer.intercept_ b.
Proof.
  unfold STLSQ.body.
  destruct (count_true (STLSQ.ind st) =? 0)%nat.
  - intros Hb. injection Hb as _ <-. cbn. auto.
  - destruct (select_columns x (STLSQ.ind st)) as [xs|e]; [|discriminate].
    cbn [bind]. unfold STLSQ._regress, STLSQ._sparse_coefficients.
    destruct (setitem_mask _ _ _) as [c|e]; [|discriminate].
    cbn [bind]. rewrite no_change_after_append.
    destruct (count_true _ =? n_features_selected)%nat; cbn [bind];
      intros Hb; injection Hb as _ <-; cbn; auto.
Qed.

End STLSQ_base_frame.

(** What the History and the local [coef] hold entering pass [k + 1] of
    a fit. *)
Lemma entering_history `{Externals} (s : STLSQ.t) (x : matrix) (y : ndarray)
    (k : nat) (st : STLSQ.loop_state) :
  STLSQ.entering s x y k = Some st ->
  (exists entries,
      BaseOptimizer.history_ (STLSQ.base (STLSQ.self st))
      = BaseOptimizer.history_ (STLSQ.base s) ++ lstsq x y :: entries /\
      length entries = k) /\
  BaseOptimizer.fit_intercept (STLSQ.base (STLSQ.self st))
  = BaseOptimizer.fit_intercept (STLSQ.base s) /\
  BaseOptimizer.normalize (STLSQ.base (STLSQ.self st))
  = BaseOptimizer.normalize (STLSQ.base s) /\
  BaseOptimizer.copy_X (STLSQ.base (STLSQ.self st))
  = BaseOptimizer.copy_X (STLSQ.base s) /\
  BaseOptimizer.intercept_ (STLSQ.base (STLSQ.self st))
  = BaseOptimizer.intercept_ (STLSQ.base s) /\
  BaseOptimizer.coef_ (STLSQ.base (STLSQ.self st)) = lstsq x y /\
  match k with
  | O => STLSQ.coef st = None
  | S _ =>
      exists c,
        STLSQ.coef st = Some c /\
        last1 (BaseOptimizer.history_ (STLSQ.base (STLSQ.self st))) = Some c /\
        length c = shape1 x /\
        (forall i, nth i (STLSQ.ind st) false = true ->
                   STLSQ.threshold s <= Qabs (nth i c 0)) /\
        (forall i, nth i (STLSQ.ind st) true = false -> nth i c 0 = 0)
  end.
Proof.
  revert st. induction k as [|k IH]; intros st Hent.
  - unfold STLSQ.entering in Hent. simpl in Hent. injection Hent as <-.
    cbn. repeat split; auto. exists []. auto.
  - pose proof Hent as Hent'. unfold STLSQ.entering in Hent'.
    apply after_last in Hent'. destruct Hent' as (st1 & Ha & Hb).
    destruct (IH st1 Ha) as ((entries & Hhist & Hlen) & Hfi & Hno & Hcx & Hic & Hco & _).
    pose proof (entering_holds _ _ _ _ _ Ha) as Hinv.
    destruct Hinv as (Hilen & _ & Hth & _).
    pose proof (body_fit_intercept _ _ _ _ _ _ _ Hb) as Hfi'.
    destruct (body_base_frame _ _ _ _ _ _ _ Hb) as (Hno' & Hcx' & Hco' & _ & Hic').
    destruct (body_cases _ _ _ _ _ _ _ Hb) as [[Hctl _] | [stop [_ Hreg]]];
      [discriminate|].
    destruct Hreg as (_ & _ & xs & scattered & _ & _ & Hind & Hcoef & _ & _
                      & _ & _ & _ & Hhist' & _).
    cbv zeta in Hind, Hcoef, Hhist'.
    split.
    { exists (entries ++ [zero_outside
                           (abs_ge (put_mask (STLSQ.ind st1) scattered)
                              (STLSQ.threshold (STLSQ.self st1)))
                           (put_mask (STLSQ.ind st1) scattered)]).
      split; [|rewrite length_app; simpl; lia].
      rewrite Hhist', Hhist, <- app_assoc. reflexivity. }
    repeat split; try congruence.
    eexists. split; [exact Hcoef|].
    split; [rewrite Hhist'; apply last1_app|].
    split; [rewrite zero_outside_length, put_mask_length; exact Hilen|].
    split.
    + intros i Hi. rewrite Hind in Hi. rewrite <- Hth.
      apply zero_outside_kept. exact Hi.
    + intros i Hi. rewrite Hind in Hi.
      apply zero_outside_nth; [apply abs_ge_length|exact Hi].
Qed.

Lemma all_zero_zeros (c : ndarray) (n : nat) :
  length c = n -> (forall i, (i < n)%nat -> nth i c 0 = 0) -> c = zeros n.
Proof.
  unfold zeros. revert n. induction c as [|v c IH]; intros [|n]; simpl;
    try discriminate; auto.
  intros Hl Hz. injection Hl as Hl. f_equal.
  - apply (Hz 0%nat). lia.
  - apply IH; [exact Hl|]. intros i Hi. apply (Hz (S i)). lia.
Qed.

Lemma count_zero_nth_true (a : mask) (i : nat) :
  count_true a = 0%nat -> (i < length a)%nat -> nth i a true = false.
Proof.
  intros Hc Hi. rewrite (count_zero_false a Hc).
  apply nth_repeat_lt. exact Hi.
Qed.

Lemma write_back_frame `{Externals} (st : STLSQ.loop_state) (s : STLSQ.t)
    (w : list warning) :
  STLSQ.write_back st = Ok (s, w) ->
  STLSQ.threshold s = STLSQ.threshold (STLSQ.self st) /\
  STLSQ.alpha s = STLSQ.alpha (STLSQ.self st) /\
  STLSQ.max_iter s = STLSQ.max_iter (STLSQ.self st) /\
  STLSQ.ridge_kw s = STLSQ.ridge_kw (STLSQ.self st) /\
  BaseOptimizer.fit_intercept (STLSQ.base s)
  = BaseOptimizer.fit_intercept (STLSQ.base (STLSQ.self st)) /\
  BaseOptimizer.normalize (STLSQ.base s)
  = BaseOptimizer.normalize (STLSQ.base (STLSQ.self st)) /\
  BaseOptimizer.copy_X (STLSQ.base s)
  = BaseOptimizer.copy_X (STLSQ.base (STLSQ.self st)) /\
  BaseOptimizer.intercept_ (STLSQ.base s)
  = BaseOptimizer.intercept_ (STLSQ.base (STLSQ.self st)).
Proof.
  unfold STLSQ.write_back. destruct (STLSQ.coef st) as [c|]; simpl; [|discriminate].
  intros Hw. injection Hw as <- _. cbn. repeat split.
Qed.

(** The loop state that [_reduce] writes back at the end of a fit: [k]
    regressions were run. *)
Lemma started_run_final `{Externals} (s : STLSQ.t) (x : matrix) (y : ndarray)
    (how : STLSQ.exit) (s' : STLSQ.t) (w : list warning) :
  STLSQ.run (STLSQ.started s x y) x y = Ok (how, s', w) ->
  exists (k : nat) (st : STLSQ.loop_state) (c : ndarray),
    STLSQ.write_back st = Ok (s', w) /\
    STLSQ.coef st = Some c /\
    (k <= Z.to_nat (STLSQ.max_iter s))%nat /\
    BaseOptimizer.iters (STLSQ.base (STLSQ.self st)) = k /\
    length (STLSQ.ind st) = shape1 x /\
    (STLSQ.threshold (STLSQ.self st) = STLSQ.threshold s /\
     STLSQ.alpha (STLSQ.self st) = STLSQ.alpha s /\
     STLSQ.max_iter (STLSQ.self st) = STLSQ.max_iter s /\
     STLSQ.ridge_kw (STLSQ.self st) = STLSQ.ridge_kw s) /\
    (BaseOptimizer.fit_intercept (STLSQ.base (STLSQ.self st))
     = BaseOptimizer.fit_intercept (STLSQ.base s) /\
     BaseOptimizer.normalize (STLSQ.base (STLSQ.self st))
     = BaseOptimizer.normalize (STLSQ.base s) /\
     BaseOptimizer.copy_X (STLSQ.base (STLSQ.self st))
     = BaseOptimizer.copy_X (STLSQ.base s) /\
     BaseOptimizer.intercept_ (STLSQ.base (STLSQ.self st))
     = BaseOptimizer.intercept_ (STLSQ.base s)) /\
    (exists entries,
        BaseOptimizer.history_ (STLSQ.base (STLSQ.self st))
        = BaseOptimizer.history_ (STLSQ.base s) ++ lstsq x y :: entries /\
        length entries = k) /\
    (k <> 0%nat ->
     last1 (BaseOptimizer.history_ (STLSQ.base (STLSQ.self st))) = Some c /\
     length c = shape1 x /\
     (forall i, nth i (STLSQ.ind st) false = true ->
                STLSQ.threshold s <= Qabs (nth i c 0)) /\
     (0 < STLSQ.threshold s -> pattern c = STLSQ.ind st)) /\
    (k = 0%nat ->
     (how = STLSQ.Degenerate /\ shape1 x = 0%nat /\ c = []) \/
     (how = STLSQ.ExhaustedUnconverged /\ c = lstsq x y /\
      STLSQ.ind st = ones (shape1 x))) /\
    match how with
    | STLSQ.Converged => STLSQ.warned st = [] /\ k <> 0%nat
    | STLSQ.Degenerate =>
        STLSQ.warned st = [SparsityTooBig (STLSQ.threshold s)] /\
        (k < Z.to_nat (STLSQ.max_iter s))%nat /\
        c = zeros (shape1 x) /\
        count_true (STLSQ.ind st) = 0%nat
    | STLSQ.ExhaustedUnconverged =>
        k = Z.to_nat (STLSQ.max_iter s) /\
        STLSQ.warned st
        = STLSQNotConverged (STLSQ.max_iter s)
            :: (if (k =? 0)%nat then [STLSQNoIterationsLeft] else [])
    end.
Proof.
  intros Hrun.
  destruct (started_run_cases _ _ _ _ _ _ Hrun)
    as [[-> (st & Hent & Hwb)] | [Hne (k & st & st' & Hk & Hent & Hpass & Hwb)]].
  - (* the budget is exhausted *)
    pose proof (entering_holds _ _ _ _ _ Hent) as Hinv.
    destruct Hinv as (Hlen & Hit & Hth & Hal & Hkw & Hmi & Hw & Hk).
    destruct (entering_history _ _ _ _ _ Hent)
      as (Hhist & Hfi & Hno & Hcx & Hic & Hco & Hcoef).
    destruct (Z.to_nat (STLSQ.max_iter s)) as [|n] eqn:HN.
    + exists 0%nat, (STLSQ.or_else st), (lstsq x y).
      unfold STLSQ.or_else. rewrite Hcoef, Hw, Hmi, Hco.
      unfold STLSQ.or_else in Hwb. rewrite Hcoef, Hw, Hmi, Hco in Hwb.
      cbn. repeat split; auto; try lia.
      intros _. right. subst st. cbn. auto.
    + destruct Hcoef as (c & Hc & Hlast & Hclen & Hkept & Hzero).
      destruct Hk as (Hpos & older & h & Hold & Hpat).
      exists (S n), (STLSQ.or_else st), c.
      unfold STLSQ.or_else. rewrite Hc, Hw, Hmi.
      unfold STLSQ.or_else in Hwb. rewrite Hc, Hw, Hmi in Hwb.
      cbn. repeat split; auto; try lia.
      intros _. rewrite Hold, last1_app in Hlast. injection Hlast as <-. exact Hpat.
  - (* a pass ends the loop *)
    pose proof (entering_holds _ _ _ _ _ Hent) as Hinv.
    destruct Hinv as (Hlen & Hit & Hth & Hal & Hkw & Hmi & Hw & Hk0).
    destruct (entering_history _ _ _ _ _ Hent)
      as ((entries & Hhist & Hel) & Hfi & Hno & Hcx & Hic & Hco & Hcoef).
    unfold STLSQ.pass in Hpass.
    pose proof (body_fit_intercept _ _ _ _ _ _ _ Hpass) as Hfi'.
    destruct (body_base_frame _ _ _ _ _ _ _ Hpass) as (Hno' & Hcx' & _ & _ & Hic').
    destruct (body_cases _ _ _ _ _ _ _ Hpass) as [[Hctl [Hzero Hst']] | [stop [Hctl Hreg]]].
    + (* the support is empty *)
      injection Hctl as Hhow. subst how.
      assert (Hallfalse : STLSQ.ind st = repeat false (shape1 x)).
      { rewrite <- Hlen. apply count_zero_false. exact Hzero. }
      exists k, st', (zeros (shape1 x)).
      split; [exact Hwb|].
      subst st'. cbn. rewrite Hw, Hth. unfold zeros_like. rewrite Hlen.
      repeat split; auto; try lia.
      * exists entries. auto.
      * destruct k as [|k]; [contradiction|].
        destruct Hcoef as (c & _ & Hlast & Hclen & _ & Hz).
        change (last1 (BaseOptimizer.history_ (STLSQ.base (STLSQ.self st)))
                = Some (zeros (shape1 x))).
        rewrite Hlast. f_equal.
        apply all_zero_zeros; [exact Hclen|].
        intros i Hi. apply Hz. apply count_zero_nth_true; [exact Hzero|].
        rewrite Hlen. exact Hi.
      * unfold zeros. apply repeat_length.
      * intros i Hi. rewrite (count_zero_nth _ i Hzero) in Hi. discriminate.
      * intros _. rewrite Hallfalse. unfold pattern, zeros.
        rewrite map_repeat. reflexivity.
      * intros ->. left. subst st. simpl in Hzero. rewrite count_true_ones in Hzero.
        rewrite Hzero. auto.
    + (* the pass regressed, thresholded and met the stopping test *)
      destruct stop; [|discriminate]. injection Hctl as Hhow. subst how.
      destruct Hreg as (_ & _ & xs & scattered & _ & _ & Hind & Hc & Hw' & Hth'
                        & Hal' & Hkw' & Hmi' & Hhist' & Hit' & _).
      cbv zeta in Hind, Hc, Hth', Hhist'.
      set (raw := put_mask (STLSQ.ind st) scattered) in *.
      set (big := abs_ge raw (STLSQ.threshold (STLSQ.self st))) in *.
      exists (S k), st', (zero_outside big raw).
      split; [exact Hwb|]. split; [exact Hc|].
      rewrite Hind, Hth', Hal', Hkw', Hmi', Hw', Hhist', Hit'.
      unfold big at 1. rewrite abs_ge_length. unfold raw at 1. rewrite put_mask_length.
      repeat split; auto; try lia; try congruence.
      * exists (entries ++ [zero_outside big raw]).
        rewrite Hhist, <- app_assoc. split; [reflexivity|].
        rewrite length_app. simpl. lia.
      * apply last1_app.
      * rewrite zero_outside_length. unfold raw. rewrite put_mask_length. exact Hlen.
      * intros i Hi. rewrite <- Hth. apply zero_outside_kept. exact Hi.
      * intros Hpos. unfold big. apply pattern_zero_outside. rewrite Hth. exact Hpos.
Qed.

Lemma count_nonzero_pattern (c : ndarray) : count_nonzero c = count_true (pattern c).
Proof.
  unfold count_nonzero, count_true, pattern.
  induction c as [|v c IH]; simpl; [reflexivity|].
  destruct (truthy v); simpl; rewrite IH; reflexivity.
Qed.

Lemma STLSQ_fit_cases `{Externals} (s : STLSQ.t) (x_ : matrix) (y : ndarray)
    (sample_weight : option ndarray) (s' : STLSQ.t) (w : list warning) :
  STLSQ.fit s x_ y sample_weight = Ok (s', w) ->
  exists x y' X_offset y_offset X_scale s1,
    BaseOptimizer.prepare (STLSQ.base s) x_ y sample_weight
    = Ok (x, y', X_offset, y_offset, X_scale) /\
    STLSQ._reduce (STLSQ.started s x y') x y' = Ok (s1, w) /\
    s' = STLSQ.with_base s1
           (BaseOptimizer.finish (STLSQ.base s1) X_offset y_offset X_scale).
Proof.
  unfold STLSQ.fit, BaseOptimizer.fit.
  destruct (BaseOptimizer.prepare (STLSQ.base s) x_ y sample_weight)
    as [[[[[x y'] X_offset] y_offset] X_scale]|e]; [|discriminate].
  cbn [bind].
  change (STLSQ.with_base s (BaseOptimizer.start (STLSQ.base s) x y'))
    with (STLSQ.started s x y').
  destruct (STLSQ._reduce (STLSQ.started s x y') x y') as [[s1 w1]|e] eqn:Hred;
    [|discriminate].
  cbn [bind]. intros Hfit. injection Hfit as <- <-.
  exists x, y', X_offset, y_offset, X_scale, s1. repeat split. exact Hred.
Qed.

(** [_set_intercept] assigns only [coef_] and [intercept_]. *)
Lemma finish_frame `{Externals} (b : BaseOptimizer.t) (X_offset : ndarray)
    (y_offset : Q) (X_scale : ndarray) :
  let b' := BaseOptimizer.finish b X_offset y_offset X_scale in
  BaseOptimizer.fit_intercept b' = BaseOptimizer.fit_intercept b /\
  BaseOptimizer.normalize b' = BaseOptimizer.normalize b /\
  BaseOptimizer.copy_X b' = BaseOptimizer.copy_X b /\
  BaseOptimizer.iters b' = BaseOptimizer.iters b /\
  BaseOptimizer.ind_ b' = BaseOptimizer.ind_ b /\
  BaseOptimizer.history_ b' = BaseOptimizer.history_ b /\
  BaseOptimizer.intercept_ b' <> None.
Proof.
  unfold BaseOptimizer.finish.
  destruct (_set_intercept _ _ _ _ _) as [c i]. cbn.
  repeat split; auto. discriminate.
Qed.

(** ** What a completed STLSQ reduction leaves on the model *)

(** X2: each way of leaving the loop of [STLSQ._reduce] has its own
    warnings and its own count of regressions.  Converged: no warning, and
    between 1 and [max_iter] regressions.  Degenerate: exactly the
    degenerate-support warning, fewer than [max_iter] regressions, all
    coefficients zero and an all-false mask.  Budget exhausted: exactly
    [max_iter] regressions and the non-convergence warning, followed by
    the no-iterations warning precisely when the budget was empty, in
    which case the initial least-squares guess and the all-true mask are
    kept. *)
Theorem STLSQ_exit_warnings_and_regressions `{Externals} (s : STLSQ.t)
    (x : matrix) (y : ndarray) (how : STLSQ.exit) (s' : STLSQ.t) (w : list warning) :
  STLSQ.run (STLSQ.started s x y) x y = Ok (how, s', w) ->
  let n := Z.to_nat (STLSQ.max_iter s) in
  let iters := BaseOptimizer.iters (STLSQ.base s') in
  match how with
  | STLSQ.Converged => w = [] /\ (1 <= iters <= n)%nat
  | STLSQ.Degenerate =>
      w = [SparsityTooBig (STLSQ.threshold s)] /\
      (iters < n)%nat /\
      BaseOptimizer.coef_ (STLSQ.base s') = zeros (shape1 x) /\
      BaseOptimizer.ind_ (STLSQ.base s') = repeat false (shape1 x)
  | STLSQ.ExhaustedUnconverged =>
      iters = n /\
      w = STLSQNotConverged (STLSQ.max_iter s)
            :: (if (n =? 0)%nat then [STLSQNoIterationsLeft] else []) /\
      (n = 0%nat ->
       BaseOptimizer.coef_ (STLSQ.base s') = lstsq x y /\
       BaseOptimizer.ind_ (STLSQ.base s') = ones (shape1 x))
  end.
Proof.
  intros Hrun n iters.
  destruct (started_run_final _ _ _ _ _ _ Hrun)
    as (k & st & c & Hwb & Hc & Hk & Hit & Hlen & _ & _ & _ & _ & Hzero & Hhow).
  apply write_back_ind in Hwb.
  destruct Hwb as (Hind & Hcoef & Hw & Hiters & _).
  rewrite Hc in Hcoef. injection Hcoef as Hcoef.
  unfold iters. rewrite Hiters, Hit, Hw, Hcoef, Hind.
  destruct how.
  - destruct Hhow as (Hwarn & Hlt & Hcz & Hcount).
    repeat split; auto.
    rewrite <- Hlen. apply count_zero_false. exact Hcount.
  - destruct Hhow as (Hwarn & Hne). repeat split; auto; lia.
  - destruct Hhow as (-> & Hwarn). fold n.
    split; [reflexivity|]. split; [exact Hwarn|].
    intros Hn. destruct (Hzero Hn) as [[Hx _] | (_ & Hguess & Hones)];
      [discriminate|]. split; assumption.
Qed.

(** The fit on [1, 2, 1/20] converges after two regressions, silently. *)
Lemma STLSQ_exit_warnings_and_regressions_witness :
  @nil warning = [] /\ (1 <= 2 <= 20)%nat.
Proof.
  apply (@STLSQ_exit_warnings_and_regressions Exact.backend
           (Example.stlsq STLSQ.default_threshold) Example.I3 Example.y_small
           STLSQ.Converged
           (STLSQ.with_base (Example.stlsq STLSQ.default_threshold)
              (Example.fitted None 2 [[1; 2; 1 # 20]; [1; 2; 0]; [1; 2; 0]]
                 [1; 2; 0] [true; true; false]))
           []).
  reflexivity.
Defined.

(** X3: a completed STLSQ fit appends to the History the initial
    least-squares guess and then one snapshot per regression, after
    whatever the History held before; the count of regressions is the
    final [iters], which never exceeds [max_iter]. *)
Theorem STLSQ_fit_history_and_iters `{Externals} (s : STLSQ.t) (x_ : matrix)
    (y : ndarray) (sample_weight : option ndarray) (s' : STLSQ.t)
    (w : list warning) :
  STLSQ.fit s x_ y sample_weight = Ok (s', w) ->
  exists x y' X_offset y_offset X_scale entries,
    BaseOptimizer.prepare (STLSQ.base s) x_ y sample_weight
    = Ok (x, y', X_offset, y_offset, X_scale) /\
    BaseOptimizer.history_ (STLSQ.base s')
    = BaseOptimizer.history_ (STLSQ.base s) ++ lstsq x y' :: entries /\
    length entries = BaseOptimizer.iters (STLSQ.base s') /\
    (BaseOptimizer.iters (STLSQ.base s') <= Z.to_nat (STLSQ.max_iter s))%nat.
Proof.
  intros Hfit.
  destruct (STLSQ_fit_cases _ _ _ _ _ _ Hfit)
    as (x & y' & X_offset & y_offset & X_scale & s1 & Hprep & Hred & ->).
  apply reduce_run in Hred. destruct Hred as [how Hrun].
  destruct (started_run_final _ _ _ _ _ _ Hrun)
    as (k & st & c & Hwb & _ & Hk & Hit & _ & _ & _ & (entries & Hhist & Hlen) & _).
  apply write_back_ind in Hwb. destruct Hwb as (_ & _ & _ & Hiters & Hhistory).
  destruct (finish_frame (STLSQ.base s1) X_offset y_offset X_scale)
    as (_ & _ & _ & Hfit_iters & _ & Hfit_hist & _).
  exists x, y', X_offset, y_offset, X_scale, entries.
  cbn. rewrite Hfit_iters, Hfit_hist, Hiters, Hhistory, Hit.
  repeat split; auto.
Qed.

(** [STLSQ()] fitted on the identity design and [1, 2, 1/20]: two
    regressions, two snapshots after the guess. *)
Lemma STLSQ_fit_history_and_iters_witness :
  exists x y' X_offset y_offset X_scale entries,
    @BaseOptimizer.prepare Exact.backend
      (STLSQ.base (Example.stlsq STLSQ.default_threshold))
      Example.I3 Example.y_small None
    = Ok (x, y', X_offset, y_offset, X_scale) /\
    [[1; 2; 1 # 20]; [1; 2; 0]; [1; 2; 0]]
    = [] ++ @lstsq Exact.backend x y' :: entries /\
    length entries = 2%nat /\
    (2 <= Z.to_nat 20)%nat.
Proof.
  apply (@STLSQ_fit_history_and_iters Exact.backend
           (Example.stlsq STLSQ.default_threshold) Example.I3 Example.y_small None
           (STLSQ.with_base (Example.stlsq STLSQ.default_threshold)
              (Example.fitted (Some 0) 2 [[1; 2; 1 # 20]; [1; 2; 0]; [1; 2; 0]]
                 [1; 2; 0] [true; true; false]))
           []).
  reflexivity.
Defined.

(** X4: after an STLSQ reduction with a positive iteration budget, every
    coefficient whose feature is still in the support is at least the
    threshold in magnitude. *)
Theorem STLSQ_kept_coefficients_reach_threshold `{Externals} (s : STLSQ.t)
    (x : matrix) (y : ndarray) (s' : STLSQ.t) (w : list warning) (i : nat) :
  (0 < STLSQ.max_iter s)%Z ->
  STLSQ._reduce (STLSQ.started s x y) x y = Ok (s', w) ->
  nth i (BaseOptimizer.ind_ (STLSQ.base s')) false = true ->
  STLSQ.threshold s <= Qabs (nth i (BaseOptimizer.coef_ (STLSQ.base s')) 0).
Proof.
  intros Hmax Hred Hi.
  apply reduce_run in Hred. destruct Hred as [how Hrun].
  destruct (started_run_final _ _ _ _ _ _ Hrun)
    as (k & st & c & Hwb & Hc & Hk & Hit & Hlen & _ & _ & _ & Hpos & Hzero & Hhow).
  apply write_back_ind in Hwb. destruct Hwb as (Hind & Hcoef & _).
  rewrite Hc in Hcoef. injection Hcoef as Hcoef.
  rewrite Hcoef. rewrite Hind in Hi.
  destruct (Nat.eq_dec k 0) as [Hk0 | Hk0].
  - destruct (Hzero Hk0) as [(_ & Hn & _) | (-> & _)].
    + rewrite Hn in Hlen. apply length_zero_iff_nil in Hlen. rewrite Hlen in Hi.
      destruct i; discriminate.
    + destruct Hhow as [Hk' _]. lia.
  - destruct (Hpos Hk0) as (_ & _ & Hkept & _). apply Hkept. exact Hi.
Qed.

Lemma STLSQ_kept_coefficients_reach_threshold_witness :
  (1 # 10) <= Qabs (nth 1 [1; 2; 0] 0).
Proof.
  apply (@STLSQ_kept_coefficients_reach_threshold Exact.backend
           (Example.stlsq STLSQ.default_threshold) Example.I3 Example.y_small
           (STLSQ.with_base (Example.stlsq STLSQ.default_threshold)
              (Example.fitted None 2 [[1; 2; 1 # 20]; [1; 2; 0]; [1; 2; 0]]
                 [1; 2; 0] [true; true; false]))
           [] 1%nat); reflexivity.
Defined.

(** X5: the mask an STLSQ reduction writes has one entry per feature;
    with a positive iteration budget so does the coefficient vector; and
    once a regression has run, the coefficient vector written is the
    newest History snapshot. *)
Theorem STLSQ_result_shapes `{Externals} (s : STLSQ.t) (x : matrix) (y : ndarray)
    (s' : STLSQ.t) (w : list warning) :
  STLSQ._reduce (STLSQ.started s x y) x y = Ok (s', w) ->
  length (BaseOptimizer.ind_ (STLSQ.base s')) = shape1 x /\
  ((0 < STLSQ.max_iter s)%Z ->
   length (BaseOptimizer.coef_ (STLSQ.base s')) = shape1 x) /\
  (BaseOptimizer.iters (STLSQ.base s') <> 0%nat ->
   last1 (BaseOptimizer.history_ (STLSQ.base s'))
   = Some (BaseOptimizer.coef_ (STLSQ.base s'))).
Proof.
  intros Hred.
  apply reduce_run in Hred. destruct Hred as [how Hrun].
  destruct (started_run_final _ _ _ _ _ _ Hrun)
    as (k & st & c & Hwb & Hc & Hk & Hit & Hlen & _ & _ & _ & Hpos & Hzero & Hhow).
  apply write_back_ind in Hwb. destruct Hwb as (Hind & Hcoef & _ & Hiters & Hhist).
  rewrite Hc in Hcoef. injection Hcoef as Hcoef.
  rewrite Hcoef, Hind, Hiters, Hhist, Hit.
  split; [exact Hlen|]. split.
  - intros Hmax. destruct (Nat.eq_dec k 0) as [Hk0 | Hk0].
    + destruct (Hzero Hk0) as [(_ & Hn & ->) | (-> & _)].
      * rewrite Hn. reflexivity.
      * destruct Hhow as [Hk' _]. lia.
    + apply (Hpos Hk0).
  - intros Hk0. apply (Hpos Hk0).
Qed.

Lemma STLSQ_result_shapes_witness :
  length [true; true; false] = shape1 Example.I3.
Proof.
  apply (proj1 (@STLSQ_result_shapes Exact.backend
                  (Example.stlsq STLSQ.default_threshold) Example.I3 Example.y_small
                  (STLSQ.with_base (Example.stlsq STLSQ.default_threshold)
                     (Example.fitted None 2 [[1; 2; 1 # 20]; [1; 2; 0]; [1; 2; 0]]
                        [1; 2; 0] [true; true; false]))
                  [] eq_refl)).
Defined.

(** X6: with a positive threshold and a positive iteration budget, the
    nonzero entries of the coefficient vector an STLSQ reduction writes
    are exactly the features of the support it writes, so the number of
    nonzero coefficients is the support size. *)
Theorem STLSQ_support_is_nonzero_pattern `{Externals} (s : STLSQ.t)
    (x : matrix) (y : ndarray) (s' : STLSQ.t) (w : list warning) :
  0 < STLSQ.threshold s ->
  (0 < STLSQ.max_iter s)%Z ->
  STLSQ._reduce (STLSQ.started s x y) x y = Ok (s', w) ->
  pattern (BaseOptimizer.coef_ (STLSQ.base s')) = BaseOptimizer.ind_ (STLSQ.base s') /\
  count_nonzero (BaseOptimizer.coef_ (STLSQ.base s'))
  = count_true (BaseOptimizer.ind_ (STLSQ.base s')).
Proof.
  intros Hth Hmax Hred.
  assert (Hpat : pattern (BaseOptimizer.coef_ (STLSQ.base s'))
                 = BaseOptimizer.ind_ (STLSQ.base s')).
  { apply reduce_run in Hred. destruct Hred as [how Hrun].
    destruct (started_run_final _ _ _ _ _ _ Hrun)
      as (k & st & c & Hwb & Hc & Hk & Hit & Hlen & _ & _ & _ & Hpos & Hzero & Hhow).
    apply write_back_ind in Hwb. destruct Hwb as (Hind & Hcoef & _).
    rewrite Hc in Hcoef. injection Hcoef as Hcoef.
    rewrite Hcoef, Hind.
    destruct (Nat.eq_dec k 0) as [Hk0 | Hk0].
    - destruct (Hzero Hk0) as [(_ & Hn & ->) | (-> & _)].
      + rewrite Hn in Hlen. apply length_zero_iff_nil in Hlen. rewrite Hlen.
        reflexivity.
      + destruct Hhow as [Hk' _]. lia.
    - destruct (Hpos Hk0) as (_ & _ & _ & Hp). apply Hp. exact Hth. }
  split; [exact Hpat|]. rewrite count_nonzero_pattern, Hpat. reflexivity.
Qed.

Lemma STLSQ_support_is_nonzero_pattern_witness :
  pattern [1; 2; 0] = [true; true; false] /\
  count_nonzero [1; 2; 0] = count_true [true; true; false].
Proof.
  apply (@STLSQ_support_is_nonzero_pattern Exact.backend
           (Example.stlsq STLSQ.default_threshold) Example.I3 Example.y_small
           (STLSQ.with_base (Example.stlsq STLSQ.default_threshold)
              (Example.fitted None 2 [[1; 2; 1 # 20]; [1; 2; 0]; [1; 2; 0]]
                 [1; 2; 0] [true; true; false]))
           []); reflexivity.
Defined.

(** ** What [fit] keeps and what it sets *)

Lemma complexity_after_finish (b : BaseOptimizer.t) (threshold : Q) :
  BaseOptimizer.intercept_ b <> None ->
  exists n,
    BaseOptimizer.complexity b (Some threshold) = Ok n /\
    (count_nonzero (BaseOptimizer.coef_ b) <= n
     <= count_nonzero (BaseOptimizer.coef_ b) + 1)%nat /\
    (n <= length (BaseOptimizer.coef_ b) + 1)%nat.
Proof.
  intros Hint. unfold BaseOptimizer.complexity.
  destruct (BaseOptimizer.intercept_ b) as [i|]; [|contradiction].
  cbn. eexists. split; [reflexivity|].
  assert (Hle : (count_nonzero (BaseOptimizer.coef_ b)
                 <= length (BaseOptimizer.coef_ b))%nat)
    by (unfold count_nonzero; apply filter_length_le).
  unfold count_true. cbn. destruct (Qle_bool threshold (Qabs i)); cbn; lia.
Qed.

(** X7: a completed STLSQ fit changes none of the constructor arguments
    kept on the instance ([threshold], [alpha], [max_iter], [ridge_kw],
    [fit_intercept], [normalize], [copy_X]), and it sets the intercept,
    so that afterwards the complexity metric is defined: the number of
    nonzero coefficients, plus at most one. *)
Theorem STLSQ_fit_keeps_configuration `{Externals} (s : STLSQ.t) (x_ : matrix)
    (y : ndarray) (sample_weight : option ndarray) (s' : STLSQ.t)
    (w : list warning) :
  STLSQ.fit s x_ y sample_weight = Ok (s', w) ->
  (STLSQ.threshold s' = STLSQ.threshold s /\
   STLSQ.alpha s' = STLSQ.alpha s /\
   STLSQ.max_iter s' = STLSQ.max_iter s /\
   STLSQ.ridge_kw s' = STLSQ.ridge_kw s /\
   BaseOptimizer.fit_intercept (STLSQ.base s')
   = BaseOptimizer.fit_intercept (STLSQ.base s) /\
   BaseOptimizer.normalize (STLSQ.base s') = BaseOptimizer.normalize (STLSQ.base s) /\
   BaseOptimizer.copy_X (STLSQ.base s') = BaseOptimizer.copy_X (STLSQ.base s)) /\
  exists n,
    STLSQ.complexity s' = Ok n /\
    (count_nonzero (BaseOptimizer.coef_ (STLSQ.base s')) <= n
     <= count_nonzero (BaseOptimizer.coef_ (STLSQ.base s')) + 1)%nat.
Proof.
  intros Hfit.
  destruct (STLSQ_fit_cases _ _ _ _ _ _ Hfit)
    as (x & y' & X_offset & y_offset & X_scale & s1 & Hprep & Hred & ->).
  apply reduce_run in Hred. destruct Hred as [how Hrun].
  destruct (started_run_final _ _ _ _ _ _ Hrun)
    as (k & st & c & Hwb & _ & _ & _ & _ & (Hth & Hal & Hmi & Hkw)
        & (Hfi & Hno & Hcx & _) & _).
  apply write_back_frame in Hwb.
  destruct Hwb as (Hth' & Hal' & Hmi' & Hkw' & Hfi' & Hno' & Hcx' & _).
  destruct (finish_frame (STLSQ.base s1) X_offset y_offset X_scale)
    as (Hfi'' & Hno'' & Hcx'' & _ & _ & _ & Hint).
  split.
  - cbn. rewrite Hfi'', Hno'', Hcx''. repeat split; congruence.
  - unfold STLSQ.complexity. cbn [STLSQ.base STLSQ.with_base].
    destruct (complexity_after_finish _ (STLSQ.threshold (STLSQ.with_base s1
                (BaseOptimizer.finish (STLSQ.base s1) X_offset y_offset X_scale))) Hint)
      as (n & Hn & Hbound & _).
    exists n. auto.
Qed.

Lemma STLSQ_fit_keeps_configuration_witness :
  exists n,
    STLSQ.complexity
      (STLSQ.with_base (Example.stlsq STLSQ.default_threshold)
         (Example.fitted (Some 0) 2 [[1; 2; 1 # 20]; [1; 2; 0]; [1; 2; 0]]
            [1; 2; 0] [true; true; false]))
    = Ok n /\
    (count_nonzero [1%Q; 2%Q; 0%Q] <= n <= count_nonzero [1%Q; 2%Q; 0%Q] + 1)%nat.
Proof.
  apply (proj2 (@STLSQ_fit_keeps_configuration Exact.backend
                  (Example.stlsq STLSQ.default_threshold) Example.I3 Example.y_small None
                  (STLSQ.with_base (Example.stlsq STLSQ.default_threshold)
                     (Example.fitted (Some 0) 2 [[1; 2; 1 # 20]; [1; 2; 0]; [1; 2; 0]]
                        [1; 2; 0] [true; true; false]))
                  [] eq_refl)).
Defined.

(** X8: the complexity metric raises [AttributeError] on every LASSO and
    ElasticNet instance, fitted or not, since they have no [threshold];
    and on an STLSQ or SR3 instance fresh from its constructor, since the
    intercept is set only by [fit]. *)
Theorem complexity_attribute_errors `{Externals} :
  (forall s : LASSO.t, LASSO.complexity s = Raise AttributeError) /\
  (forall s : ElasticNet.t, ElasticNet.complexity s = Raise AttributeError) /\
  (forall threshold alpha max_iter ridge_kw normalize fit_intercept copy_X s,
      STLSQ.__init__ threshold alpha max_iter ridge_kw normalize fit_intercept copy_X
      = Ok s ->
      STLSQ.complexity s = Raise AttributeError) /\
  (forall threshold nu tol thresholder max_iter normalize fit_intercept copy_X s,
      SR3.__init__ threshold nu tol thresholder max_iter normalize fit_intercept copy_X
      = Ok s ->
      SR3.complexity s = Raise AttributeError).
Proof.
  split; [|split; [|split]].
  - intros s. unfold LASSO.complexity, BaseOptimizer.complexity.
    destruct (BaseOptimizer.intercept_ (LASSO.base s)); reflexivity.
  - intros s. unfold ElasticNet.complexity, BaseOptimizer.complexity.
    destruct (BaseOptimizer.intercept_ (ElasticNet.base s)); reflexivity.
  - intros threshold alpha max_iter ridge_kw normalize fit_intercept copy_X s.
    unfold STLSQ.__init__.
    destruct (ltb threshold 0); [discriminate|].
    destruct (ltb alpha 0); [discriminate|].
    destruct (max_iter <=? 0)%Z; [discriminate|].
    intros Hs. injection Hs as <-. reflexivity.
  - intros threshold nu tol thresholder max_iter normalize fit_intercept copy_X s.
    unfold SR3.__init__.
    destruct (ltb threshold 0); [discriminate|].
    destruct (leb nu 0); [discriminate|].
    destruct (leb tol 0); [discriminate|].
    destruct (max_iter <=? 0)%Z; [discriminate|].
    destruct (get_prox thresholder) as [p|e]; [|discriminate].
    cbn. intros Hs. injection Hs as <-. reflexivity.
Qed.

Lemma complexity_attribute_errors_witness :
  STLSQ.complexity (Example.stlsq (1 # 10)) = Raise AttributeError.
Proof.
  apply (proj1 (proj2 (proj2 (@complexity_attribute_errors Exact.backend)))
           (1 # 10) 0 20%Z (@STLSQ.default_ridge_kw Exact.backend) false false true).
  reflexivity.
Defined.

(** X9: [LASSO.__init__] raises if and only if [alpha < 0] or
    [max_iter <= 0], and [ElasticNet.__init__] if and only if [alpha < 0],
    [l1_ratio < 0] or [max_iter <= 0]; there is no upper bound on
    [l1_ratio], so a ratio above 1 is accepted. *)
Theorem wrappers_validate_hyperparameters `{Externals} :
  (forall alpha lasso_kw max_iter normalize fit_intercept copy_X,
      ((alpha < 0 \/ (max_iter <= 0)%Z) <->
       exists msg,
         LASSO.__init__ alpha lasso_kw max_iter normalize fit_intercept copy_X
         = Raise (ValueError msg)) /\
      (0 <= alpha -> (0 < max_iter)%Z ->
       LASSO.__init__ alpha lasso_kw max_iter normalize fit_intercept copy_X
       = Ok {| LASSO.base := BaseOptimizer.__init__ normalize fit_intercept copy_X;
               LASSO.lasso_kw := lasso_kw;
               LASSO.alpha := alpha;
               LASSO.max_iter := max_iter |})) /\
  (forall alpha l1_ratio max_iter elastic_net_kw normalize fit_intercept copy_X,
      ((alpha < 0 \/ l1_ratio < 0 \/ (max_iter <= 0)%Z) <->
       exists msg,
         ElasticNet.__init__ alpha l1_ratio max_iter elastic_net_kw
           normalize fit_intercept copy_X
         = Raise (ValueError msg)) /\
      (0 <= alpha -> 0 <= l1_ratio -> (0 < max_iter)%Z ->
       ElasticNet.__init__ alpha l1_ratio max_iter elastic_net_kw
         normalize fit_intercept copy_X
       = Ok {| ElasticNet.base := BaseOptimizer.__init__ normalize fit_intercept copy_X;
               ElasticNet.alpha := alpha;
               ElasticNet.l1_ratio := l1_ratio;
               ElasticNet.max_iter := max_iter;
               ElasticNet.elastic_net_kw := elastic_net_kw |})).
Proof.
  split.
  - intros alpha lasso_kw max_iter normalize fit_intercept copy_X.
    unfold LASSO.__init__.
    destruct (ltb alpha 0) eqn:Hal.
    { apply ltb_lt in Hal. split.
      - split; [eauto|]. auto.
      - intros Hge. exfalso. apply (Qlt_not_le _ _ Hal). exact Hge. }
    destruct (max_iter <=? 0)%Z eqn:Hmi.
    { apply Z.leb_le in Hmi. split.
      - split; [eauto|]. auto.
      - intros _ Hgt. lia. }
    apply Z.leb_gt in Hmi.
    assert (Hal' : ~ alpha < 0) by (rewrite <- ltb_lt; congruence).
    split; [|reflexivity].
    split.
    + intros [Hv | Hv]; [contradiction|lia].
    + intros [msg Hr]. discriminate.
  - intros alpha l1_ratio max_iter elastic_net_kw normalize fit_intercept copy_X.
    unfold ElasticNet.__init__.
    destruct (ltb alpha 0) eqn:Hal.
    { apply ltb_lt in Hal. split.
      - split; [eauto|]. auto.
      - intros Hge. exfalso. apply (Qlt_not_le _ _ Hal). exact Hge. }
    destruct (ltb l1_ratio 0) eqn:Hl1.
    { apply ltb_lt in Hl1. split.
      - split; [eauto|]. auto.
      - intros _ Hge. exfalso. apply (Qlt_not_le _ _ Hl1). exact Hge. }
    destruct (max_iter <=? 0)%Z eqn:Hmi.
    { apply Z.leb_le in Hmi. split.
      - split; [eauto|]. auto.
      - intros _ _ Hgt. lia. }
    apply Z.leb_gt in Hmi.
    assert (Hal' : ~ alpha < 0) by (rewrite <- ltb_lt; congruence).
    assert (Hl1' : ~ l1_ratio < 0) by (rewrite <- ltb_lt; congruence).
    split; [|reflexivity].
    split.
    + intros [Hv | [Hv | Hv]]; [contradiction|contradiction|lia].
    + intros [msg Hr]. discriminate.
Qed.

(** [ElasticNet(l1_ratio=2)] is accepted; [LASSO(max_iter=0)] is not. *)
Lemma wrappers_validate_hyperparameters_witness :
  @ElasticNet.__init__ Exact.backend 1 2 1000
    (@ElasticNet.default_elastic_net_kw Exact.backend) false false true
  = Ok {| ElasticNet.base := BaseOptimizer.__init__ false false true;
          ElasticNet.alpha := 1;
          ElasticNet.l1_ratio := 2;
          ElasticNet.max_iter := 1000;
          ElasticNet.elastic_net_kw :=
            @ElasticNet.default_elastic_net_kw Exact.backend |} /\
  exists msg,
    @LASSO.__init__ Exact.backend 1 (@LASSO.default_lasso_kw Exact.backend) 0
      false false true
    = Raise (ValueError msg).
Proof.
  destruct (@wrappers_validate_hyperparameters Exact.backend) as [Hlasso Hnet].
  split.
  - apply (proj2 (Hnet 1 2 1000%Z (@ElasticNet.default_elastic_net_kw Exact.backend)
                    false false true));
      [vm_compute; discriminate | vm_compute; discriminate | reflexivity].
  - apply (proj1 (Hlasso 1 (@LASSO.default_lasso_kw Exact.backend) 0%Z
                    false false true)).
    right. reflexivity.
Defined.

(** ** A fit of a coordinate-descent wrapper *)



(** ** How the loop of SR3 runs *)

Section SR3_passes.
Context `{Externals}.
Variables (cho : Cho) (x_transpose_y : ndarray).

(** What one pass does to the loop variables and to the instance. *)
Lemma SR3_body_cases (st : SR3.loop_state) (ctl : SR3.control)
    (st' : SR3.loop_state) :
  SR3.body cho x_transpose_y st = Ok (ctl, st') ->
  SR3.coef_full st' <> None /\
  BaseOptimizer.history_ (SR3.base (SR3.self st'))
  = BaseOptimizer.history_ (SR3.base (SR3.self st)) ++ [SR3.coef_sparse st'] /\
  BaseOptimizer.iters (SR3.base (SR3.self st'))
  = S (BaseOptimizer.iters (SR3.base (SR3.self st))) /\
  BaseOptimizer.ind_ (SR3.base (SR3.self st'))
  = BaseOptimizer.ind_ (SR3.base (SR3.self st)) /\
  SR3.tol (SR3.self st') = SR3.tol (SR3.self st) /\
  SR3.max_iter (SR3.self st') = SR3.max_iter (SR3.self st) /\
  exists crit,
    SR3._convergence_criterion (SR3.self st') = Ok crit /\
    ctl = (if ltb crit (SR3.tol (SR3.self st)) then SR3.Break else SR3.Continue).
Proof.
  unfold SR3.body, SR3._update_full_coef.
  destruct (broadcast Qplus _ _) as [b|e]; [|discriminate].
  cbn [bind]. unfold SR3._update_sparse_coef.
  destruct (SR3._convergence_criterion _) as [crit|e] eqn:Hcrit; [|discriminate].
  cbn [bind]. intros Hb. injection Hb as <- <-.
  cbn -[SR3._convergence_criterion].
  repeat split; auto; try discriminate.
  - rewrite Nat.add_1_r. reflexivity.
  - exists crit. split; [exact Hcrit|reflexivity].
Qed.

(** A run of the loop makes some number [p] of passes. *)
Lemma SR3_for_range_passes (n : nat) (st : SR3.loop_state) (how : SR3.exit)
    (st' : SR3.loop_state) :
  SR3.for_range cho x_transpose_y n st = Ok (how, st') ->
  exists (p : nat) (entries : list ndarray),
    (p <= n)%nat /\
    BaseOptimizer.iters (SR3.base (SR3.self st'))
    = (BaseOptimizer.iters (SR3.base (SR3.self st)) + p)%nat /\
    BaseOptimizer.history_ (SR3.base (SR3.self st'))
    = BaseOptimizer.history_ (SR3.base (SR3.self st)) ++ entries /\
    length entries = p /\
    BaseOptimizer.ind_ (SR3.base (SR3.self st'))
    = BaseOptimizer.ind_ (SR3.base (SR3.self st)) /\
    SR3.tol (SR3.self st') = SR3.tol (SR3.self st) /\
    SR3.max_iter (SR3.self st') = SR3.max_iter (SR3.self st) /\
    (how = SR3.ExhaustedUnconverged -> p = n) /\
    (how = SR3.Converged -> p <> 0%nat) /\
    (p = 0%nat -> st' = st) /\
    (p <> 0%nat ->
     SR3.coef_full st' <> None /\
     last1 (BaseOptimizer.history_ (SR3.base (SR3.self st')))
     = Some (SR3.coef_sparse st') /\
     exists crit,
       SR3._convergence_criterion (SR3.self st') = Ok crit /\
       match how with
       | SR3.Converged => crit < SR3.tol (SR3.self st)
       | SR3.ExhaustedUnconverged => SR3.tol (SR3.self st) <= crit
       end).
Proof.
  revert st. induction n as [|n IH]; intros st; simpl.
  - intros Hf. injection Hf as <- <-. exists 0%nat, [].
    rewrite app_nil_r, Nat.add_0_r.
    repeat split; auto; try congruence; try discriminate.
  - destruct (SR3.body cho x_transpose_y st) as [[ctl st1]|e] eqn:Hb;
      simpl; [|discriminate].
    destruct (SR3_body_cases _ _ _ Hb)
      as (Hfull & Hhist & Hit & Hind & Htol & Hmi & crit & Hcrit & Hctl).
    destruct ctl.
    + (* the pass did not meet the tolerance *)
      intros Hf.
      destruct (IH st1 Hf)
        as (p & entries & Hp & Hit' & Hhist' & Hlen & Hind' & Htol' & Hmi'
            & Hexh & Hconv & Hzero & Hpos).
      exists (S p), (SR3.coef_sparse st1 :: entries).
      split; [lia|].
      split; [rewrite Hit', Hit; lia|].
      split; [rewrite Hhist', Hhist, <- app_assoc; reflexivity|].
      split; [simpl; lia|].
      split; [congruence|]. split; [congruence|]. split; [congruence|].
      split; [intros Hx; rewrite (Hexh Hx); reflexivity|].
      split; [intros _; discriminate|].
      split; [discriminate|]. intros _.
      destruct (Nat.eq_dec p 0) as [Hp0 | Hp0].
      * rewrite (Hzero Hp0) in *.
        split; [exact Hfull|]. split; [rewrite Hhist; apply last1_app|].
        exists crit. split; [exact Hcrit|].
        destruct how.
        -- exfalso. apply (Hconv eq_refl). exact Hp0.
        -- destruct (ltb crit (SR3.tol (SR3.self st))) eqn:Hlt; [discriminate|].
           apply Qnot_lt_le. intros Hx. apply ltb_lt in Hx. congruence.
      * destruct (Hpos Hp0) as (Hf' & Hlast & crit' & Hcrit' & Hhow).
        split; [exact Hf'|]. split; [exact Hlast|].
        exists crit'. split; [exact Hcrit'|]. rewrite <- Htol. exact Hhow.
    + (* the pass met the tolerance *)
      intros Hf. injection Hf as <- <-.
      exists 1%nat, [SR3.coef_sparse st1].
      split; [lia|].
      split; [rewrite Hit; lia|].
      split; [exact Hhist|].
      split; [reflexivity|].
      split; [exact Hind|]. split; [exact Htol|]. split; [exact Hmi|].
      split; [discriminate|].
      split; [intros _; discriminate|].
      split; [discriminate|]. intros _.
      split; [exact Hfull|]. split; [rewrite Hhist; apply last1_app|].
      exists crit. split; [exact Hcrit|].
      destruct (ltb crit (SR3.tol (SR3.self st))) eqn:Hlt; [|discriminate].
      apply ltb_lt. exact Hlt.
Qed.

End SR3_passes.

(** ** What a completed SR3 reduction leaves on the model *)

Lemma SR3_run_final `{Externals} (s : SR3.t) (x : matrix)
    (y : ndarray) (how : SR3.exit) (s' : SR3.t) (w : list warning) :
  SR3.run s x y = Ok (how, s', w) ->
  exists (p : nat) (entries : list ndarray) (crit : Q),
    (1 <= p <= Z.to_nat (SR3.max_iter s))%nat /\
    BaseOptimizer.iters (SR3.base s') = (BaseOptimizer.iters (SR3.base s) + p)%nat /\
    BaseOptimizer.history_ (SR3.base s')
    = BaseOptimizer.history_ (SR3.base s) ++ entries /\
    length entries = p /\
    last1 (BaseOptimizer.history_ (SR3.base s'))
    = Some (BaseOptimizer.coef_ (SR3.base s')) /\
    BaseOptimizer.ind_ (SR3.base s') = BaseOptimizer.ind_ (SR3.base s) /\
    SR3._convergence_criterion s' = Ok crit /\
    match how with
    | SR3.Converged => w = [] /\ crit < SR3.tol s
    | SR3.ExhaustedUnconverged =>
        w = [SR3NotConverged (SR3.max_iter s)] /\
        p = Z.to_nat (SR3.max_iter s) /\
        SR3.tol s <= crit
    end.
Proof.
  unfold SR3.run. cbv zeta.
  destruct (SR3.for_range _ _ _ _) as [[how1 st]|e] eqn:Hfor; [|discriminate].
  cbn [bind].
  destruct (SR3_for_range_passes _ _ _ _ _ _ Hfor)
    as (p & entries & Hp & Hit & Hhist & Hlen & Hind & _ & _ & Hexh & _ & Hzero & Hpos).
  unfold SR3.write_back.
  destruct (SR3.coef_full st) as [cf|] eqn:Hcf; [|discriminate].
  cbn [of_option bind]. intros Hr. injection Hr as <- <- <-.
  assert (Hp0 : p <> 0%nat).
  { intros Hx. rewrite (Hzero Hx) in Hcf. discriminate. }
  destruct (Hpos Hp0) as (_ & Hlast & crit & Hcrit & Hhow).
  exists p, entries, crit. cbn -[SR3._convergence_criterion].
  split; [lia|]. split; [exact Hit|]. split; [exact Hhist|]. split; [exact Hlen|].
  split; [exact Hlast|]. split; [exact Hind|]. split; [exact Hcrit|].
  destruct how1.
  - split; [reflexivity|exact Hhow].
  - split; [reflexivity|]. split; [apply Hexh; reflexivity|exact Hhow].
Qed.

(** X11: a completed SR3 reduction made between 1 and [max_iter] passes,
    each adding one to [iters] and one snapshot to the History, the
    newest snapshot being the coefficient vector written; it never
    assigns the support mask.  The convergence criterion evaluated on the
    resulting model is below [tol] when the loop converged, with no
    warning; when the budget was exhausted, all [max_iter] passes were
    made, the criterion is not below [tol], and the non-convergence
    warning is the only one. *)
Theorem SR3_exit_warnings_and_iterations `{Externals} (s : SR3.t) (x : matrix)
    (y : ndarray) (how : SR3.exit) (s' : SR3.t) (w : list warning) :
  SR3.run s x y = Ok (how, s', w) ->
  exists (p : nat) (entries : list ndarray) (crit : Q),
    (1 <= p <= Z.to_nat (SR3.max_iter s))%nat /\
    BaseOptimizer.iters (SR3.base s') = (BaseOptimizer.iters (SR3.base s) + p)%nat /\
    BaseOptimizer.history_ (SR3.base s')
    = BaseOptimizer.history_ (SR3.base s) ++ entries /\
    length entries = p /\
    last1 (BaseOptimizer.history_ (SR3.base s'))
    = Some (BaseOptimizer.coef_ (SR3.base s')) /\
    BaseOptimizer.ind_ (SR3.base s') = BaseOptimizer.ind_ (SR3.base s) /\
    SR3._convergence_criterion s' = Ok crit /\
    match how with
    | SR3.Converged => w = [] /\ crit < SR3.tol s
    | SR3.ExhaustedUnconverged =>
        w = [SR3NotConverged (SR3.max_iter s)] /\
        p = Z.to_nat (SR3.max_iter s) /\
        SR3.tol s <= crit
    end.
Proof.
  exact (SR3_run_final s x y how s' w).
Qed.

(** [SR3()] on the identity design and [1, 2, 1/20], entered with the
    least-squares guess: two passes, then converged. *)
Lemma SR3_exit_warnings_and_iterations_witness :
  exists (p : nat) (entries : list ndarray) (crit : Q),
    (1 <= p <= Z.to_nat 30)%nat /\
    2%nat = (0 + p)%nat /\
    [[1; 2; 1 # 20]; [1; 2; 0]; [1; 2; 0]] = [[1; 2; 1 # 20]] ++ entries /\
    crit < 1 # 100000.
Proof.
  destruct (@SR3_exit_warnings_and_iterations Exact.backend
              (SR3.with_base (Example.sr3 Exact.prox_l0 "l0")
                 (@BaseOptimizer.start Exact.backend BaseOptimizer.default
                    Example.I3 Example.y_small))
              Example.I3 Example.y_small SR3.Converged
              (SR3.with_coef_full_
                 (SR3.with_base (Example.sr3 Exact.prox_l0 "l0")
                    (Example.fitted None 2 [[1; 2; 1 # 20]; [1; 2; 0]; [1; 2; 0]]
                       [1; 2; 0] [true; true; true]))
                 [1; 2; 1 # 40])
              [] eq_refl)
    as (p & entries & crit & Hp & Hit & Hhist & _ & _ & _ & _ & _ & Hcrit).
  exists p, entries, crit. split; [exact Hp|]. split; [exact Hit|].
  split; [exact Hhist|exact Hcrit].
Defined.



Lemma SR3_fit_cases `{Externals} (s : SR3.t) (x_ : matrix) (y : ndarray)
    (sample_weight : option ndarray) (s' : SR3.t) (w : list warning) :
  SR3.fit s x_ y sample_weight = Ok (s', w) ->
  exists x y' X_offset y_offset X_scale how s1,
    BaseOptimizer.prepare (SR3.base s) x_ y sample_weight
    = Ok (x, y', X_offset, y_offset, X_scale) /\
    SR3.run (SR3.with_base s (BaseOptimizer.start (SR3.base s) x y')) x y'
    = Ok (how, s1, w) /\
    s' = SR3.with_base s1 (BaseOptimizer.finish (SR3.base s1) X_offset y_offset X_scale).
Proof.
  unfold SR3.fit, BaseOptimizer.fit.
  destruct (BaseOptimizer.prepare (SR3.base s) x_ y sample_weight)
    as [[[[[x y'] X_offset] y_offset] X_scale]|e]; [|discriminate].
  cbn [bind]. unfold SR3._reduce.
  destruct (SR3.run _ x y') as [[[how s1] w1]|e] eqn:Hrun; [|discriminate].
  cbn [bind]. intros Hfit. injection Hfit as <- <-.
  exists x, y', X_offset, y_offset, X_scale, how, s1. repeat split. exact Hrun.
Qed.

(** X13: after a completed SR3 fit the support mask is still the all-true
    mask set at the start of the fit, whatever entries the thresholding
    zeroed; [iters] is the number of passes, between 1 and [max_iter]; and
    the History holds, after what it held before, the initial
    least-squares guess and one snapshot per pass. *)
Theorem SR3_fit_mask_iters_history `{Externals} (s : SR3.t) (x_ : matrix)
    (y : ndarray) (sample_weight : option ndarray) (s' : SR3.t) (w : list warning) :
  SR3.fit s x_ y sample_weight = Ok (s', w) ->
  exists x y' X_offset y_offset X_scale entries,
    BaseOptimizer.prepare (SR3.base s) x_ y sample_weight
    = Ok (x, y', X_offset, y_offset, X_scale) /\
    BaseOptimizer.ind_ (SR3.base s') = ones (shape1 x) /\
    (1 <= BaseOptimizer.iters (SR3.base s') <= Z.to_nat (SR3.max_iter s))%nat /\
    BaseOptimizer.history_ (SR3.base s')
    = BaseOptimizer.history_ (SR3.base s) ++ lstsq x y' :: entries /\
    length entries = BaseOptimizer.iters (SR3.base s').
Proof.
  intros Hfit.
  destruct (SR3_fit_cases _ _ _ _ _ _ Hfit)
    as (x & y' & X_offset & y_offset & X_scale & how & s1 & Hprep & Hrun & ->).
  destruct (SR3_run_final _ _ _ _ _ _ Hrun)
    as (p & entries & crit & Hp & Hit & Hhist & Hlen & _ & Hind & _).
  destruct (finish_frame (SR3.base s1) X_offset y_offset X_scale)
    as (_ & _ & _ & Hfit_iters & Hfit_ind & Hfit_hist & _).
  exists x, y', X_offset, y_offset, X_scale, entries.
  cbn [SR3.base SR3.with_base]. rewrite Hfit_iters, Hfit_ind, Hfit_hist, Hit, Hhist, Hind.
  cbn in Hp, Hit. cbn. split; [exact Hprep|]. split; [reflexivity|].
  split; [lia|].
  split; [rewrite <- app_assoc; reflexivity|lia].
Qed.

Lemma SR3_fit_mask_iters_history_witness :
  exists x y' X_offset y_offset X_scale entries,
    @BaseOptimizer.prepare Exact.backend BaseOptimizer.default
      Example.I3 Example.y_small None
    = Ok (x, y', X_offset, y_offset, X_scale) /\
    [true; true; true] = ones (shape1 x) /\
    (1 <= 2 <= Z.to_nat 30)%nat /\
    [[1; 2; 1 # 20]; [1; 2; 0]; [1; 2; 0]] = [] ++ @lstsq Exact.backend x y' :: entries /\
    length entries = 2%nat.
Proof.
  exact (@SR3_fit_mask_iters_history Exact.backend
           (Example.sr3 Exact.prox_l0 "l0") Example.I3 Example.y_small None
           (SR3.with_coef_full_
              (SR3.with_base (Example.sr3 Exact.prox_l0 "l0")
                 (Example.fitted (Some 0) 2
                    [[1; 2; 1 # 20]; [1; 2; 0]; [1; 2; 0]]
                    [1; 2; 0] [true; true; true]))
              [1; 2; 1 # 40])
           [] eq_refl).
Defined.

(** ** When the STLSQ reduction returns *)

Section STLSQ_returns.
Context `{Externals}.
Variables (x : matrix) (y : ndarray) (n_features_selected : nat).
Variables (alpha0 : Q) (ridge_kw0 : option Kw).

Import STLSQ.

(** The regression on the columns of a non-empty mask returns one
    coefficient per selected column. *)
Hypothesis solver_shape :
  forall ind : mask,
    length ind = shape1 x ->
    count_true ind <> 0%nat ->
    length (ridge_regression (map (compress ind) x) y alpha0 (or_empty ridge_kw0))
    = count_true ind.

Local Abbreviation regressing st :=
  (length (ind st) = shape1 x /\
   alpha (self st) = alpha0 /\
   ridge_kw (self st) = ridge_kw0).

Lemma body_returns (st : loop_state) :
  regressing st ->
  exists ctl st',
    body x y (shape1 x) n_features_selected st = Ok (ctl, st') /\
    regressing st' /\
    (ctl <> Continue -> coef st' <> None).
Proof.
  intros (Hlen & Halpha & Hkw).
  assert (Hpost : forall ctl st',
             body x y (shape1 x) n_features_selected st = Ok (ctl, st') ->
             regressing st' /\ coef st' <> None).
  { intros ctl st' Hb.
    destruct (body_cases _ _ _ _ _ _ _ Hb) as [[_ [_ ->]] | [stop [_ Hreg]]].
    - cbn. repeat split; auto. discriminate.
    - destruct Hreg as (_ & _ & xs & scattered & _ & _ & Hind & Hcoef & _ & _ & Ha & Hk & _).
      cbv zeta in Hind, Hcoef.
      split; [|rewrite Hcoef; discriminate].
      split; [|split; congruence].
      rewrite Hind, abs_ge_length, put_mask_length. exact Hlen. }
  destruct (body x y (shape1 x) n_features_selected st) as [[ctl st']|e] eqn:Hb.
  - exists ctl, st'. split; [reflexivity|].
    destruct (Hpost ctl st' eq_refl) as [Hr Hc]. auto.
  - exfalso. revert Hb. unfold body.
    destruct (count_true (ind st) =? 0)%nat eqn:Hc; [discriminate|].
    apply Nat.eqb_neq in Hc.
    unfold select_columns. rewrite Hlen, Nat.eqb_refl. cbn [bind].
    unfold _regress. cbv zeta. cbn [threshold with_base].
    unfold _sparse_coefficients, setitem_mask.
    rewrite Hlen, Nat.eqb_refl. cbn [negb].
    rewrite Halpha, Hkw, (solver_shape (ind st) Hlen Hc), Nat.eqb_refl.
    cbn [bind].
    destruct (count_true (abs_ge _ _) =? n_features_selected)%nat; [discriminate|].
    rewrite no_change_after_append. discriminate.
Qed.

Lemma for_range_returns (n : nat) (st : loop_state) :
  regressing st ->
  exists how st',
    for_range x y (shape1 x) n_features_selected n st = Ok (how, st') /\
    (how <> ExhaustedUnconverged -> coef st' <> None).
Proof.
  revert st. induction n as [|n IH]; intros st Hst.
  - exists ExhaustedUnconverged, st. split; [reflexivity|]. intros Hx. congruence.
  - destruct (body_returns st Hst) as (ctl & st1 & Hb & Hst1 & Hc).
    cbn [for_range]. rewrite Hb. cbn [bind].
    destruct ctl as [|how].
    + apply IH. exact Hst1.
    + exists how, st1. split; [reflexivity|]. intros _. apply Hc. discriminate.
Qed.

End STLSQ_returns.

(** X14: the STLSQ reduction raises nothing of its own.  Once validation
    and preprocessing have returned the design [x] and the target [y'],
    and provided the regression on the columns of a non-empty mask returns
    one coefficient per selected column, [fit] returns a model, whatever
    the threshold and whatever the iteration budget, a budget that is not
    positive included. *)
Theorem STLSQ_fit_returns `{Externals} (s : STLSQ.t) (x_ : matrix) (y : ndarray)
    (sample_weight : option ndarray) (x : matrix) (y' X_offset : ndarray)
    (y_offset : Q) (X_scale : ndarray) :
  BaseOptimizer.prepare (STLSQ.base s) x_ y sample_weight
  = Ok (x, y', X_offset, y_offset, X_scale) ->
  (forall ind : mask,
      length ind = shape1 x ->
      count_true ind <> 0%nat ->
      length (ridge_regression (map (compress ind) x) y' (STLSQ.alpha s)
                (or_empty (STLSQ.ridge_kw s)))
      = count_true ind) ->
  exists s' w, STLSQ.fit s x_ y sample_weight = Ok (s', w).
Proof.
  intros Hprep Hshape.
  unfold STLSQ.fit, BaseOptimizer.fit. rewrite Hprep. cbn [bind].
  unfold STLSQ._reduce, STLSQ.run. cbv zeta.
  destruct (for_range_returns x y'
              (count_true (STLSQ.ind (STLSQ.enter
                 (STLSQ.with_base s (BaseOptimizer.start (STLSQ.base s) x y')))))
              (STLSQ.alpha s) (STLSQ.ridge_kw s) Hshape
              (Z.to_nat (STLSQ.max_iter
                 (STLSQ.with_base s (BaseOptimizer.start (STLSQ.base s) x y'))))
              (STLSQ.enter (STLSQ.with_base s (BaseOptimizer.start (STLSQ.base s) x y'))))
    as (how & st & Hfor & Hcoef).
  { cbn. split; [apply length_ones|]. split; reflexivity. }
  rewrite Hfor. cbn [bind].
  assert (Hwb : exists s1 w1,
             STLSQ.write_back
               (match how with
                | STLSQ.ExhaustedUnconverged => STLSQ.or_else st
                | _ => st
                end) = Ok (s1, w1)).
  { unfold STLSQ.write_back.
    destruct how.
    - destruct (STLSQ.coef st) as [c|] eqn:Hc; [|exfalso; apply Hcoef; [discriminate|reflexivity]].
      cbn. eauto.
    - destruct (STLSQ.coef st) as [c|] eqn:Hc; [|exfalso; apply Hcoef; [discriminate|reflexivity]].
      cbn. eauto.
    - unfold STLSQ.or_else. destruct (STLSQ.coef st) as [c|] eqn:Hc; cbn.
      + eauto.
      + eauto. }
  destruct Hwb as (s1 & w1 & ->). cbn. eauto.
Qed.

(** [STLSQ()] on the identity design: the exact solver returns one
    coefficient per selected column for each of the seven non-empty
    masks. *)
Lemma STLSQ_fit_returns_witness :
  exists s' w,
    @STLSQ.fit Exact.backend (Example.stlsq STLSQ.default_threshold)
      Example.I3 Example.y_small None
    = Ok (s', w).
Proof.
  refine (@STLSQ_fit_returns Exact.backend (Example.stlsq STLSQ.default_threshold)
            Example.I3 Example.y_small None
            Example.I3 Example.y_small [0; 0; 0] 0 [1; 1; 1] eq_refl _).
  intros [|a [|b [|c [|d ind]]]] Hlen Hcount; try discriminate Hlen.
  destruct a, b, c; reflexivity.
Defined.

(** ** The convergence test of SR3 *)

Lemma sum_from_nonneg (l : list Q) (acc : Q) :
  (forall v, In v l -> 0 <= v) -> 0 <= acc -> 0 <= fold_left Qplus l acc.
Proof.
  revert acc. induction l as [|v l IH]; intros acc Hl Hacc; cbn.
  - exact Hacc.
  - apply IH.
    + intros u Hu. apply Hl. right. exact Hu.
    + replace 0 with (0 + 0) by reflexivity.
      apply Qplus_le_compat; [exact Hacc|]. apply Hl. left. reflexivity.
Qed.

Lemma sum_squares_nonneg (d : ndarray) : 0 <= sum (map (fun v => v * v) d).
Proof.
  unfold sum. apply sum_from_nonneg; [|apply Qle_refl].
  intros v Hv. apply in_map_iff in Hv. destruct Hv as (u & <- & _).
  destruct (Qlt_le_dec u 0) as [Hneg|Hpos].
  - setoid_replace (u * u) with ((- u) * (- u)) by ring.
    apply Qmult_le_0_compat; apply (Qopp_le_compat u 0), Qlt_le_weak, Hneg.
  - apply Qmult_le_0_compat; exact Hpos.
Qed.

Lemma SR3_criterion_nonneg `{Externals} (s : SR3.t) (crit : Q) :
  SR3._convergence_criterion s = Ok crit -> 0 <= crit.
Proof.
  unfold SR3._convergence_criterion. cbv zeta.
  destruct (of_option IndexError (last1 _)) as [this_coef|e]; [|discriminate].
  cbn [bind].
  destruct (if (1 <? _)%nat then _ else _) as [last_coef|e]; [|discriminate].
  cbn [bind].
  destruct (broadcast Qminus this_coef last_coef) as [d|e]; [|discriminate].
  cbn [bind]. intros Hc. injection Hc as <-. apply sum_squares_nonneg.
Qed.

Lemma SR3_criterion_after_append `{Externals} (s : SR3.t) (older : list ndarray)
    (prev c : ndarray) :
  BaseOptimizer.history_ (SR3.base s) = older ++ [prev; c] ->
  SR3._convergence_criterion s
  = (d <- broadcast Qminus c prev ;; Ok (sum (map (fun v => v * v) d))).
Proof.
  intros Hh. unfold SR3._convergence_criterion. cbv zeta. rewrite Hh.
  replace (last1 (older ++ [prev; c])) with (Some c)
    by (change [prev; c] with ([prev] ++ [c]); rewrite app_assoc, last1_app; reflexivity).
  rewrite last2_app, length_app. cbn [length of_option bind].
  replace (1 <? length older + 2)%nat with true
    by (symmetry; apply Nat.ltb_lt; lia).
  reflexivity.
Qed.

Lemma last1_split {A : Type} (l : list A) (a : A) :
  last1 l = Some a -> exists older, l = older ++ [a].
Proof.
  unfold last1. intros Hl. rewrite <- (rev_involutive l).
  destruct (rev l) as [|b r]; [discriminate|].
  cbn in Hl. injection Hl as ->. exists (rev r). reflexivity.
Qed.

(** X15: the convergence test of SR3 measures the step of the sparse
    vector.  Within [fit] the loop is entered with the newest History
    entry equal to the sparse vector, namely the initial guess; and a pass
    entered in such a state leaves such a state, computes the difference
    [d] between the sparse vector it leaves and the one it was entered
    with, and breaks the loop exactly when the sum of the squares of [d]
    is below [tol]. *)
Theorem SR3_pass_breaks_iff_small_step `{Externals} :
  (forall (s : SR3.t) (x : matrix) (y : ndarray),
      let st := SR3.enter (SR3.with_base s (BaseOptimizer.start (SR3.base s) x y)) in
      last1 (BaseOptimizer.history_ (SR3.base (SR3.self st)))
      = Some (SR3.coef_sparse st)) /\
  (forall (cho : Cho) (x_transpose_y : ndarray) (st : SR3.loop_state)
          (ctl : SR3.control) (st' : SR3.loop_state),
      SR3.body cho x_transpose_y st = Ok (ctl, st') ->
      last1 (BaseOptimizer.history_ (SR3.base (SR3.self st)))
      = Some (SR3.coef_sparse st) ->
      last1 (BaseOptimizer.history_ (SR3.base (SR3.self st')))
      = Some (SR3.coef_sparse st') /\
      exists d : ndarray,
        broadcast Qminus (SR3.coef_sparse st') (SR3.coef_sparse st) = Ok d /\
        (ctl = SR3.Break <-> sum (map (fun v => v * v) d) < SR3.tol (SR3.self st))).
Proof.
  split.
  - intros s x y st. subst st. cbn. apply last1_app.
  - intros cho x_transpose_y st ctl st' Hb Hlast.
    destruct (SR3_body_cases _ _ _ _ _ Hb)
      as (_ & Hhist & _ & _ & _ & _ & crit & Hcrit & Hctl).
    split; [rewrite Hhist; apply last1_app|].
    destruct (last1_split _ _ Hlast) as [older Holder].
    rewrite Holder, <- app_assoc in Hhist. cbn [app] in Hhist.
    rewrite (SR3_criterion_after_append _ _ _ _ Hhist) in Hcrit.
    destruct (broadcast Qminus (SR3.coef_sparse st') (SR3.coef_sparse st))
      as [d|e]; [|discriminate].
    cbn [bind] in Hcrit. injection Hcrit as Hcrit.
    exists d. split; [reflexivity|].
    rewrite Hcrit. rewrite <- ltb_lt. subst ctl.
    destruct (ltb crit (SR3.tol (SR3.self st))); split;
      intros Hx; try reflexivity; discriminate.
Qed.

(** The first pass of [SR3()] on the identity design and [1, 2, 1/20]:
    the step zeroes the last entry, which is too large a change to stop. *)
Lemma SR3_pass_breaks_iff_small_step_witness :
  exists d : ndarray,
    broadcast Qminus [1; 2; 0] [1; 2; 1 # 20] = Ok d /\
    (SR3.Continue = SR3.Break <-> sum (map (fun v => v * v) d) < 1 # 100000).
Proof.
  apply (proj2 (@SR3_pass_breaks_iff_small_step Exact.backend)
           (@cho_factor Exact.backend (add_diag (dot_T Example.I3) (1 / 1)))
           (dot_T_vec Example.I3 Example.y_small)
           (SR3.enter
              (SR3.with_base (Example.sr3 Exact.prox_l0 "l0")
                 (@BaseOptimizer.start Exact.backend BaseOptimizer.default
                    Example.I3 Example.y_small)))
           SR3.Continue
           {| SR3.self :=
                SR3.with_base (Example.sr3 Exact.prox_l0 "l0")
                  (Example.fitted None 1 [[1; 2; 1 # 20]; [1; 2; 0]]
                     [1; 2; 1 # 20] [true; true; true]);
              SR3.coef_full := Some [1; 2; 1 # 20];
              SR3.coef_sparse := [1; 2; 0] |}
           eq_refl eq_refl).
Defined.

(** X16: the convergence criterion of SR3 is a sum of squares and so never
    negative.  A model whose [tol] is not positive, which the constructor
    refuses but an assignment allows, therefore never converges: a
    reduction that returns has used its whole budget of [max_iter]
    passes and warns that it did not converge. *)
Theorem SR3_nonpositive_tol_never_converges `{Externals} (s : SR3.t) (x : matrix)
    (y : ndarray) (how : SR3.exit) (s' : SR3.t) (w : list warning) :
  SR3.tol s <= 0 ->
  SR3.run s x y = Ok (how, s', w) ->
  how = SR3.ExhaustedUnconverged /\
  w = [SR3NotConverged (SR3.max_iter s)] /\
  BaseOptimizer.iters (SR3.base s')
  = (BaseOptimizer.iters (SR3.base s) + Z.to_nat (SR3.max_iter s))%nat.
Proof.
  intros Htol Hrun.
  destruct (SR3_run_final _ _ _ _ _ _ Hrun)
    as (p & entries & crit & _ & Hit & _ & _ & _ & _ & Hcrit & Hhow).
  apply SR3_criterion_nonneg in Hcrit.
  destruct how.
  - exfalso. destruct Hhow as [_ Hlt].
    apply (Qlt_not_le _ _ Hlt). apply (Qle_trans _ 0); assumption.
  - destruct Hhow as (-> & -> & _). auto.
Qed.

(** [SR3(max_iter=3)] with [tol] set to zero, on the identity design and
    [1, 2, 1/20]: the sparse vector is stationary from the second pass on,
    and still all three passes are made. *)
Lemma SR3_nonpositive_tol_never_converges_witness :
  SR3.ExhaustedUnconverged = SR3.ExhaustedUnconverged /\
  [SR3NotConverged 3] = [SR3NotConverged 3] /\
  3%nat = (0 + Z.to_nat 3)%nat.
Proof.
  refine (@SR3_nonpositive_tol_never_converges Exact.backend
            (SR3.with_base
               {| SR3.base := BaseOptimizer.default;
                  SR3.threshold := SR3.default_threshold;
                  SR3.nu := SR3.default_nu;
                  SR3.tol := 0;
                  SR3.thresholder := SR3.default_thresholder;
                  SR3.prox := Exact.prox_l0;
                  SR3.max_iter := 3;
                  SR3.coef_full_ := None |}
               (@BaseOptimizer.start Exact.backend BaseOptimizer.default
                  Example.I3 Example.y_small))
            Example.I3 Example.y_small SR3.ExhaustedUnconverged
            (SR3.with_coef_full_
               (SR3.with_base
                  {| SR3.base := BaseOptimizer.default;
                     SR3.threshold := SR3.default_threshold;
                     SR3.nu := SR3.default_nu;
                     SR3.tol := 0;
                     SR3.thresholder := SR3.default_thresholder;
                     SR3.prox := Exact.prox_l0;
                     SR3.max_iter := 3;
                     SR3.coef_full_ := None |}
                  (Example.fitted None 3
                     [[1; 2; 1 # 20]; [1; 2; 0]; [1; 2; 0]; [1; 2; 0]]
                     [1; 2; 0] [true; true; true]))
               [1; 2; 1 # 40])
            [SR3NotConverged 3] _ eq_refl).
  apply Qle_refl.
Defined.

(** ** A converged STLSQ fit is a fixed point *)

Lemma compress_zero_outside (m : mask) (v : ndarray) :
  compress m (zero_outside m v) = compress m v.
Proof.
  revert v. induction m as [|b m IH]; intros [|u v]; cbn; try reflexivity.
  destruct b; cbn; rewrite IH; reflexivity.
Qed.

Lemma compress_put_mask (m : mask) (r : ndarray) :
  length r = count_true m -> compress m (put_mask m r) = r.
Proof.
  revert r. induction m as [|b m IH]; intros r Hr.
  - destruct r; [reflexivity|discriminate].
  - destruct b.
    + destruct r as [|u r]; [discriminate|].
      cbn. f_equal. apply IH. cbn in Hr. injection Hr as Hr. exact Hr.
    + cbn. apply IH. exact Hr.
Qed.

(** X17: a converged STLSQ reduction that made at least two regressions,
    or that pruned nothing, is a fixed point of the iteration: the
    coefficients on the support are exactly the regularised regression
    restricted to the columns of the support, provided the solver
    returned one coefficient per column for it. *)
Theorem STLSQ_converged_is_fixed_point `{Externals} (s : STLSQ.t) (x : matrix)
    (y : ndarray) (s' : STLSQ.t) (w : list warning) :
  STLSQ.run (STLSQ.started s x y) x y = Ok (STLSQ.Converged, s', w) ->
  (2 <= BaseOptimizer.iters (STLSQ.base s'))%nat
  \/ BaseOptimizer.ind_ (STLSQ.base s') = ones (shape1 x) ->
  let ind := BaseOptimizer.ind_ (STLSQ.base s') in
  let solution :=
    ridge_regression (map (compress ind) x) y (STLSQ.alpha s)
      (or_empty (STLSQ.ridge_kw s)) in
  length solution = count_true ind ->
  compress ind (BaseOptimizer.coef_ (STLSQ.base s')) = solution.
Proof.
  intros Hrun Hcase ind solution Hshape. subst ind solution.
  destruct (started_run_cases _ _ _ _ _ _ Hrun)
    as [[Hx _] | [_ (k & st & st' & Hk & Hent & Hpass & Hwb)]]; [discriminate|].
  pose proof (entering_holds _ _ _ _ _ Hent) as Hinv.
  destruct Hinv as (Hlen & Hit & Hth & Hal & Hkw & _ & _ & Hk0).
  destruct (entering_history _ _ _ _ _ Hent) as (_ & _ & _ & _ & _ & _ & Hcoef).
  apply write_back_ind in Hwb. destruct Hwb as (Hind' & Hcoef' & _ & Hiters & _).
  unfold STLSQ.pass in Hpass.
  destruct (body_cases _ _ _ _ _ _ _ Hpass) as [[Hctl _] | [stop [Hctl Hreg]]];
    [discriminate|].
  destruct stop; [|discriminate].
  destruct Hreg as (Hcount & _ & xs & scattered & Hsel & Hscat & Hind & Hc & _ & _
                    & _ & _ & _ & _ & Hit' & Hstop).
  cbv zeta in Hind, Hc, Hstop.
  unfold select_columns in Hsel. rewrite Hlen, Nat.eqb_refl in Hsel.
  injection Hsel as <-.
  rewrite Hth in Hind, Hc, Hstop. rewrite Hal, Hkw in Hscat.
  set (m := STLSQ.ind st) in *.
  set (raw := put_mask m scattered) in *.
  assert (Hsame : STLSQ.ind st' = m).
  { destruct k as [|k].
    - (* the first pass *)
      destruct Hcase as [Hge | Hones].
      + rewrite Hiters, Hit', Hit in Hge. lia.
      + rewrite Hind' in Hones. rewrite Hones. subst m. rewrite Hk0. cbn.
        reflexivity.
    - destruct Hk0 as (Hpos & older & h & Hold & Hpat).
      destruct Hcoef as (c0 & _ & Hlast & Hc0len & _).
      rewrite Hold, last1_app in Hlast. injection Hlast as <-.
      symmetry in Hstop. apply orb_true_iff in Hstop.
      destruct Hstop as [Hfull | Hpattern].
      + apply Nat.eqb_eq in Hfull.
        change (count_true (BaseOptimizer.ind_ (STLSQ.base (STLSQ.started s x y))))
          with (count_true (ones (shape1 x))) in Hfull.
        rewrite count_true_ones in Hfull.
        pose proof (abs_ge_put_mask_subset m scattered _ Hpos) as Hsub.
        fold raw in Hsub.
        assert (Hbl : length (abs_ge raw (STLSQ.threshold s)) = shape1 x).
        { rewrite (subset_length _ _ Hsub). exact Hlen. }
        rewrite Hind.
        apply (subset_same_count _ _ Hsub).
        apply Nat.le_antisymm; [apply (subset_count _ _ Hsub)|].
        rewrite Hfull, <- Hlen. unfold count_true. apply filter_length_le.
      + unfold STLSQ.preceding in Hpattern. rewrite Hold, last1_app in Hpattern.
        apply same_pattern_iff in Hpattern.
        * rewrite (pattern_zero_outside _ _ Hpos), Hpat in Hpattern.
          rewrite Hind. exact Hpattern.
        * rewrite zero_outside_length. unfold raw. rewrite put_mask_length.
          rewrite Hc0len. exact Hlen. }
  rewrite Hind', Hsame in Hshape. rewrite Hind', Hsame.
  rewrite Hc in Hcoef'. injection Hcoef' as ->.
  rewrite <- Hind, Hsame.
  rewrite compress_zero_outside. unfold raw.
  rewrite (Hscat Hshape). apply compress_put_mask. exact Hshape.
Qed.

(** [STLSQ()] fitted on the identity design and [1, 2, 1/20]: the second
    regression, on the first two columns, returns [1, 2], which are the
    coefficients kept. *)
Lemma STLSQ_converged_is_fixed_point_witness :
  compress [true; true; false] [1; 2; 0]
  = @ridge_regression Exact.backend
      (map (compress [true; true; false]) Example.I3) Example.y_small
      STLSQ.default_alpha (or_empty (@STLSQ.default_ridge_kw Exact.backend)).
Proof.
  apply (@STLSQ_converged_is_fixed_point Exact.backend
           (Example.stlsq STLSQ.default_threshold) Example.I3 Example.y_small
           (STLSQ.with_base (Example.stlsq STLSQ.default_threshold)
              (Example.fitted None 2 [[1; 2; 1 # 20]; [1; 2; 0]; [1; 2; 0]]
                 [1; 2; 0] [true; true; false]))
           [] eq_refl).
  - left. cbn. lia.
  - reflexivity.
Defined.

(** ** The unthresholded vector SR3 keeps *)

Section SR3_full.
Context `{Externals}.
Variables (cho : Cho) (x_transpose_y : ndarray).

Local Abbreviation solved_from st' prev :=
  (exists b,
      broadcast Qplus x_transpose_y (map (fun v => v / SR3.nu (SR3.self st')) prev)
      = Ok b /\
      SR3.coef_full st' = Some (cho_solve cho b)).

Lemma SR3_body_full (st : SR3.loop_state) (ctl : SR3.control)
    (st' : SR3.loop_state) :
  SR3.body cho x_transpose_y st = Ok (ctl, st') ->
  SR3.nu (SR3.self st') = SR3.nu (SR3.self st) /\
  solved_from st' (SR3.coef_sparse st).
Proof.
  unfold SR3.body, SR3._update_full_coef.
  destruct (broadcast Qplus _ _) as [b|e] eqn:Hb; [|discriminate].
  cbn [bind]. unfold SR3._update_sparse_coef.
  destruct (SR3._convergence_criterion _) as [crit|e]; [|discriminate].
  cbn [bind]. intros Hbody. injection Hbody as <- <-. cbn.
  split; [reflexivity|]. exists b. split; [exact Hb|reflexivity].
Qed.

Lemma SR3_for_range_full (n : nat) (st : SR3.loop_state) (how : SR3.exit)
    (st' : SR3.loop_state) :
  SR3.for_range cho x_transpose_y n st = Ok (how, st') ->
  last1 (BaseOptimizer.history_ (SR3.base (SR3.self st)))
  = Some (SR3.coef_sparse st) ->
  SR3.nu (SR3.self st') = SR3.nu (SR3.self st) /\
  last1 (BaseOptimizer.history_ (SR3.base (SR3.self st')))
  = Some (SR3.coef_sparse st') /\
  (st' = st \/
   exists prev,
     last2 (BaseOptimizer.history_ (SR3.base (SR3.self st'))) = Some prev /\
     solved_from st' prev).
Proof.
  revert st. induction n as [|n IH]; intros st; cbn [SR3.for_range].
  - intros Hf Hlast. injection Hf as _ <-. auto.
  - destruct (SR3.body cho x_transpose_y st) as [[ctl st1]|e] eqn:Hb; [|discriminate].
    cbn [bind]. intros Hf Hlast.
    destruct (SR3_body_cases _ _ _ _ _ Hb) as (_ & Hhist & _).
    destruct (SR3_body_full _ _ _ Hb) as (Hnu & Hsolved).
    assert (Hlast1 : last1 (BaseOptimizer.history_ (SR3.base (SR3.self st1)))
                     = Some (SR3.coef_sparse st1)).
    { rewrite Hhist. apply last1_app. }
    assert (Hlast2 : last2 (BaseOptimizer.history_ (SR3.base (SR3.self st1)))
                     = Some (SR3.coef_sparse st)).
    { destruct (last1_split _ _ Hlast) as [older Holder].
      rewrite Hhist, Holder, <- app_assoc. apply last2_app. }
    destruct ctl.
    + destruct (IH st1 Hf Hlast1) as (Hnu' & Hlast' & Hcase).
      split; [congruence|]. split; [exact Hlast'|]. right.
      destruct Hcase as [-> | Hprev]; [|exact Hprev].
      exists (SR3.coef_sparse st). split; [exact Hlast2|exact Hsolved].
    + injection Hf as _ <-.
      split; [exact Hnu|]. split; [exact Hlast1|]. right.
      exists (SR3.coef_sparse st). split; [exact Hlast2|exact Hsolved].
Qed.

End SR3_full.

(** X18: the unthresholded vector a completed SR3 reduction keeps in
    [coef_full_] is the solution, by the Cholesky factor of
    [x.T x + I / nu], of the system with right-hand side
    [x.T y + prev / nu], where [prev] is the sparse vector of the pass
    before the last, the last but one History entry; this for a reduction
    entered, as within [fit], with the newest History entry equal to the
    coefficients. *)
Theorem SR3_full_solves_from_previous_sparse `{Externals} (s : SR3.t) (x : matrix)
    (y : ndarray) (how : SR3.exit) (s' : SR3.t) (w : list warning) :
  SR3.run s x y = Ok (how, s', w) ->
  last1 (BaseOptimizer.history_ (SR3.base s)) = Some (BaseOptimizer.coef_ (SR3.base s)) ->
  exists prev b,
    last2 (BaseOptimizer.history_ (SR3.base s')) = Some prev /\
    broadcast Qplus (dot_T_vec x y) (map (fun v => v / SR3.nu s) prev) = Ok b /\
    SR3.coef_full_ s'
    = Some (cho_solve (cho_factor (add_diag (dot_T x) (1 / SR3.nu s))) b).
Proof.
  unfold SR3.run. cbv zeta.
  destruct (SR3.for_range _ _ _ _) as [[how1 st]|e] eqn:Hfor; [|discriminate].
  cbn [bind]. intros Hrun Hlast.
  destruct (SR3_for_range_full _ _ _ _ _ _ Hfor Hlast) as (Hnu & _ & Hcase).
  unfold SR3.write_back in Hrun.
  destruct (SR3.coef_full st) as [cf|] eqn:Hcf; [|discriminate].
  cbn [of_option bind] in Hrun. injection Hrun as _ <- _.
  destruct Hcase as [-> | (prev & Hprev & b & Hb & Hfull)]; [discriminate|].
  exists prev, b. cbn in Hnu. rewrite Hnu in Hb.
  split; [exact Hprev|]. split; [exact Hb|]. cbn. rewrite <- Hfull. reflexivity.
Qed.

(** [SR3()] on the identity design and [1, 2, 1/20]: the last pass was
    entered with [1, 2, 0], and [(I + I) [1, 2, 1/40] = [1, 2, 1/20] + [1, 2, 0]]. *)
Lemma SR3_full_solves_from_previous_sparse_witness :
  exists prev b,
    last2 [[1; 2; 1 # 20]; [1; 2; 0]; [1; 2; 0]] = Some prev /\
    broadcast Qplus (dot_T_vec Example.I3 Example.y_small)
      (map (fun v => v / 1) prev) = Ok b /\
    Some [1; 2; 1 # 40]
    = Some (@cho_solve Exact.backend
              (@cho_factor Exact.backend (add_diag (dot_T Example.I3) (1 / 1))) b).
Proof.
  exact (@SR3_full_solves_from_previous_sparse Exact.backend
           (SR3.with_base (Example.sr3 Exact.prox_l0 "l0")
              (@BaseOptimizer.start Exact.backend BaseOptimizer.default
                 Example.I3 Example.y_small))
           Example.I3 Example.y_small SR3.Converged
           (SR3.with_coef_full_
              (SR3.with_base (Example.sr3 Exact.prox_l0 "l0")
                 (Example.fitted None 2 [[1; 2; 1 # 20]; [1; 2; 0]; [1; 2; 0]]
                    [1; 2; 0] [true; true; true]))
              [1; 2; 1 # 40])
           [] eq_refl eq_refl).
Defined.

(** ** When the SR3 reduction returns *)


Section SR3_returns.
Context `{Externals}.
Variables (cho : Cho) (x_transpose_y : ndarray).
Variable prox0 : ndarray -> Q -> ndarray.

(** The linear solve, on a right-hand side of the length of [x.T y], and
    the proximal operator return arrays of the length of their argument. *)
Hypothesis solve_shape :
  forall b : ndarray,
    length b = length x_transpose_y -> length (cho_solve cho b) = length b.
Hypothesis prox_shape : forall (c : ndarray) (th : Q), length (prox0 c th) = length c.

Local Abbreviation iterating st :=
  (length (SR3.coef_sparse st) = length x_transpose_y /\
   last1 (BaseOptimizer.history_ (SR3.base (SR3.self st))) = Some (SR3.coef_sparse st) /\
   SR3.prox (SR3.self st) = prox0).



End SR3_returns.




